(** * Personal Finance Manager: expense records, CSV persistence, statistics

    A shallow embedding of [expense.py], [file_manager.py],
    [expense_manager.py] and [utils.get_current_month], together with the
    Python built-ins those modules call (binary64 [float], [round],
    [str.strip], [datetime.strptime], the [csv] reader and writer).

    Conventions.
    - A Python [str] is a [string]; one [ascii] stands for one code point
      below 256.
    - A Python [float] is a [spec_float] at precision 53, [emax = 1024].
    - A call that may raise returns [res A]: [Ok v] or [Raise e]. *)

From Stdlib Require Import ZArith QArith Qround List Ascii String Bool Lia.
From Stdlib Require Import DecimalString Sorted Permutation.
From Stdlib Require Import Floats.SpecFloat.
From stdpp Require Import gmap strings.

Import ListNotations.
Local Open Scope string_scope.
Local Open Scope Z_scope.

(** ** Exceptions *)

Inductive exn :=
| ValueError | TypeError | AttributeError | KeyError | OverflowError
| ZeroDivisionError | OSError | CsvError.

Inductive res (A : Type) :=
| Ok (v : A)
| Raise (e : exn).
Arguments Ok {A} v.
Arguments Raise {A} e.

Definition bind {A B} (r : res A) (k : A -> res B) : res B :=
  match r with
  | Ok v => k v
  | Raise e => Raise e
  end.

Notation "'do' x <- r ; k" := (bind r (fun x => k))
  (at level 10, x name, r at level 100, k at level 200).

Definition exn_eqb (a b : exn) : bool :=
  match a, b with
  | ValueError, ValueError | TypeError, TypeError
  | AttributeError, AttributeError | KeyError, KeyError
  | OverflowError, OverflowError | ZeroDivisionError, ZeroDivisionError
  | OSError, OSError | CsvError, CsvError => true
  | _, _ => false
  end.

(** ** Characters and strings *)

Definition code (c : ascii) : Z := Z.of_N (N_of_ascii c).

Definition is_digit (c : ascii) : bool := (48 <=? code c) && (code c <=? 57).

Definition digit_val (c : ascii) : Z := code c - 48.

(** [str.isspace] on the code points below 256. *)
Definition is_space (c : ascii) : bool :=
  let n := code c in
  ((9 <=? n) && (n <=? 13)) || ((28 <=? n) && (n <=? 32))
  || (n =? 133) || (n =? 160).

Fixpoint lstrip (s : string) : string :=
  match s with
  | String c s' => if is_space c then lstrip s' else s
  | EmptyString => EmptyString
  end.

Fixpoint rstrip (s : string) : string :=
  match s with
  | EmptyString => EmptyString
  | String c s' =>
      match rstrip s' with
      | EmptyString => if is_space c then EmptyString else String c EmptyString
      | t => String c t
      end
  end.

(** [str.strip()] *)
Definition strip (s : string) : string := rstrip (lstrip s).

(** Lower case of the letters A to Z. *)
Definition lower_char (c : ascii) : ascii :=
  let n := code c in
  if (65 <=? n) && (n <=? 90) then ascii_of_N (Z.to_N (n + 32)) else c.

Fixpoint lower (s : string) : string :=
  match s with
  | EmptyString => EmptyString
  | String c s' => String (lower_char c) (lower s')
  end.

(** [s.startswith(p)] *)
Fixpoint startswith (s p : string) : bool :=
  match p, s with
  | EmptyString, _ => true
  | String a p', String b s' => Ascii.eqb a b && startswith s' p'
  | String _ _, EmptyString => false
  end.

(** [s[:n]] for [n >= 0] *)
Fixpoint take (n : nat) (s : string) : string :=
  match n, s with
  | S n', String c s' => String c (take n' s')
  | _, _ => EmptyString
  end.

(** Python's [<] on [str]: code point by code point, a proper prefix first. *)
Fixpoint str_ltb (a b : string) : bool :=
  match a, b with
  | _, EmptyString => false
  | EmptyString, String _ _ => true
  | String x a', String y b' =>
      if code x <? code y then true
      else if code y <? code x then false
      else str_ltb a' b'
  end.

(** ** Python floats *)

Module PyFloat.

Definition prec : Z := 53.
Definition emax : Z := 1024.

Definition float := spec_float.

Definition zero : float := S754_zero false.

Definition add : float -> float -> float := SFadd prec emax.
Definition div : float -> float -> float := SFdiv prec emax.
Definition ltb : float -> float -> bool := SFltb.
Definition leb : float -> float -> bool := SFleb.
Definition eqb : float -> float -> bool := SFeqb.

Definition is_zero (x : float) : bool :=
  match x with S754_zero _ => true | _ => false end.

(** The double nearest to [(-1)^s * n / d], ties to even. *)
Definition of_ratio (s : bool) (n d : positive) : float :=
  let '(mz, ez, lz) := SFdiv_core_binary prec emax (Zpos n) 0 (Zpos d) 0 in
  binary_round_aux prec emax s mz ez lz.

(** The double nearest to a non-negative rational, with sign [s]. *)
Definition of_Q (s : bool) (q : Q) : float :=
  match Qnum q with
  | Zpos n => of_ratio s n (Qden q)
  | _ => S754_zero s
  end.

(** The double nearest to [(-1)^s * n * 10^k]. *)
Definition of_decimal (s : bool) (n : Z) (k : Z) : float :=
  if 0 <=? k then of_Q s (inject_Z (n * 10 ^ k))
  else of_Q s (n # Z.to_pos (10 ^ (- k))).

(** [float(n)] for an [int]: [OverflowError] beyond the finite range. *)
Definition of_int (n : Z) : res float :=
  match binary_normalize prec emax n 0 false with
  | S754_infinity _ => Raise OverflowError
  | f => Ok f
  end.

(** Magnitude of a finite float as an exact rational. *)
Definition abs_Q (m : positive) (e : Z) : Q :=
  if 0 <=? e then inject_Z (Zpos m * 2 ^ e)
  else Zpos m # Z.to_pos (2 ^ (- e)).

(** Nearest integer to a non-negative rational, ties to even. *)
Definition round_half_even (q : Q) : Z :=
  let f := Qfloor q in
  match Qcompare (q - inject_Z f) (1 # 2) with
  | Lt => f
  | Gt => f + 1
  | Eq => if Z.even f then f else f + 1
  end.

(** [round(x, 2)]: the correctly rounded two-place decimal of the exact
    value of [x], converted back to the nearest double. *)
Definition round2 (x : float) : float :=
  match x with
  | S754_finite s m e =>
      of_Q s (round_half_even (abs_Q m e * inject_Z 100) # 100)
  | _ => x
  end.

(** *** [float(s)] for a [str] *)

(** Whitespace removed at both ends by [float()]. *)
Definition is_float_space (c : ascii) : bool :=
  let n := code c in
  ((9 <=? n) && (n <=? 13)) || (n =? 32) || (n =? 133) || (n =? 160).

Fixpoint lstrip_float (s : string) : string :=
  match s with
  | String c s' => if is_float_space c then lstrip_float s' else s
  | EmptyString => EmptyString
  end.

Fixpoint rstrip_float (s : string) : string :=
  match s with
  | EmptyString => EmptyString
  | String c s' =>
      match rstrip_float s' with
      | EmptyString =>
          if is_float_space c then EmptyString else String c EmptyString
      | t => String c t
      end
  end.

(** Digit grouping: an underscore is legal only between two digits. *)
Fixpoint drop_underscores (prev : ascii) (s : string) : option string :=
  match s with
  | EmptyString => if Ascii.eqb prev "_" then None else Some EmptyString
  | String c s' =>
      if Ascii.eqb c "_" then
        if is_digit prev then drop_underscores c s' else None
      else if Ascii.eqb prev "_" && negb (is_digit c) then None
      else option_map (String c) (drop_underscores c s')
  end.

(** Longest prefix of digits: its value on top of [acc], its length, the rest. *)
Fixpoint span_digits (s : string) (acc : Z) (len : Z) : Z * Z * string :=
  match s with
  | String c s' =>
      if is_digit c then span_digits s' (10 * acc + digit_val c) (len + 1)
      else (acc, len, s)
  | EmptyString => (acc, len, s)
  end.

Definition parse_sign (s : string) : bool * string :=
  match s with
  | String "-" s' => (true, s')
  | String "+" s' => (false, s')
  | _ => (false, s)
  end.

(** The exponent part, which has to reach the end of the string. *)
Definition parse_exponent (s : string) : option Z :=
  match s with
  | EmptyString => Some 0
  | String c s' =>
      if Ascii.eqb c "e" || Ascii.eqb c "E" then
        let '(neg, t) := parse_sign s' in
        match span_digits t 0 0 with
        | (v, len, EmptyString) =>
            if 0 <? len then Some (if neg then - v else v) else None
        | _ => None
        end
      else None
  end.

Definition parse_number (neg : bool) (s : string) : option float :=
  let '(ip, ilen, r1) := span_digits s 0 0 in
  let '(mant, flen, r2) :=
    match r1 with
    | String "." r => span_digits r ip 0
    | _ => (ip, 0, r1)
    end in
  if 0 <? ilen + flen then
    match parse_exponent r2 with
    | Some ex => Some (of_decimal neg mant (ex - flen))
    | None => None
    end
  else None.

Definition of_string (s : string) : res float :=
  match drop_underscores "000" (rstrip_float (lstrip_float s)) with
  | None => Raise ValueError
  | Some t =>
      let '(neg, body) := parse_sign t in
      let w := lower body in
      if String.eqb w "inf" || String.eqb w "infinity"
      then Ok (S754_infinity neg)
      else if String.eqb w "nan" then Ok S754_nan
      else match parse_number neg body with
           | Some f => Ok f
           | None => Raise ValueError
           end
  end.

(** *** [repr(x)]: the shortest decimal string that reads back as [x] *)

Definition same (x y : float) : bool :=
  match x, y with
  | S754_zero a, S754_zero b => Bool.eqb a b
  | S754_infinity a, S754_infinity b => Bool.eqb a b
  | S754_nan, S754_nan => true
  | S754_finite a m e, S754_finite b n f =>
      Bool.eqb a b && Pos.eqb m n && Z.eqb e f
  | _, _ => false
  end.

Definition pow10 (k : Z) : Q :=
  if 0 <=? k then inject_Z (10 ^ k) else 1 # Z.to_pos (10 ^ (- k)).

(** Least [p' >= p] with [x < 10^p'], within [fuel] steps. *)
Fixpoint adjust_up (fuel : nat) (x : Q) (p : Z) : Z :=
  match fuel with
  | O => p
  | S f => if Qle_bool (pow10 p) x then adjust_up f x (p + 1) else p
  end.

(** The [p] with [10^(p-1) <= m * 2^e < 10^p]. *)
Definition decimal_point (m : positive) (e : Z) : Z :=
  let b := Zpos (digits2_pos m) + e - 1 in
  adjust_up 8 (abs_Q m e) (b * 1233 / 4096 - 1).

(** Try [n] significant digits: the neighbours of [x] on the grid
    [10^(p-n)], kept when they read back as [x]; the closer one wins. *)
Definition digits_at (m : positive) (e : Z) (p : Z) (n : Z) : option (Z * Z) :=
  let x := abs_Q m e in
  let k := p - n in
  let q := (x / pow10 k)%Q in
  let lo := Qfloor q in
  let hi := lo + 1 in
  let ok d := same (of_decimal false d k) (S754_finite false m e) in
  match ok lo, ok hi with
  | true, true =>
      match Qcompare (q - inject_Z lo) (inject_Z hi - q) with
      | Lt => Some (lo, k)
      | Gt => Some (hi, k)
      | Eq => Some (if Z.even lo then lo else hi, k)
      end
  | true, false => Some (lo, k)
  | false, true => Some (hi, k)
  | false, false => None
  end.

Fixpoint shortest_from (fuel : nat) (m : positive) (e p n : Z) : Z * Z :=
  match fuel with
  | O => (Qfloor (abs_Q m e / pow10 (p - n)), p - n)
  | S f =>
      match digits_at m e p n with
      | Some r => r
      | None => shortest_from f m e p (n + 1)
      end
  end.

Fixpoint strip_zeros (fuel : nat) (d k : Z) : Z * Z :=
  match fuel with
  | O => (d, k)
  | S f =>
      if (d mod 10 =? 0) && negb (d =? 0) then strip_zeros f (d / 10) (k + 1)
      else (d, k)
  end.

Definition shortest_digits (m : positive) (e : Z) : Z * Z :=
  let '(d, k) := shortest_from 17 m e (decimal_point m e) 1 in
  strip_zeros 20 d k.

Definition digits_of (n : Z) : string := NilZero.string_of_int (Z.to_int n).

Fixpoint zeros (n : nat) : string :=
  match n with
  | O => EmptyString
  | S n' => String "0" (zeros n')
  end.

Fixpoint drop (n : nat) (s : string) : string :=
  match n, s with
  | S n', String _ s' => drop n' s'
  | _, _ => s
  end.

Definition exponent_text (x : Z) : string :=
  let a := digits_of (Z.abs x) in
  let sg := if x <? 0 then "-" else "+" in
  let pad := if Z.abs x <? 10 then "0" else "" in
  (sg ++ pad ++ a)%string.

Definition format_short (ds : string) (decpt : Z) : string :=
  let nd := Z.of_nat (String.length ds) in
  if (decpt <=? -4) || (16 <? decpt) then
    let frac := if 1 <? nd then ("." ++ drop 1 ds)%string else "" in
    let ex := exponent_text (decpt - 1) in
    (take 1 ds ++ frac ++ "e" ++ ex)%string
  else if decpt <=? 0 then
    let z := zeros (Z.to_nat (- decpt)) in ("0." ++ z ++ ds)%string
  else if nd <=? decpt then
    let z := zeros (Z.to_nat (decpt - nd)) in (ds ++ z ++ ".0")%string
  else
    let i := Z.to_nat decpt in (take i ds ++ "." ++ drop i ds)%string.

Definition repr (x : float) : string :=
  match x with
  | S754_nan => "nan"
  | S754_infinity s => if s then "-inf" else "inf"
  | S754_zero s => if s then "-0.0" else "0.0"
  | S754_finite s m e =>
      let '(d, k) := shortest_digits m e in
      let ds := digits_of d in
      let body := format_short ds (Z.of_nat (String.length ds) + k) in
      ((if s then "-" else "") ++ body)%string
  end.

End PyFloat.

Abbreviation float := PyFloat.float.

(** ** Python values reaching the model *)

Inductive pyval :=
| VNone
| VStr (s : string)
| VFloat (f : float)
| VInt (n : Z)
| VBool (b : bool).

(** [float(v)] *)
Definition py_float (v : pyval) : res float :=
  match v with
  | VNone => Raise TypeError
  | VStr s => PyFloat.of_string s
  | VFloat f => Ok f
  | VInt n => PyFloat.of_int n
  | VBool b => PyFloat.of_int (if b then 1 else 0)
  end.

(** [try: body except (classes): handler] *)
Definition try_except {A} (body : res A) (classes : list exn)
    (handler : exn -> res A) : res A :=
  match body with
  | Ok v => Ok v
  | Raise e => if existsb (exn_eqb e) classes then handler e else Raise e
  end.

(** ** [datetime] *)

Record datetime := {
  year : Z; month : Z; day : Z;
  hour : Z; minute : Z; second : Z; microsecond : Z
}.

Definition is_leap (y : Z) : bool :=
  (y mod 4 =? 0) && (negb (y mod 100 =? 0) || (y mod 400 =? 0)).

Definition days_in_month (y m : Z) : Z :=
  if m =? 2 then (if is_leap y then 29 else 28)
  else if (m =? 4) || (m =? 6) || (m =? 9) || (m =? 11) then 30
  else 31.

(** Zero-padded decimal of a non-negative number, at least [w] digits. *)
Definition pad (w : nat) (n : Z) : string :=
  let d := PyFloat.digits_of n in
  (PyFloat.zeros (w - String.length d) ++ d)%string.

(** [strftime("%Y-%m")] *)
Definition strftime_Ym (t : datetime) : string :=
  (pad 4 (year t) ++ "-" ++ pad 2 (month t))%string.

(** [strftime("%Y%m%d_%H%M%S")] *)
Definition strftime_backup (t : datetime) : string :=
  (pad 4 (year t) ++ pad 2 (month t) ++ pad 2 (day t) ++ "_"
   ++ pad 2 (hour t) ++ pad 2 (minute t) ++ pad 2 (second t))%string.

(** [isoformat()] *)
Definition isoformat (t : datetime) : string :=
  let us := if microsecond t =? 0 then ""
            else ("." ++ pad 6 (microsecond t))%string in
  (pad 4 (year t) ++ "-" ++ pad 2 (month t) ++ "-" ++ pad 2 (day t) ++ "T"
   ++ pad 2 (hour t) ++ ":" ++ pad 2 (minute t) ++ ":" ++ pad 2 (second t)
   ++ us)%string.

(** *** [strptime(s, "%Y-%m-%d")]

    The format compiles to the regular expression
    [(\d\d\d\d)-(1[0-2]|0[1-9]|[1-9])-(3[0-1]|[1-2]\d|0[1-9]|[1-9]| [1-9])];
    alternatives are tried in order, with backtracking into the rest. *)

Module Strptime.

(** A piece of pattern: the value it reads and the rest of the input. *)
Definition piece := string -> option (Z * string).

Definition in_range (lo hi : Z) (c : ascii) : bool :=
  (lo <=? code c) && (code c <=? hi).

(** One character in the code range [lo..hi], read as a digit. *)
Definition one (lo hi : Z) : piece := fun s =>
  match s with
  | String c r => if in_range lo hi c then Some (digit_val c, r) else None
  | EmptyString => None
  end.

(** A fixed character contributing [v]. *)
Definition lit (ch : ascii) (v : Z) : piece := fun s =>
  match s with
  | String c r => if Ascii.eqb c ch then Some (v, r) else None
  | EmptyString => None
  end.

(** Two pieces in sequence, read as a two-digit number. *)
Definition two (a b : piece) : piece := fun s =>
  match a s with
  | Some (x, r) =>
      match b r with
      | Some (y, r') => Some (10 * x + y, r')
      | None => None
      end
  | None => None
  end.

Definition digit : piece := one 48 57.

Definition year4 : piece := two (two (two digit digit) digit) digit.

Definition month_alts : list piece :=
  [ two (lit "1" 1) (one 48 50); two (lit "0" 0) (one 49 57); one 49 57 ].

Definition day_alts : list piece :=
  [ two (lit "3" 3) (one 48 49); two (one 49 50) digit;
    two (lit "0" 0) (one 49 57); one 49 57; two (lit " " 0) (one 49 57) ].

(** First alternative after which the continuation [k] succeeds. *)
Fixpoint alt {A} (alts : list piece) (k : Z -> string -> option A)
    (s : string) : option A :=
  match alts with
  | [] => None
  | a :: rest =>
      match a s with
      | Some (v, r) =>
          match k v r with
          | Some x => Some x
          | None => alt rest k s
          end
      | None => alt rest k s
      end
  end.

Definition dash {A} (k : string -> option A) (s : string) : option A :=
  match s with
  | String "-" r => k r
  | _ => None
  end.

(** [format_regex.match(s)]: the three groups and the unmatched tail. *)
Definition regex_match (s : string) : option (Z * Z * Z * string) :=
  match year4 s with
  | Some (y, r) =>
      dash (alt month_alts (fun m =>
        dash (alt day_alts (fun d tl => Some (y, m, d, tl))))) r
  | None => None
  end.

Definition strptime (s : string) : res datetime :=
  match regex_match s with
  | None => Raise ValueError
  | Some (y, m, d, tl) =>
      if negb (String.eqb tl "") then Raise ValueError
      else if (y <? 1) || (days_in_month y m <? d) then Raise ValueError
      else Ok {| year := y; month := m; day := d;
                 hour := 0; minute := 0; second := 0; microsecond := 0 |}
  end.

End Strptime.

(** [datetime.strptime(v, "%Y-%m-%d")] on any value *)
Definition py_strptime (v : pyval) : res datetime :=
  match v with
  | VStr s => Strptime.strptime s
  | _ => Raise TypeError
  end.

(** ** expense.py *)

Definition CATEGORIES : list string :=
  [ "Food"; "Transport"; "Entertainment";
    "Shopping"; "Bills"; "Healthcare";
    "Education"; "Other" ].

Record Expense := {
  amount : float;
  category : string;
  date : string;
  description : string;
  created_at : datetime
}.

Definition _validate_amount (a : pyval) : res float :=
  try_except
    (do amount_float <- py_float a;
     if PyFloat.leb amount_float PyFloat.zero then Raise ValueError
     else Ok (PyFloat.round2 amount_float))
    [ValueError; TypeError]
    (fun _ => Raise ValueError).

Definition _validate_category (c : pyval) : res string :=
  match c with
  | VStr s => if existsb (String.eqb s) CATEGORIES then Ok s
              else Raise ValueError
  | _ => Raise ValueError
  end.

Definition _validate_date (date_str : pyval) : res string :=
  try_except
    (do _ <- py_strptime date_str;
     match date_str with
     | VStr s => Ok s
     | _ => Raise TypeError
     end)
    [ValueError]
    (fun _ => Raise ValueError).

(** [description.strip()] *)
Definition py_strip (v : pyval) : res string :=
  match v with
  | VStr s => Ok (strip s)
  | _ => Raise AttributeError
  end.

(** [Expense(amount, category, date, description)], at clock reading [now] *)
Definition Expense_init (now : datetime)
    (a c d descr : pyval) : res Expense :=
  do a' <- _validate_amount a;
  do c' <- _validate_category c;
  do d' <- _validate_date d;
  do s' <- py_strip descr;
  Ok {| amount := a'; category := c'; date := d'; description := s';
        created_at := now |}.

Record expense_dict := {
  d_date : string;
  d_category : string;
  d_amount : float;
  d_description : string;
  d_created_at : string
}.

Definition to_dict (e : Expense) : expense_dict :=
  {| d_date := date e;
     d_category := category e;
     d_amount := amount e;
     d_description := description e;
     d_created_at := isoformat (created_at e) |}.

(** ** The [csv] module, dialect [excel]

    Delimiter [,], quote character code 34, [doublequote] on, no escape
    character, [skipinitialspace] off, line terminator CR LF,
    [QUOTE_MINIMAL], not strict. *)

Module Csv.

Definition CR : ascii := "013"%char.
Definition LF : ascii := "010"%char.
Definition QUOTE : ascii := "034"%char.
Definition DELIM : ascii := ","%char.

Definition field_limit : Z := 131072.

(** *** Writer *)

(** What the writer prints for a field value: [str] as it is, [None] as
    the empty string, anything else through [str()]. *)
Definition field_text (v : pyval) : string :=
  match v with
  | VStr s => s
  | VNone => ""
  | VFloat f => PyFloat.repr f
  | VInt n =>
      let sg := if n <? 0 then "-" else "" in
      (sg ++ PyFloat.digits_of (Z.abs n))%string
  | VBool b => if b then "True" else "False"
  end.

Definition is_special (c : ascii) : bool :=
  Ascii.eqb c DELIM || Ascii.eqb c QUOTE || Ascii.eqb c CR || Ascii.eqb c LF.

Fixpoint needs_quotes (s : string) : bool :=
  match s with
  | EmptyString => false
  | String c s' => is_special c || needs_quotes s'
  end.

(** Body of a quoted field: every quote character doubled. *)
Fixpoint double_quotes (s : string) : string :=
  match s with
  | EmptyString => EmptyString
  | String c s' =>
      if Ascii.eqb c QUOTE then String QUOTE (String QUOTE (double_quotes s'))
      else String c (double_quotes s')
  end.

Definition quoted (s : string) : string :=
  String QUOTE (double_quotes s ++ String QUOTE EmptyString).

Definition write_field (s : string) : string :=
  if needs_quotes s then quoted s else s.

Fixpoint join_fields (fs : list string) : string :=
  match fs with
  | [] => EmptyString
  | [f] => write_field f
  | f :: rest => (write_field f ++ String DELIM (join_fields rest))%string
  end.

(** [writer.writerow(values)]: a record made of one empty field is quoted. *)
Definition writerow (values : list pyval) : string :=
  let fs := map field_text values in
  let rec := join_fields fs in
  let rec' := match fs, rec with
              | _ :: _, EmptyString => quoted EmptyString
              | _, _ => rec
              end in
  (rec' ++ String CR (String LF EmptyString))%string.

Fixpoint writerows (rows : list (list pyval)) : string :=
  match rows with
  | [] => EmptyString
  | r :: rest => (writerow r ++ writerows rest)%string
  end.

(** *** Reader *)

Inductive state :=
| START_RECORD | START_FIELD | IN_FIELD
| IN_QUOTED_FIELD | QUOTE_IN_QUOTED_FIELD | EAT_CRNL.

Definition state_eqb (a b : state) : bool :=
  match a, b with
  | START_RECORD, START_RECORD | START_FIELD, START_FIELD
  | IN_FIELD, IN_FIELD | IN_QUOTED_FIELD, IN_QUOTED_FIELD
  | QUOTE_IN_QUOTED_FIELD, QUOTE_IN_QUOTED_FIELD | EAT_CRNL, EAT_CRNL => true
  | _, _ => false
  end.

(** The reader object: parse state, fields of the record so far, the field
    being collected. *)
Record reader := {
  st : state;
  fields : list string;
  field : string
}.

Definition parse_reset : reader :=
  {| st := START_RECORD; fields := []; field := "" |}.

Definition parse_save_field (r : reader) (s : state) : reader :=
  {| st := s; fields := fields r ++ [field r]; field := "" |}.

Definition parse_add_char (r : reader) (c : ascii) (s : state) : res reader :=
  if field_limit <=? Z.of_nat (String.length (field r)) then Raise CsvError
  else Ok {| st := s; fields := fields r;
             field := (field r ++ String c EmptyString)%string |}.

Definition set_state (r : reader) (s : state) : reader :=
  {| st := s; fields := fields r; field := field r |}.

Definition is_newline (c : ascii) : bool := Ascii.eqb c LF || Ascii.eqb c CR.

(** [START_FIELD], also entered from [START_RECORD] on a normal character. *)
Definition start_field (r : reader) (c : option ascii) : res reader :=
  match c with
  | None => Ok (parse_save_field r START_RECORD)
  | Some ch =>
      if is_newline ch then Ok (parse_save_field r EAT_CRNL)
      else if Ascii.eqb ch QUOTE then Ok (set_state r IN_QUOTED_FIELD)
      else if Ascii.eqb ch DELIM then Ok (parse_save_field r START_FIELD)
      else parse_add_char r ch IN_FIELD
  end.

(** [parse_process_char]; [None] is the end-of-line marker fed after the
    last character of every line. *)
Definition parse_process_char (r : reader) (c : option ascii) : res reader :=
  match st r with
  | START_RECORD =>
      match c with
      | None => Ok r
      | Some ch =>
          if is_newline ch then Ok (set_state r EAT_CRNL)
          else start_field r c
      end
  | START_FIELD => start_field r c
  | IN_FIELD =>
      match c with
      | None => Ok (parse_save_field r START_RECORD)
      | Some ch =>
          if is_newline ch then Ok (parse_save_field r EAT_CRNL)
          else if Ascii.eqb ch DELIM then Ok (parse_save_field r START_FIELD)
          else parse_add_char r ch IN_FIELD
      end
  | IN_QUOTED_FIELD =>
      match c with
      | None => Ok r
      | Some ch =>
          if Ascii.eqb ch QUOTE then Ok (set_state r QUOTE_IN_QUOTED_FIELD)
          else parse_add_char r ch IN_QUOTED_FIELD
      end
  | QUOTE_IN_QUOTED_FIELD =>
      match c with
      | None => Ok (parse_save_field r START_RECORD)
      | Some ch =>
          if Ascii.eqb ch QUOTE then parse_add_char r ch IN_QUOTED_FIELD
          else if Ascii.eqb ch DELIM then Ok (parse_save_field r START_FIELD)
          else if is_newline ch then Ok (parse_save_field r EAT_CRNL)
          else parse_add_char r ch IN_FIELD
      end
  | EAT_CRNL =>
      match c with
      | None => Ok (set_state r START_RECORD)
      | Some ch => if is_newline ch then Ok r else Raise CsvError
      end
  end.

(** One line of input, character by character, then the end-of-line marker. *)
Fixpoint feed_line (r : reader) (line : string) : res reader :=
  match line with
  | EmptyString => parse_process_char r None
  | String c rest =>
      do r' <- parse_process_char r (Some c);
      feed_line r' rest
  end.

(** The records the reader yields from the lines it is given, and the
    error that ends the iteration early, if any. One record may span
    several lines; input ending inside a record closes it. *)
Fixpoint read_records (r : reader) (lines : list string)
    : list (list string) * option exn :=
  match lines with
  | [] =>
      if negb (String.eqb (field r) "") || state_eqb (st r) IN_QUOTED_FIELD
      then ([fields (parse_save_field r START_RECORD)], None)
      else ([], None)
  | l :: rest =>
      match feed_line r l with
      | Raise e => ([], Some e)
      | Ok r' =>
          if state_eqb (st r') START_RECORD then
            let '(rs, err) := read_records parse_reset rest in
            (fields r' :: rs, err)
          else read_records r' rest
      end
  end.

(** *** [DictReader] *)

(** A row: column name to cell; a missing cell is [None]. *)
Definition row := gmap string (option string).

(** [dict(zip(fieldnames, cells))], then [None] for the columns the record
    is too short to fill. *)
Fixpoint zip_row (names cells : list string) (d : row) : row :=
  match names, cells with
  | [], _ => d
  | n :: ns, [] => zip_row ns [] (<[n := None]> d)
  | n :: ns, c :: cs => zip_row ns cs (<[n := Some c]> d)
  end.

Definition is_blank (cells : list string) : bool :=
  match cells with [] => true | _ => false end.

(** The first record names the columns; blank records are passed over. *)
Definition dict_rows (records : list (list string)) : list row :=
  match records with
  | [] => []
  | names :: rest =>
      map (fun cells => zip_row names cells ∅)
          (filter (fun cells => negb (is_blank cells)) rest)
  end.

End Csv.

(** ** Text files *)

(** Reading in text mode with [newline=None]: CR LF and a lone CR both
    arrive as LF. *)
Fixpoint universal_newlines (s : string) : string :=
  match s with
  | EmptyString => EmptyString
  | String c rest =>
      if Ascii.eqb c Csv.CR then
        match rest with
        | String c' rest' =>
            if Ascii.eqb c' Csv.LF then String Csv.LF (universal_newlines rest')
            else String Csv.LF (universal_newlines rest)
        | EmptyString => String Csv.LF EmptyString
        end
      else String c (universal_newlines rest)
  end.

(** Iterating over a text file: lines, each with its final LF. *)
Fixpoint lines_from (cur : string) (s : string) : list string :=
  match s with
  | EmptyString => if String.eqb cur "" then [] else [cur]
  | String c rest =>
      let cur' := (cur ++ String c EmptyString)%string in
      if Ascii.eqb c Csv.LF then cur' :: lines_from "" rest
      else lines_from cur' rest
  end.

Definition readlines (text : string) : list string :=
  lines_from "" (universal_newlines text).

(** ** The outside world

    The clock, the live file [data/expenses.csv] ([None] while it does not
    exist), the backup folder by file name, and whether the next open for
    reading, open for writing and file copy go through. A refused open for
    writing leaves the file as it was. *)

Record world := {
  now : datetime;
  live : option string;
  backups : gmap string string;
  can_read : bool;
  can_write : bool;
  can_copy : bool
}.

Definition set_live (w : world) (text : string) : world :=
  {| now := now w; live := Some text; backups := backups w;
     can_read := can_read w; can_write := can_write w;
     can_copy := can_copy w |}.

Definition set_backup (w : world) (name text : string) : world :=
  {| now := now w; live := live w; backups := <[name := text]> (backups w);
     can_read := can_read w; can_write := can_write w;
     can_copy := can_copy w |}.

(** Code that acts on the world and may raise. *)
Definition io (A : Type) : Type := world -> world * res A.

Definition ret {A} (v : A) : io A := fun w => (w, Ok v).

Definition throw {A} (e : exn) : io A := fun w => (w, Raise e).

Definition io_bind {A B} (m : io A) (k : A -> io B) : io B := fun w =>
  match m w with
  | (w', Ok v) => k v w'
  | (w', Raise e) => (w', Raise e)
  end.

Notation "'let*' x := m 'in' k" := (io_bind m (fun x => k))
  (at level 10, x name, m at level 100, k at level 200).

(** [try: body except Exception as e: handler] *)
Definition try_io {A} (body : io A) (handler : exn -> io A) : io A := fun w =>
  match body w with
  | (w', Ok v) => (w', Ok v)
  | (w', Raise e) => handler e w'
  end.

(** [os.path.exists(self.expenses_file)] *)
Definition exists_live : io bool := fun w =>
  (w, Ok (match live w with Some _ => true | None => false end)).

(** [shutil.copy2(self.expenses_file, backup_file)] *)
Definition copy2_live (name : string) : io unit := fun w =>
  match live w with
  | Some text =>
      if can_copy w then (set_backup w name text, Ok tt) else (w, Raise OSError)
  | None => (w, Raise OSError)
  end.

(** [with open(self.expenses_file, "w", newline="") as file: file.write(text)] *)
Definition write_live (text : string) : io unit := fun w =>
  if can_write w then (set_live w text, Ok tt) else (w, Raise OSError).

(** [open(self.expenses_file, "r")], the whole text *)
Definition read_live : io string := fun w =>
  match live w with
  | Some text => if can_read w then (w, Ok text) else (w, Raise OSError)
  | None => (w, Raise OSError)
  end.

Definition clock : io datetime := fun w => (w, Ok (now w)).

(** ** file_manager.py *)

Definition data_folder : string := "data".
Definition expenses_file : string := "data/expenses.csv".
Definition backup_folder : string := "data/backups".

Definition backup_name (t : datetime) : string :=
  ("expenses_backup_" ++ strftime_backup t ++ ".csv")%string.

(** [create_backup]: the backup path, or [None] *)
Definition create_backup : io (option string) :=
  try_io
    (let* ex := exists_live in
     if ex : bool then
       let* t := clock in
       let name := backup_name t in
       let* _ := copy2_live name in
       ret (Some (backup_folder ++ "/" ++ name)%string)
     else ret None)
    (fun _ => ret None).

Definition fieldnames : list string :=
  ["Date"; "Category"; "Amount"; "Description"].

(** The row dictionary [save_expenses] builds for one expense. *)
Definition row_of (e : Expense) : gmap string pyval :=
  let expense_dict := to_dict e in
  <["Description" := VStr (d_description expense_dict)]>
  (<["Amount" := VFloat (d_amount expense_dict)]>
  (<["Category" := VStr (d_category expense_dict)]>
  (<["Date" := VStr (d_date expense_dict)]> ∅))).

(** [DictWriter._dict_to_list]: the values in column order, [""] for a
    missing key. *)
Definition _dict_to_list (r : gmap string pyval) : list pyval :=
  map (fun k => match r !! k with Some v => v | None => VStr "" end) fieldnames.

Definition writeheader : string := Csv.writerow (map VStr fieldnames).

Definition file_text (expenses : list Expense) : string :=
  (writeheader ++ Csv.writerows (map (fun e => _dict_to_list (row_of e)) expenses))%string.

Definition save_expenses (expenses : list Expense) : io bool :=
  try_io
    (let* _ := create_backup in
     let* _ := write_live (file_text expenses) in
     ret true)
    (fun _ => ret false).

Definition cell (v : option string) : pyval :=
  match v with
  | Some s => VStr s
  | None => VNone
  end.

(** [row[key]] *)
Definition getitem (r : Csv.row) (key : string) : res pyval :=
  match r !! key with
  | Some v => Ok (cell v)
  | None => Raise KeyError
  end.

(** The body of the inner [try] for one row. *)
Definition expense_of_row (t : datetime) (r : Csv.row) : res Expense :=
  do a <- getitem r "Amount";
  do c <- getitem r "Category";
  do d <- getitem r "Date";
  do s <- getitem r "Description";
  Expense_init t a c d s.

(** The [for row in reader] loop: the list collected so far, and the
    exception that left the loop, if any. [ValueError] skips the row. *)
Fixpoint load_rows (t : datetime) (rows : list Csv.row)
    (expenses : list Expense) : list Expense * option exn :=
  match rows with
  | [] => (expenses, None)
  | r :: rest =>
      match expense_of_row t r with
      | Ok expense => load_rows t rest (expenses ++ [expense])
      | Raise ValueError => load_rows t rest expenses
      | Raise e => (expenses, Some e)
      end
  end.

(** The outer [try] of [load_expenses] on the text of the file. *)
Definition load_text (t : datetime) (text : string)
    : list Expense * option exn :=
  let '(records, err) := Csv.read_records Csv.parse_reset (readlines text) in
  match load_rows t (Csv.dict_rows records) [] with
  | (expenses, Some e) => (expenses, Some e)
  | (expenses, None) => (expenses, err)
  end.

(** [load_expenses]: whatever ends the outer [try], the list collected so
    far is returned. *)
Definition load_expenses : io (list Expense) := fun w =>
  match live w with
  | None => (w, Ok [])
  | Some _ =>
      match read_live w with
      | (w', Raise _) => (w', Ok [])
      | (w', Ok text) => (w', Ok (fst (load_text (now w') text)))
      end
  end.

(** ** utils.py *)

Definition get_current_month : io string :=
  let* t := clock in ret (strftime_Ym t).

(** ** expense_manager.py *)

(** Python's [min] and [max] over a non-empty sequence: the first element
    stays unless a later one compares strictly below (above) it. *)
Section MinMax.
Context {A : Type}.
Variable lt : A -> A -> bool.

Fixpoint min_from (best : A) (l : list A) : A :=
  match l with
  | [] => best
  | x :: rest => min_from (if lt x best then x else best) rest
  end.

Fixpoint max_from (best : A) (l : list A) : A :=
  match l with
  | [] => best
  | x :: rest => max_from (if lt best x then x else best) rest
  end.

Definition py_min (l : list A) : res A :=
  match l with
  | [] => Raise ValueError
  | x :: rest => Ok (min_from x rest)
  end.

Definition py_max (l : list A) : res A :=
  match l with
  | [] => Raise ValueError
  | x :: rest => Ok (max_from x rest)
  end.
End MinMax.

(** [x / n] for a [float] and an [int] *)
Definition truediv (x : float) (n : Z) : res float :=
  do d <- PyFloat.of_int n;
  if PyFloat.is_zero d then Raise ZeroDivisionError
  else Ok (PyFloat.div x d).

(** [sum] over floats taken strictly from left to right, starting from the
    integer [0] (CPython up to 3.11). *)
Definition sum_left (l : list float) : float :=
  fold_left PyFloat.add l PyFloat.zero.

Record month_stat := { total : float; count : Z }.

Record statistics := {
  s_total : float;
  s_count : Z;
  s_average : float;
  s_min : float;
  s_max : float;
  s_start_date : string;
  s_end_date : string;
  s_monthly_stats : gmap string month_stat;
  s_category_totals : gmap string float
}.

(** What [get_statistics] returns: the empty dictionary, or the nine keys. *)
Inductive stats_result :=
| EmptyDict
| Stats (s : statistics).

(** The state of an [ExpenseManager]; its file manager is the world. *)
Record ExpenseManager {ReportGenerator : Type} := {
  expenses : list Expense;
  report_generator : option ReportGenerator
}.
Arguments ExpenseManager ReportGenerator : clear implicits.

Section Manager.

(** The report generator of [reports.py], which is not among the
    sources: its type and its constructor, which is handed the list of
    expenses and may raise. *)
Variable ReportGenerator : Type.
Variable new_ReportGenerator : list Expense -> res ReportGenerator.

(** The built-in [sum] on a list of floats; its rounding depends on the
    interpreter ([sum_left] up to 3.11, compensated from 3.12 on). *)
Variable builtin_sum : list float -> float.

Abbreviation manager := (ExpenseManager ReportGenerator).

(** A method: acts on the manager and on the world. *)
Definition method (A : Type) : Type :=
  manager -> world -> manager * world * res A.

Definition set_expenses (self : manager) (l : list Expense) : manager :=
  {| expenses := l; report_generator := report_generator self |}.

Definition set_report_generator (self : manager) (g : ReportGenerator)
    : manager :=
  {| expenses := expenses self; report_generator := Some g |}.

(** [ExpenseManager.save_expenses]; the plain name belongs to the file
    manager's method it calls. *)
Definition mgr_save_expenses : method bool := fun self w =>
  let '(w', r) := save_expenses (expenses self) w in (self, w', r).

(** [ExpenseManager.load_expenses] *)
Definition mgr_load_expenses : method unit := fun self w =>
  match load_expenses w with
  | (w', Raise e) => (self, w', Raise e)
  | (w', Ok l) =>
      let self1 := set_expenses self l in
      match new_ReportGenerator l with
      | Raise e => (self1, w', Raise e)
      | Ok g => (set_report_generator self1 g, w', Ok tt)
      end
  end.

(** [add_expense]; every exception in its body turns into [False]. *)
Definition add_expense (expense : Expense) : method pyval := fun self w =>
  let self1 := set_expenses self (expenses self ++ [expense])%list in
  match new_ReportGenerator (expenses self1) with
  | Raise _ => (self1, w, Ok (VBool false))
  | Ok g =>
      match mgr_save_expenses (set_report_generator self1 g) w with
      | (self2, w', Ok success) => (self2, w', Ok (VBool success))
      | (self2, w', Raise _) => (self2, w', Ok (VBool false))
      end
  end.

(** [clear_all_expenses]; the result of saving is dropped. *)
Definition clear_all_expenses : method pyval := fun self w =>
  let self1 := set_expenses self [] in
  match new_ReportGenerator (expenses self1) with
  | Raise e => (self1, w, Raise e)
  | Ok g =>
      match mgr_save_expenses (set_report_generator self1 g) w with
      | (self2, w', Ok _) => (self2, w', Ok VNone)
      | (self2, w', Raise e) => (self2, w', Raise e)
      end
  end.

(** [get_monthly_expenses(month)]; [None] and the empty string both
    count as omitted. *)
Definition get_monthly_expenses (month : option string)
    (self : manager) (w : world) : list Expense :=
  let month' :=
    match month with
    | Some (String c s) => String c s
    | _ => strftime_Ym (now w)
    end in
  List.filter (fun exp => startswith (date exp) month') (expenses self).

Definition get_total_expenses (self : manager) : float :=
  builtin_sum (map amount (expenses self)).

(** One turn of the monthly loop of [get_statistics]. *)
Definition count_month (monthly_stats : gmap string month_stat)
    (exp : Expense) : gmap string month_stat :=
  let month := take 7 (date exp) in
  let monthly_stats1 :=
    match monthly_stats !! month with
    | None => <[month := {| total := PyFloat.zero; count := 0 |}]> monthly_stats
    | Some _ => monthly_stats
    end in
  alter (fun st => {| total := PyFloat.add (total st) (amount exp);
                      count := count st + 1 |}) month monthly_stats1.

(** One turn of the category loop of [get_statistics]. *)
Definition count_category (category_totals : gmap string float)
    (exp : Expense) : gmap string float :=
  let old := match category_totals !! category exp with
             | Some v => v
             | None => PyFloat.zero
             end in
  <[category exp := PyFloat.add old (amount exp)]> category_totals.

Definition get_statistics (self : manager) : res stats_result :=
  match expenses self with
  | [] => Ok EmptyDict
  | _ :: _ =>
      let amounts := map amount (expenses self) in
      let dates := map date (expenses self) in
      let monthly_stats := fold_left count_month (expenses self) ∅ in
      let category_totals := fold_left count_category (expenses self) ∅ in
      let nonempty {X} (l : list X) :=
        match l with [] => false | _ => true end in
      do average <-
        (if nonempty amounts
         then truediv (builtin_sum amounts) (Z.of_nat (length amounts))
         else Ok PyFloat.zero);
      do min_amount <-
        (if nonempty amounts then py_min PyFloat.ltb amounts
         else Ok PyFloat.zero);
      do max_amount <-
        (if nonempty amounts then py_max PyFloat.ltb amounts
         else Ok PyFloat.zero);
      do start_date <-
        (if nonempty dates then py_min str_ltb dates else Ok "");
      do end_date <-
        (if nonempty dates then py_max str_ltb dates else Ok "");
      Ok (Stats {| s_total := builtin_sum amounts;
                   s_count := Z.of_nat (length amounts);
                   s_average := average;
                   s_min := min_amount;
                   s_max := max_amount;
                   s_start_date := start_date;
                   s_end_date := end_date;
                   s_monthly_stats := monthly_stats;
                   s_category_totals := category_totals |})
  end.

End Manager.

(** Modelled from the spec: [reports.ReportGenerator], whose module is not
    among the sources; the spec has it built from a snapshot of the record
    collection, and building it does not fail. *)
Record SnapshotReport := { snapshot : list Expense }.

Definition new_SnapshotReport (l : list Expense) : res SnapshotReport :=
  Ok {| snapshot := l |}.

(** * Sample data *)

Definition sample_clock : datetime :=
  {| year := 2024; month := 3; day := 9;
     hour := 7; minute := 5; second := 1; microsecond := 0 |}.

(** A fresh installation: no live file, every file operation goes through. *)
Definition fresh_world : world :=
  {| now := sample_clock; live := None; backups := ∅;
     can_read := true; can_write := true; can_copy := true |}.

(** The double written [0.004]. *)
Definition four_thousandths : float :=
  S754_finite false 4611686018427388 (-60).

(** The double written [12.5]. *)
Definition twelve_and_a_half : float :=
  S754_finite false 7036874417766400 (-49).

Definition lunch : Expense :=
  {| amount := twelve_and_a_half; category := "Food";
     date := "2024-03-01"; description := "Lunch";
     created_at := sample_clock |}.

(** The record [Expense(0.004, "Food", "2024-01-01", "tea")] leaves behind. *)
Definition tea : Expense :=
  {| amount := PyFloat.zero; category := "Food";
     date := "2024-01-01"; description := "tea";
     created_at := sample_clock |}.

(** A stored file whose first data row lacks the description column. *)
Definition short_row_file : string :=
  ("Date,Category,Amount,Description" ++ String Csv.LF
   ("2024-01-01,Food,10" ++ String Csv.LF
   ("2024-01-02,Food,20,ok" ++ String Csv.LF "")))%string.

(** The same file without the short row. *)
Definition full_row_file : string :=
  ("Date,Category,Amount,Description" ++ String Csv.LF
   ("2024-01-02,Food,20,ok" ++ String Csv.LF ""))%string.

(** A stored file whose first data row has a malformed amount. *)
Definition bad_amount_file : string :=
  ("Date,Category,Amount,Description" ++ String Csv.LF
   ("2024-01-01,Food,ten,x" ++ String Csv.LF
   ("2024-01-02,Food,20,ok" ++ String Csv.LF "")))%string.

(** The record both files hold in the row dated 2024-01-02. *)
Definition ok_row (t : datetime) : Expense :=
  {| amount := S754_finite false 5629499534213120 (-48); category := "Food";
     date := "2024-01-02"; description := "ok"; created_at := t |}.

(** A description with a carriage return inside, and what comes back. *)
Definition two_lines_cr : string := ("x" ++ String Csv.CR "y")%string.
Definition two_lines_lf : string := ("x" ++ String Csv.LF "y")%string.

Definition note (descr : string) : Expense :=
  {| amount := twelve_and_a_half; category := "Other";
     date := "2024-02-12"; description := descr;
     created_at := sample_clock |}.

(** A month string of the form YYYY-MM: four digits, a dash, two digits. *)
Definition is_month_form (s : string) : bool :=
  match s with
  | String a (String b (String c (String d (String dash
      (String m1 (String m2 EmptyString)))))) =>
      is_digit a && is_digit b && is_digit c && is_digit d
      && Ascii.eqb dash "-" && is_digit m1 && is_digit m2
  | _ => false
  end.

Definition dated (d : string) : Expense :=
  {| amount := twelve_and_a_half; category := "Food";
     date := d; description := ""; created_at := sample_clock |}.

(** A row as the reader yields it for a file with the four columns. *)
Definition row4 (d c a s : option string) : Csv.row :=
  <["Description" := s]> (<["Amount" := a]>
    (<["Category" := c]> (<["Date" := d]> ∅))).

(** * The statistics in the words of the specification *)

(** The records of month [k], in collection order. *)
Definition in_month (k : string) (es : list Expense) : list Expense :=
  List.filter (fun e => String.eqb (take 7 (date e)) k) es.

(** The records of category [c], in collection order. *)
Definition in_category (c : string) (es : list Expense) : list Expense :=
  List.filter (fun e => String.eqb (category e) c) es.

(** Per-month breakdown: total and count of the records of the month; no
    entry for a month without records. *)
Definition month_breakdown (es : list Expense) (k : string)
    : option month_stat :=
  match in_month k es with
  | [] => None
  | l => Some {| total := sum_left (map amount l);
                 count := Z.of_nat (length l) |}
  end.

(** Per-category breakdown: total of the records of the category. *)
Definition category_breakdown (es : list Expense) (c : string)
    : option float :=
  match in_category c es with
  | [] => None
  | l => Some (sum_left (map amount l))
  end.

(** The entry of a month after one more record of that month. *)
Definition bump (o : option month_stat) (e : Expense) : month_stat :=
  {| total := PyFloat.add (match o with
                           | Some st => total st
                           | None => PyFloat.zero
                           end) (amount e);
     count := (match o with Some st => count st | None => 0 end) + 1 |}.

(** The total of a category after one more record of that category. *)
Definition raise_total (o : option float) (e : Expense) : float :=
  PyFloat.add (match o with Some v => v | None => PyFloat.zero end)
    (amount e).

(** A string that does not begin with white space. *)
Definition starts_clean (s : string) : Prop :=
  match s with
  | String c _ => is_space c = false
  | EmptyString => True
  end.

(** [sys.maxsize], which bounds the length of a list. *)
Definition maxsize : Z := 2 ^ 63 - 1.

(** * Reading back what the writer wrote *)

Module CsvRun.
Import Csv.

(** The reader fed the characters of a string, without the end-of-line
    marker. *)
Fixpoint feed_chars (r : reader) (s : string) : res reader :=
  match s with
  | EmptyString => Ok r
  | String c rest =>
      do r' <- parse_process_char r (Some c);
      feed_chars r' rest
  end.

(** The reader run over a whole text, character by character: the
    end-of-line marker follows every line feed, and a record is yielded
    whenever the reader is back at the start of a record. [fresh] tells
    that the current line has no character yet. *)
Fixpoint run (r : reader) (fresh : bool) (text : string)
    : list (list string) * option exn :=
  match text with
  | EmptyString => read_records r (if fresh then [] else [EmptyString])
  | String c rest =>
      match parse_process_char r (Some c) with
      | Raise e => ([], Some e)
      | Ok r1 =>
          if Ascii.eqb c LF then
            match parse_process_char r1 None with
            | Raise e => ([], Some e)
            | Ok r2 =>
                if state_eqb (st r2) START_RECORD then
                  let '(rs, err) := run parse_reset true rest in
                  (fields r2 :: rs, err)
                else run r2 true rest
            end
          else run r1 false rest
      end
  end.

(** A carriage return somewhere in the string. *)
Fixpoint has_cr (s : string) : bool :=
  match s with
  | EmptyString => false
  | String c s' => Ascii.eqb c CR || has_cr s'
  end.

(** No longer than the reader's field size limit. *)
Definition fits (s : string) : Prop :=
  Z.of_nat (String.length s) <= field_limit.

(** The two states in which the reader expects a field to begin. *)
Definition at_start (x : state) : Prop := x = START_RECORD \/ x = START_FIELD.

(** The text of one record as the writer prints it, without terminator. *)
Definition record_text (row : list string) : string :=
  let rec := join_fields row in
  match row, rec with
  | _ :: _, EmptyString => quoted EmptyString
  | _, _ => rec
  end.

(** A row the reader can take back: no field longer than the field limit,
    none with a carriage return. *)
Definition readable_row (row : list string) : Prop :=
  Forall (fun f => fits f /\ has_cr f = false) row.

End CsvRun.

(** The record with its creation time set to [t]. *)
Definition restamp (t : datetime) (e : Expense) : Expense :=
  {| amount := amount e; category := category e; date := date e;
     description := description e; created_at := t |}.

(** The four cells [save_expenses] writes for an expense. *)
Definition cells (e : Expense) : list string :=
  [date e; category e; PyFloat.repr (amount e); description e].

(** Building a record again from the written cells gives the record. *)
Definition reloads (t : datetime) (e : Expense) : Prop :=
  Expense_init t (VStr (PyFloat.repr (amount e))) (VStr (category e))
    (VStr (date e)) (VStr (description e)) = Ok (restamp t e).

(** An expense whose row the reader can take back and rebuild. *)
Definition storable (t : datetime) (e : Expense) : Prop :=
  CsvRun.readable_row (cells e) /\ reloads t e.


(** A character a date can hold: a digit, the dash, the space. *)
Definition date_char (c : ascii) : bool :=
  is_digit c || Ascii.eqb c "-" || Ascii.eqb c " ".

Fixpoint date_chars (s : string) : bool :=
  match s with
  | EmptyString => true
  | String c s' => date_char c && date_chars s'
  end.

(** What a piece of the date pattern does when it matches: it takes off at
    most [n] date characters and reads a value from [lo] to [hi]. *)
Definition reads (a : Strptime.piece) (n : nat) (lo hi : Z) : Prop :=
  forall s v r, a s = Some (v, r) ->
    exists p, s = (p ++ r)%string /\ (String.length p <= n)%nat
              /\ date_chars p = true /\ lo <= v <= hi.

(** A real calendar date at midnight. *)
Definition calendar_date (t : datetime) : Prop :=
  1 <= year t <= 9999 /\ 1 <= month t <= 12
  /\ 1 <= day t <= days_in_month (year t) (month t)
  /\ hour t = 0 /\ minute t = 0 /\ second t = 0 /\ microsecond t = 0.

(** What construction guarantees of a record. *)
Definition valid_record (e : Expense) : Prop :=
  PyFloat.ltb (amount e) PyFloat.zero = false
  /\ In (category e) CATEGORIES
  /\ (exists t, Strptime.strptime (date e) = Ok t /\ calendar_date t)
  /\ strip (description e) = description e.

(** The amount as written reads back as the same amount. *)
Definition amount_survives (e : Expense) : Prop :=
  CsvRun.fits (PyFloat.repr (amount e))
  /\ CsvRun.has_cr (PyFloat.repr (amount e)) = false
  /\ _validate_amount (VStr (PyFloat.repr (amount e))) = Ok (amount e).

(** The description can be written and read: no carriage return, within
    the field limit. *)
Definition description_survives (e : Expense) : Prop :=
  CsvRun.fits (description e) /\ CsvRun.has_cr (description e) = false.



(** [a > b] on the dates of two [datetime] values. *)
Definition date_gt (a b : datetime) : bool :=
  (year b <? year a)
  || ((year a =? year b)
      && ((month b <? month a)
          || ((month a =? month b) && (day b <? day a)))).

(** [utils.validate_date(date_str)]: validity and message. *)
Definition validate_date (date_str : string) : io (bool * string) := fun w =>
  if String.eqb date_str "" then (w, Ok (false, "Date cannot be empty"))
  else
    (w, try_except
          (do _ <- Strptime.strptime date_str;
           do input_date <- Strptime.strptime date_str;
           let today := now w in
           if date_gt input_date today then
             Ok (false, "Date cannot be in the future")
           else Ok (true, ""))
          [ValueError]
          (fun _ => Ok (false, "Date must be in YYYY-MM-DD format"))).

(** [s] without the prefix [p], when it begins with it. *)
Fixpoint strip_prefix (p s : string) : option string :=
  match p, s with
  | EmptyString, _ => Some s
  | String a p', String b s' =>
      if Ascii.eqb a b then strip_prefix p' s' else None
  | String _ _, EmptyString => None
  end.

(** The text of the file a path names: the live file, a file of the backup
    folder, and nothing else; paths are spelt as the file manager builds
    them. *)
Definition file_at (w : world) (path : string) : option string :=
  if String.eqb path expenses_file then live w
  else match strip_prefix (backup_folder ++ "/") path with
       | Some name => backups w !! name
       | None => None
       end.

(** [os.path.exists(path)] *)
Definition path_exists (path : string) : io bool := fun w =>
  (w, Ok (match file_at w path with Some _ => true | None => false end)).

(** [shutil.copy2(path, self.expenses_file)]; copying the live file onto
    itself is an error. *)
Definition copy2_to_live (path : string) : io unit := fun w =>
  match file_at w path with
  | Some text =>
      if String.eqb path expenses_file then (w, Raise OSError)
      else if can_copy w && can_write w then (set_live w text, Ok tt)
      else (w, Raise OSError)
  | None => (w, Raise OSError)
  end.

(** [restore_backup(backup_file)]: the [try] returns [True] after the copy;
    everything else ends in the final [return False]. *)
Definition restore_backup (backup_file : string) : io bool :=
  let* done :=
    try_io
      (let* ex := path_exists backup_file in
       if ex : bool then
         let* _ := copy2_to_live backup_file in
         ret true
       else ret false)
      (fun _ => ret false) in
  if done : bool then ret true else ret false.

(** The path [create_backup] gives the backup made at time [t]. *)
Definition backup_path (t : datetime) : string :=
  (backup_folder ++ "/" ++ backup_name t)%string.

(** [s.endswith(suffix)] *)
Fixpoint endswith (s suffix : string) : bool :=
  String.eqb s suffix
  || match s with
     | String _ s' => endswith s' suffix
     | EmptyString => false
     end.

(** [os.path.join(a, b)] with the separator [/]. *)
Definition path_join (a b : string) : string :=
  if startswith b "/" then b
  else if String.eqb a "" || endswith a "/" then (a ++ b)%string
  else (a ++ "/" ++ b)%string.

(** One entry of [list_backups]. *)
Record backup_entry := {
  filename : string;
  filepath : string;
  filesize : Z
}.

(** [list.sort(key=filename, reverse=True)]: descending, entries with
    equal names in their first order. *)
Fixpoint insert_desc (x : backup_entry) (l : list backup_entry)
    : list backup_entry :=
  match l with
  | [] => [x]
  | y :: l' =>
      if str_ltb (filename x) (filename y) then y :: insert_desc x l'
      else x :: l
  end.

Definition sort_desc (l : list backup_entry) : list backup_entry :=
  fold_right insert_desc [] l.

Section ListBackups.

(** What the operating system answers: the names in the backup folder,
    and the size of the file at a path. Both calls may raise. *)
Variable listdir : res (list string).
Variable getsize : string -> res Z.

(** The [for] loop of [list_backups]. *)
Fixpoint collect_backups (names : list string) (backups : list backup_entry)
    : res (list backup_entry) :=
  match names with
  | [] => Ok backups
  | file :: rest =>
      if endswith file ".csv" then
        let filepath := path_join backup_folder file in
        do n <- getsize filepath;
        collect_backups rest
          (backups ++ [{| filename := file; filepath := filepath;
                          filesize := n |}])%list
      else collect_backups rest backups
  end.

(** [list_backups]: any exception gives the empty list. *)
Definition list_backups : list backup_entry :=
  match (do names <- listdir;
         do backups <- collect_backups names [];
         Ok (sort_desc backups)) with
  | Ok l => l
  | Raise _ => []
  end.

End ListBackups.

(** The [.csv] names of a listing, in listing order. *)
Definition csv_names (names : list string) : list string :=
  List.filter (fun file => endswith file ".csv") names.

(** No entry is followed, anywhere later, by one with a greater name. *)
Definition newest_first (l : list backup_entry) : Prop :=
  StronglySorted (fun a b => str_ltb (filename a) (filename b) = false) l.

(** The counts of a monthly dictionary, added up. *)
Definition sum_counts (m : gmap string month_stat) : Z :=
  map_fold (fun _ st acc => count st + acc) 0 m.

(** The world at another clock reading. *)
Definition set_now (w : world) (t : datetime) : world :=
  {| now := t; live := live w; backups := backups w;
     can_read := can_read w; can_write := can_write w;
     can_copy := can_copy w |}.

(** A row in which the four columns all have a cell. *)
Definition full_row (r : Csv.row) : Prop :=
  forall key, In key fieldnames -> exists s, r !! key = Some (Some s).

(** The column names [DictReader] takes from a text: its first record. *)
Definition header (text : string) : list string :=
  hd [] (fst (Csv.read_records Csv.parse_reset (readlines text))).

(** The character of a decimal digit. *)
Definition digit_char (v : Z) : ascii := ascii_of_N (Z.to_N (48 + v)).

(** Two and four decimal digits, most significant first. *)
Definition two_digits (n : Z) : string :=
  String (digit_char (n / 10)) (String (digit_char (n mod 10)) "").

Definition four_digits (n : Z) : string :=
  String (digit_char (n / 1000))
    (String (digit_char (n / 100 mod 10)) (two_digits (n mod 100))).

(** [strftime("%Y-%m-%d")] *)
Definition strftime_Ymd (t : datetime) : string :=
  (pad 4 (year t) ++ "-" ++ pad 2 (month t) ++ "-" ++ pad 2 (day t))%string.

(** The date of a clock reading, at midnight. *)
Definition midnight (t : datetime) : datetime :=
  {| year := year t; month := month t; day := day t;
     hour := 0; minute := 0; second := 0; microsecond := 0 |}.

(** A clock reading with a four-digit year and every field in range. *)
Definition clock_reading (t : datetime) : Prop :=
  1000 <= year t <= 9999 /\ 1 <= month t <= 12
  /\ 1 <= day t <= days_in_month (year t) (month t)
  /\ 0 <= hour t <= 23 /\ 0 <= minute t <= 59 /\ 0 <= second t <= 59.

(** One clock reading before another, to the second. *)
Definition earlier (a b : datetime) : bool :=
  (year a <? year b)
  || ((year a =? year b)
      && ((month a <? month b)
          || ((month a =? month b)
              && ((day a <? day b)
                  || ((day a =? day b)
                      && ((hour a <? hour b)
                          || ((hour a =? hour b)
                              && ((minute a <? minute b)
                                  || ((minute a =? minute b)
                                      && (second a <? second b)))))))))).

(** * Folders

    What [_ensure_folders_exist] sees of the file system: the entries
    below the working directory by relative path, each a regular file or a
    directory; whether the system lets entries be made and renamed; and
    whether renaming onto an existing file replaces it, as POSIX does, or
    fails, as Windows does. Every failure of the system is an [OSError]. *)

Inductive node :=
| File (text : string)
| Dir.

Record filesystem := {
  tree : gmap string node;
  writable : bool;
  replaces : bool
}.

Definition set_tree (s : filesystem) (t : gmap string node) : filesystem :=
  {| tree := t; writable := writable s; replaces := replaces s |}.

(** Code that acts on the file system and may raise. *)
Definition fio (A : Type) : Type := filesystem -> filesystem * res A.

Definition fbind {A B} (m : fio A) (k : A -> fio B) : fio B := fun s =>
  match m s with
  | (s', Ok v) => k v s'
  | (s', Raise e) => (s', Raise e)
  end.

Notation "'let+' x := m 'in' k" := (fbind m (fun x => k))
  (at level 10, x name, m at level 100, k at level 200).

(** [try: body except Exception as e: handler] *)
Definition ftry {A} (body : fio A) (handler : exn -> fio A) : fio A := fun s =>
  match body s with
  | (s', Ok v) => (s', Ok v)
  | (s', Raise e) => handler e s'
  end.

(** [if cond: body] *)
Definition fwhen (cond : filesystem -> bool) (body : fio unit) : fio unit :=
  fun s => if cond s then body s else (s, Ok tt).

(** [os.path.exists(p)] and [os.path.isdir(p)] *)
Definition os_path_exists (p : string) (s : filesystem) : bool :=
  match tree s !! p with Some _ => true | None => false end.

Definition os_path_isdir (p : string) (s : filesystem) : bool :=
  match tree s !! p with Some Dir => true | _ => false end.

Fixpoint has_slash (p : string) : bool :=
  match p with
  | EmptyString => false
  | String c r => Ascii.eqb c "/" || has_slash r
  end.

(** [os.path.dirname(p)] for a relative path without doubled or trailing
    separators: what stands before the last separator. *)
Fixpoint dirname (p : string) : string :=
  match p with
  | EmptyString => EmptyString
  | String c r => if has_slash r then String c (dirname r) else EmptyString
  end.

(** The directory an entry at [p] would stand in is there; the working
    directory always is. *)
Definition parent_is_dir (p : string) (s : filesystem) : bool :=
  let d := dirname p in
  String.eqb d "" || os_path_isdir d s.

(** [os.mkdir(p)] *)
Definition os_mkdir (p : string) : fio unit := fun s =>
  match tree s !! p with
  | Some _ => (s, Raise OSError)
  | None =>
      if parent_is_dir p s && writable s
      then (set_tree s (<[p := Dir]> (tree s)), Ok tt)
      else (s, Raise OSError)
  end.

(** The rest of [k] below the directory [d]. *)
Definition below (d k : string) : option string :=
  strip_prefix (d ++ "/") k.

Definition has_entries (d : string) (s : filesystem) : bool :=
  map_fold (fun k _ acc =>
              acc || match below d k with Some _ => true | None => false end)
    false (tree s).

(** Where the entry at [k] stands once [src] is called [dst]. *)
Definition renamed (src dst k : string) : string :=
  if String.eqb k src then dst
  else match below src k with
       | Some rest => (dst ++ "/" ++ rest)%string
       | None => k
       end.

(** [os.rename(src, dst)]: a file takes the place of nothing or, where
    renaming replaces, of a file; a directory moves with all it holds to
    a free place or, where renaming replaces, onto an empty directory. *)
Definition os_rename (src dst : string) : fio unit := fun s =>
  match tree s !! src with
  | None => (s, Raise OSError)
  | Some n =>
      if negb (writable s) || negb (parent_is_dir dst s)
      then (s, Raise OSError)
      else
        let file_moved :=
          (set_tree s (<[dst := n]> (delete src (tree s))), Ok tt) in
        let dir_moved :=
          match below src dst with
          | Some _ => (s, Raise OSError)
          | None =>
              (set_tree s
                 (map_fold (fun k v acc => <[renamed src dst k := v]> acc)
                    ∅ (delete dst (tree s))), Ok tt)
          end in
        match n, tree s !! dst with
        | File _, None => file_moved
        | File _, Some (File _) =>
            if replaces s then file_moved else (s, Raise OSError)
        | File _, Some Dir => (s, Raise OSError)
        | Dir, None => dir_moved
        | Dir, Some Dir =>
            if replaces s && negb (has_entries dst s) then dir_moved
            else (s, Raise OSError)
        | Dir, Some (File _) => (s, Raise OSError)
        end
  end.

(** [os.makedirs(name, exist_ok=True)]: the missing directories above
    [name] first, then [name] itself; a failure to make [name] is passed
    over when [name] is a directory. [fuel] bounds the way up. *)
Fixpoint makedirs_from (fuel : nat) (name : string) : fio unit := fun s =>
  let head := dirname name in
  let above :=
    match fuel with
    | S fuel' =>
        if negb (String.eqb head "") && negb (os_path_exists head s)
        then makedirs_from fuel' head s
        else (s, Ok tt)
    | O => (s, Ok tt)
    end in
  match above with
  | (s1, Raise e) => (s1, Raise e)
  | (s1, Ok _) =>
      match os_mkdir name s1 with
      | (s2, Ok _) => (s2, Ok tt)
      | (s2, Raise e) =>
          if os_path_isdir name s2 then (s2, Ok tt) else (s2, Raise e)
      end
  end.

Definition os_makedirs (name : string) : fio unit :=
  makedirs_from (String.length name) name.

(** [f"{folder}_old.txt"] *)
Definition old_name (folder : string) : string := (folder ++ "_old.txt")%string.

(** [FileManager._ensure_folders_exist] *)
Definition _ensure_folders_exist : fio unit :=
  ftry
    (let+ _ :=
       fwhen (fun s => os_path_exists data_folder s
                       && negb (os_path_isdir data_folder s))
         (os_rename data_folder (old_name data_folder)) in
     let+ _ := os_makedirs data_folder in
     let+ _ :=
       fwhen (fun s => os_path_exists backup_folder s
                       && negb (os_path_isdir backup_folder s))
         (os_rename backup_folder (old_name backup_folder)) in
     os_makedirs backup_folder)
    (fun _ =>
       let+ _ :=
         fwhen (fun s => negb (os_path_exists data_folder s))
           (os_mkdir data_folder) in
       fwhen (fun s => negb (os_path_exists backup_folder s))
         (os_mkdir backup_folder)).

(** Every entry stands in a directory. *)
Definition sane (s : filesystem) : Prop :=
  forall p n, tree s !! p = Some n -> parent_is_dir p s = true.

(** Renaming a file to [p] goes through: nothing is there, or a file where
    renaming replaces. *)
Definition gives_way (p : string) (s : filesystem) : bool :=
  match tree s !! p with
  | None => true
  | Some (File _) => replaces s
  | Some Dir => false
  end.

(** * Properties *)

Example four_thousandths_parsed :
  PyFloat.of_string "0.004" = Ok four_thousandths.
Proof. vm_compute. reflexivity. Qed.

Example four_thousandths_positive :
  PyFloat.leb four_thousandths PyFloat.zero = false.
Proof. reflexivity. Qed.

Example four_thousandths_rounded :
  PyFloat.round2 four_thousandths = PyFloat.zero.
Proof. vm_compute. reflexivity. Qed.

Example lunch_constructed :
  Expense_init sample_clock (VStr "12.5") (VStr "Food") (VStr "2024-03-01")
    (VStr " Lunch ") = Ok lunch.
Proof. vm_compute. reflexivity. Qed.

(** ** Record construction *)

Lemma try_except_ok {A} (body : res A) cls h v :
  try_except body cls h = Ok v ->
  body = Ok v \/ exists e, body = Raise e /\ h e = Ok v.
Proof.
  unfold try_except. destruct body as [x|e]; [now left|].
  destruct (existsb _ _); [|discriminate].
  intros H. right. now exists e.
Qed.

(** A stored amount is the two-place rounding of a float that compared
    above zero. *)
Lemma validate_amount_ok a x :
  _validate_amount a = Ok x ->
  exists f, py_float a = Ok f
            /\ PyFloat.leb f PyFloat.zero = false
            /\ x = PyFloat.round2 f.
Proof.
  unfold _validate_amount. intros H.
  apply try_except_ok in H as [H | (e & _ & H)]; [|discriminate].
  destruct (py_float a) as [f|e]; simpl in H; [|discriminate].
  destruct (PyFloat.leb f PyFloat.zero) eqn:L; [discriminate|].
  exists f. repeat split; congruence.
Qed.

(** An amount that [float()] refuses with [ValueError] or [TypeError] is a
    validation error. *)
Lemma validate_amount_non_numeric a e :
  py_float a = Raise e -> e = ValueError \/ e = TypeError ->
  _validate_amount a = Raise ValueError.
Proof.
  unfold _validate_amount. intros -> [-> | ->]; reflexivity.
Qed.

(** An amount that compares at or below zero is a validation error. *)
Lemma validate_amount_non_positive a f :
  py_float a = Ok f -> PyFloat.leb f PyFloat.zero = true ->
  _validate_amount a = Raise ValueError.
Proof.
  unfold _validate_amount. intros -> L. simpl. now rewrite L.
Qed.

Lemma Expense_init_ok t a c d s e :
  Expense_init t a c d s = Ok e ->
  _validate_amount a = Ok (amount e)
  /\ _validate_category c = Ok (category e)
  /\ _validate_date d = Ok (date e)
  /\ py_strip s = Ok (description e)
  /\ created_at e = t.
Proof.
  unfold Expense_init.
  destruct (_validate_amount a); simpl; [|discriminate].
  destruct (_validate_category c); simpl; [|discriminate].
  destruct (_validate_date d); simpl; [|discriminate].
  destruct (py_strip s); simpl; [|discriminate].
  intros [= <-]. simpl. auto.
Qed.

(** *** Stripping twice *)

Lemma rstrip_idem (s : string) : rstrip (rstrip s) = rstrip s.
Proof.
  induction s as [|c s IH]; [reflexivity|].
  cbn [rstrip]. destruct (rstrip s) as [|d u] eqn:R.
  - destruct (is_space c) eqn:C; [reflexivity|].
    cbn [rstrip]. now rewrite C.
  - cbn [rstrip] in *. now rewrite IH.
Qed.

Lemma lstrip_starts_clean (s : string) : starts_clean (lstrip s).
Proof.
  induction s as [|c s IH]; [exact I|].
  cbn [lstrip]. destruct (is_space c) eqn:C; [exact IH|exact C].
Qed.

Lemma rstrip_starts_clean (s : string) :
  starts_clean s -> starts_clean (rstrip s).
Proof.
  destruct s as [|c s]; [auto|]. cbn [starts_clean rstrip]. intros C.
  destruct (rstrip s); [now rewrite C|exact C].
Qed.

Lemma lstrip_clean (s : string) : starts_clean s -> lstrip s = s.
Proof.
  destruct s as [|c s]; [reflexivity|]. cbn [starts_clean lstrip].
  now intros ->.
Qed.

(** [s.strip().strip() == s.strip()] *)
Lemma strip_idem (s : string) : strip (strip s) = strip s.
Proof.
  unfold strip.
  rewrite (lstrip_clean (rstrip (lstrip s))).
  - apply rstrip_idem.
  - apply rstrip_starts_clean, lstrip_starts_clean.
Qed.

Lemma validate_category_ok c x :
  _validate_category c = Ok x -> c = VStr x.
Proof.
  destruct c as [|s| | |]; simpl; try discriminate.
  destruct (_ || _); [|discriminate]. now intros [= ->].
Qed.

Lemma validate_date_ok d x :
  _validate_date d = Ok x -> d = VStr x.
Proof.
  unfold _validate_date. intros H.
  apply try_except_ok in H as [H | (e & _ & H)]; [|discriminate].
  destruct d as [|s| | |]; simpl in H; try discriminate.
  destruct (Strptime.strptime s); simpl in H; [|discriminate].
  now injection H as ->.
Qed.

(** The round trip through [to_dict] gives the same fields back whenever
    the stored amount is above zero and is its own two-place rounding. *)
Lemma round_trip_when_amount_stable t a c d s e :
  Expense_init t a c d s = Ok e ->
  PyFloat.leb (amount e) PyFloat.zero = false ->
  PyFloat.round2 (amount e) = amount e ->
  let dict := to_dict e in
  Expense_init t (VFloat (d_amount dict)) (VStr (d_category dict))
    (VStr (d_date dict)) (VStr (d_description dict)) = Ok e.
Proof.
  intros E P R. apply Expense_init_ok in E as (Ha & Hc & Hd & Hs & Ht).
  pose proof (validate_category_ok _ _ Hc) as ->.
  pose proof (validate_date_ok _ _ Hd) as ->.
  destruct s as [|s0| | |]; try discriminate Hs.
  cbn [py_strip] in Hs. injection Hs as Hs.
  cbn [to_dict d_amount d_category d_date d_description].
  unfold Expense_init.
  rewrite Hc, Hd. unfold _validate_amount. cbn [py_float bind].
  rewrite P, R. cbn [try_except bind py_strip].
  rewrite <- Hs, strip_idem, Hs.
  destruct e; cbn in *. now subst.
Qed.

(** The string [nan] is accepted as an amount, and stored. *)
Example nan_accepted :
  _validate_amount (VStr "nan") = Ok S754_nan.
Proof. vm_compute. reflexivity. Qed.

(** C3: construction accepts the positive amount 0.004 and stores its
    two-place rounding, which is 0.0 and so not greater than zero: the
    positivity test runs before the rounding, and the stored amount breaks
    the invariant [amount > 0]. *)
Theorem C3_stored_amount_not_positive (t : datetime) :
  exists e,
    Expense_init t (VFloat four_thousandths) (VStr "Food")
      (VStr "2024-01-01") (VStr "tea") = Ok e
    /\ PyFloat.ltb PyFloat.zero four_thousandths = true
    /\ amount e = PyFloat.round2 four_thousandths
    /\ amount e = PyFloat.zero
    /\ PyFloat.ltb PyFloat.zero (amount e) = false.
Proof.
  eexists. split; [vm_compute; reflexivity|].
  simpl. repeat split.
Qed.

(** C4: the record built from 0.004 serialises to the amount 0.0, from
    which no record can be built again: the round trip through [to_dict]
    ends in a validation error. *)
Theorem C4_round_trip_rejects_own_output (t : datetime) :
  exists e,
    Expense_init t (VFloat four_thousandths) (VStr "Food")
      (VStr "2024-01-01") (VStr "tea") = Ok e
    /\ let d := to_dict e in
       Expense_init t (VFloat (d_amount d)) (VStr (d_category d))
         (VStr (d_date d)) (VStr (d_description d)) = Raise ValueError.
Proof.
  eexists. split; [vm_compute; reflexivity|].
  reflexivity.
Qed.

(** ** Loading *)

(** [load_expenses] hands back a list whatever happens. *)
Lemma load_expenses_returns (w : world) :
  exists l, snd (load_expenses w) = Ok l.
Proof.
  unfold load_expenses, read_live.
  destruct (live w); [destruct (can_read w)|]; simpl; eauto.
Qed.

(** A live file that cannot be opened gives the empty list. *)
Lemma load_expenses_unreadable (w : world) :
  can_read w = false -> load_expenses w = (w, Ok []).
Proof.
  unfold load_expenses, read_live. intros ->. now destruct (live w).
Qed.

(** No live file gives the empty list. *)
Lemma load_expenses_absent (w : world) :
  live w = None -> load_expenses w = (w, Ok []).
Proof. unfold load_expenses. now intros ->. Qed.

Lemma load_expenses_text (w : world) (text : string) :
  can_read w = true -> live w = Some text ->
  load_expenses w = (w, Ok (fst (load_text (now w) text))).
Proof.
  unfold load_expenses, read_live. now intros -> ->.
Qed.

(** A row on which construction raises [ValueError] is passed over. *)
Lemma load_rows_skip t r rest acc :
  expense_of_row t r = Raise ValueError ->
  load_rows t (r :: rest) acc = load_rows t rest acc.
Proof. simpl. now intros ->. Qed.

(** A row with a malformed amount is skipped and the next row is loaded. *)
Example bad_amount_row_skipped (t : datetime) :
  load_text t bad_amount_file = ([ok_row t], None).
Proof. vm_compute. reflexivity. Qed.

(** C2: a stored row that lacks the description column ends the whole
    load: the valid row after it is not loaded, although the same file
    without the short row yields that record. Construction raises
    [AttributeError] there, which the handler of the row loop does not
    catch. *)
Theorem C2_short_row_ends_load (w : world) :
  can_read w = true ->
  live w = Some short_row_file ->
  load_expenses w = (w, Ok [])
  /\ load_text (now w) short_row_file = ([], Some AttributeError)
  /\ load_text (now w) full_row_file = ([ok_row (now w)], None).
Proof.
  intros R L. rewrite (load_expenses_text w _ R L).
  repeat split; vm_compute; reflexivity.
Qed.

Lemma C2_short_row_ends_load_witness :
  let w := {| now := sample_clock; live := Some short_row_file;
              backups := ∅; can_read := true; can_write := true;
              can_copy := true |} in
  load_expenses w = (w, Ok [])
  /\ load_text (now w) short_row_file = ([], Some AttributeError)
  /\ load_text (now w) full_row_file = ([ok_row (now w)], None).
Proof.
  intros w. apply (C2_short_row_ends_load w); reflexivity.
Defined.

(** ** Saving *)

Lemma create_backup_ok (w : world) :
  exists w' r, create_backup w = (w', Ok r)
               /\ live w' = live w /\ now w' = now w
               /\ can_write w' = can_write w /\ can_read w' = can_read w.
Proof.
  unfold create_backup, try_io, io_bind, exists_live, clock, copy2_live, ret.
  destruct (live w) eqn:L; simpl; [|eauto 10].
  rewrite L. destruct (can_copy w); simpl; eauto 10.
Qed.

(** Without a live file, or when the copy fails, [create_backup] reports
    [None] and leaves the world as it was. *)
Lemma create_backup_none (w : world) :
  live w = None \/ can_copy w = false ->
  create_backup w = (w, Ok None).
Proof.
  unfold create_backup, try_io, io_bind, exists_live, clock, copy2_live, ret.
  intros [L | C].
  - now rewrite L.
  - destruct (live w) eqn:L; simpl; [|reflexivity].
    now rewrite L, C.
Qed.

(** Saving when the file can be written: success, and the live file holds
    the header and one row per expense. *)
Lemma save_expenses_writable (es : list Expense) (w : world) :
  can_write w = true ->
  exists w', save_expenses es w = (w', Ok true)
             /\ live w' = Some (file_text es)
             /\ now w' = now w /\ can_read w' = can_read w.
Proof.
  intros W. unfold save_expenses, try_io, io_bind.
  destruct (create_backup_ok w) as (w1 & r & -> & L1 & N1 & W1 & R1).
  unfold write_live, ret. rewrite W1, W. simpl.
  eexists. split; [reflexivity|]. simpl. auto.
Qed.

(** Saving when the file cannot be written: failure, live file untouched. *)
Lemma save_expenses_unwritable (es : list Expense) (w : world) :
  can_write w = false ->
  exists w', save_expenses es w = (w', Ok false) /\ live w' = live w.
Proof.
  intros W. unfold save_expenses, try_io, io_bind.
  destruct (create_backup_ok w) as (w1 & r & -> & L1 & N1 & W1 & R1).
  unfold write_live, ret. rewrite W1, W. simpl. eauto.
Qed.

Lemma save_then_load (es : list Expense) (w : world) :
  can_write w = true -> can_read w = true ->
  exists w',
    save_expenses es w = (w', Ok true)
    /\ load_expenses w' = (w', Ok (fst (load_text (now w) (file_text es)))).
Proof.
  intros W R.
  destruct (save_expenses_writable es w W) as (w' & S & L & N & R').
  exists w'. split; [exact S|].
  rewrite (load_expenses_text w' (file_text es)); [|congruence|exact L].
  now rewrite N.
Qed.

(** C1: saving a collection and loading it again does not always give the
    collection back. The one record built from the amount 0.004 is saved
    with success and the load gives no record at all: its stored amount
    0.0 is written as [0.0], which the loader rejects as not positive. The
    one record whose description holds a carriage return is saved with
    success and comes back with a line feed in its place: the file is
    written with [newline=""] and read without it. *)
Theorem C1_save_then_load_changes_collection (w : world) :
  can_write w = true ->
  can_read w = true ->
  (forall e,
     Expense_init (now w) (VFloat four_thousandths) (VStr "Food")
       (VStr "2024-01-01") (VStr "tea") = Ok e ->
     exists w',
       save_expenses [e] w = (w', Ok true)
       /\ load_expenses w' = (w', Ok []))
  /\ (forall e,
        Expense_init (now w) (VFloat twelve_and_a_half) (VStr "Other")
          (VStr "2024-02-12") (VStr two_lines_cr) = Ok e ->
        exists w' e',
          save_expenses [e] w = (w', Ok true)
          /\ load_expenses w' = (w', Ok [e'])
          /\ PyFloat.ltb PyFloat.zero (amount e) = true
          /\ description e = two_lines_cr
          /\ description e' = two_lines_lf
          /\ description e' <> description e).
Proof.
  intros W R. split; intros e E.
  - destruct (save_then_load [e] w W R) as (w' & S & L).
    exists w'. split; [exact S|]. rewrite L. do 2 f_equal.
    vm_compute in E. injection E as <-.
    vm_compute. reflexivity.
  - destruct (save_then_load [e] w W R) as (w' & S & L).
    vm_compute in E. injection E as <-.
    eexists w', _. split; [exact S|]. split.
    + rewrite L. vm_compute. reflexivity.
    + repeat split; discriminate.
Qed.

Lemma C1_save_then_load_changes_collection_witness :
  (exists w',
     save_expenses [tea] fresh_world = (w', Ok true)
     /\ load_expenses w' = (w', Ok []))
  /\ (exists w' e',
        save_expenses [note two_lines_cr] fresh_world = (w', Ok true)
        /\ load_expenses w' = (w', Ok [e'])
        /\ description e' = two_lines_lf).
Proof.
  destruct (C1_save_then_load_changes_collection fresh_world eq_refl eq_refl)
    as [A B].
  split.
  - apply (A tea). reflexivity.
  - destruct (B (note two_lines_cr) eq_refl)
      as (w' & e' & S & L & _ & _ & D & _).
    exists w', e'. auto.
Defined.

(** C8: when the file can be written, saving succeeds and the live file
    ends up holding the whole collection, whether or not a backup was
    made; without a live file, or when the copy fails, [create_backup]
    answers [None] and the save still goes on. *)
Theorem C8_backup_failure_does_not_stop_save (es : list Expense) (w : world) :
  can_write w = true ->
  (exists w', save_expenses es w = (w', Ok true)
              /\ live w' = Some (file_text es))
  /\ (live w = None \/ can_copy w = false ->
      create_backup w = (w, Ok None)
      /\ save_expenses es w = (set_live w (file_text es), Ok true)).
Proof.
  intros W. split.
  - destruct (save_expenses_writable es w W) as (w' & S & L & _).
    eauto.
  - intros B. split; [now apply create_backup_none|].
    unfold save_expenses, try_io, io_bind.
    rewrite (create_backup_none w B).
    unfold write_live, ret. now rewrite W.
Qed.

Lemma C8_backup_failure_does_not_stop_save_witness :
  let w := {| now := sample_clock; live := Some (file_text [tea]);
              backups := ∅; can_read := true; can_write := true;
              can_copy := false |} in
  (exists w', save_expenses [lunch] w = (w', Ok true)
              /\ live w' = Some (file_text [lunch]))
  /\ (live w = None \/ can_copy w = false ->
      create_backup w = (w, Ok None)
      /\ save_expenses [lunch] w = (set_live w (file_text [lunch]), Ok true)).
Proof.
  intros w. apply (C8_backup_failure_does_not_stop_save [lunch] w).
  reflexivity.
Defined.

(** The file written for a collection: the header line, then one line per
    expense, in collection order. *)
Lemma file_text_cons (e : Expense) (es : list Expense) :
  file_text (e :: es)
  = (writeheader
     ++ Csv.writerow [VStr (date e); VStr (category e); VFloat (amount e);
                      VStr (description e)]
     ++ Csv.writerows (map (fun x => _dict_to_list (row_of x)) es))%string.
Proof. reflexivity. Qed.

(** ** The manager *)

Section ManagerFacts.
Variable RG : Type.
Variable new_RG : list Expense -> res RG.

Lemma mgr_save_expenses_spec (self : ExpenseManager RG) (w : world) :
  mgr_save_expenses RG self w
  = (self, fst (save_expenses (expenses self) w),
     snd (save_expenses (expenses self) w)).
Proof.
  unfold mgr_save_expenses. now destruct (save_expenses _ _).
Qed.

Lemma save_expenses_result (es : list Expense) (w : world) :
  snd (save_expenses es w) = Ok (can_write w).
Proof.
  destruct (can_write w) eqn:W.
  - destruct (save_expenses_writable es w W) as (w' & -> & _). reflexivity.
  - destruct (save_expenses_unwritable es w W) as (w' & -> & _). reflexivity.
Qed.

(** What [add_expense] does in every case: the record is appended, the
    result is a boolean, and that boolean is the outcome of saving when
    the report generator could be rebuilt, [False] otherwise. *)
Lemma add_expense_spec (expense : Expense) (self : ExpenseManager RG)
    (w : world) :
  let l := (expenses self ++ [expense])%list in
  exists self' w' b,
    add_expense RG new_RG expense self w = (self', w', Ok (VBool b))
    /\ expenses self' = l
    /\ match new_RG l with
       | Ok g => save_expenses l w = (w', Ok b)
       | Raise _ => w' = w /\ b = false
       end.
Proof.
  intros l. unfold add_expense. simpl. fold l.
  destruct (new_RG l) as [g|e].
  - rewrite mgr_save_expenses_spec. simpl. fold l.
    pose proof (save_expenses_result l w) as S.
    destruct (save_expenses l w) as [w' r]. simpl in *. subst r.
    exists (set_report_generator RG (set_expenses RG self l) g), w',
      (can_write w).
    auto.
  - exists (set_expenses RG self l), w, false. auto.
Qed.
End ManagerFacts.

(** C5: [add_expense] appends the record to the collection and saves the
    appended collection; when saving fails the record is still in the
    collection afterwards and the caller gets [False]. *)
Theorem C5_add_expense_reports_failed_save
    (RG : Type) (new_RG : list Expense -> res RG)
    (expense : Expense) (self : ExpenseManager RG) (w : world) :
  exists self' w' b,
    add_expense RG new_RG expense self w = (self', w', Ok (VBool b))
    /\ expenses self' = (expenses self ++ [expense])%list
    /\ (forall g, new_RG (expenses self ++ [expense])%list = Ok g ->
        save_expenses (expenses self ++ [expense])%list w = (w', Ok b))
    /\ (snd (save_expenses (expenses self ++ [expense])%list w) = Ok false ->
        b = false /\ In expense (expenses self')).
Proof.
  destruct (add_expense_spec RG new_RG expense self w)
    as (self' & w' & b & A & E & S).
  exists self', w', b. repeat split; try assumption.
  - intros g G. now rewrite G in S.
  - destruct (new_RG _); [|tauto].
    rewrite S in H. simpl in H. congruence.
  - rewrite E. apply in_or_app. right. now left.
Qed.

Lemma C5_add_expense_reports_failed_save_witness :
  let w := {| now := sample_clock; live := None; backups := ∅;
              can_read := true; can_write := false; can_copy := true |} in
  let self := {| expenses := [tea]; report_generator := None |} in
  exists self' w' b,
    add_expense SnapshotReport new_SnapshotReport lunch self w
    = (self', w', Ok (VBool b))
    /\ expenses self' = [tea; lunch]
    /\ b = false /\ In lunch (expenses self').
Proof.
  intros w self.
  destruct (C5_add_expense_reports_failed_save SnapshotReport
              new_SnapshotReport lunch self w)
    as (self' & w' & b & A & E & _ & F).
  exists self', w', b. split; [exact A|]. split; [exact E|].
  apply F. reflexivity.
Defined.

(** C9: [clear_all_expenses] leaves the collection empty and answers
    [None] whether saving succeeded or failed; the outcome of the save,
    which [add_expense] passes on, is dropped here. *)
Theorem C9_clear_drops_save_result
    (RG : Type) (new_RG : list Expense -> res RG)
    (self : ExpenseManager RG) (w : world) :
  exists self' w' r,
    clear_all_expenses RG new_RG self w = (self', w', r)
    /\ expenses self' = []
    /\ (forall b, r <> Ok (VBool b))
    /\ (forall g, new_RG [] = Ok g ->
        r = Ok VNone
        /\ save_expenses [] w = (w', Ok (can_write w))).
Proof.
  unfold clear_all_expenses. simpl.
  destruct (new_RG []) as [g|e].
  - rewrite mgr_save_expenses_spec. simpl.
    pose proof (save_expenses_result [] w) as S.
    destruct (save_expenses [] w) as [w' r]. simpl in *. subst r.
    do 3 eexists. split; [reflexivity|]. simpl.
    repeat split; try discriminate; auto.
  - do 3 eexists. split; [reflexivity|]. simpl.
    repeat split; try discriminate.
Qed.

Lemma C9_clear_drops_save_result_witness :
  let w := {| now := sample_clock; live := Some (file_text [tea]);
              backups := ∅; can_read := true; can_write := false;
              can_copy := true |} in
  let self := {| expenses := [tea; lunch]; report_generator := None |} in
  exists self' w',
    clear_all_expenses SnapshotReport new_SnapshotReport self w
    = (self', w', Ok VNone)
    /\ expenses self' = []
    /\ save_expenses [] w = (w', Ok false).
Proof.
  intros w self.
  destruct (C9_clear_drops_save_result SnapshotReport new_SnapshotReport
              self w) as (self' & w' & r & A & E & _ & F).
  destruct (F {| snapshot := [] |} eq_refl) as [-> S].
  exists self', w'. auto.
Defined.

(** ** Monthly selection *)

Lemma startswith_take (p s : string) :
  startswith s p = String.eqb (take (String.length p) s) p.
Proof.
  revert s. induction p as [|a p IH]; intros s.
  - now destruct s.
  - destruct s as [|b s]; simpl; [reflexivity|].
    rewrite IH, (Ascii.eqb_sym a b). reflexivity.
Qed.

Lemma month_form_length (s : string) :
  is_month_form s = true -> String.length s = 7%nat.
Proof.
  unfold is_month_form.
  repeat (destruct s as [|? s]; try discriminate).
  reflexivity.
Qed.

(** C7: for a month of the form YYYY-MM the selection is, in collection
    order, exactly the records whose date has that month as its first
    seven characters; with the month left out, it is the selection for the
    month the clock shows. *)
Theorem C7_monthly_selection_by_prefix
    (RG : Type) (self : ExpenseManager RG) (w : world) :
  (forall month, is_month_form month = true ->
     get_monthly_expenses RG (Some month) self w
     = List.filter (fun e => String.eqb (take 7 (date e)) month)
         (expenses self))
  /\ get_monthly_expenses RG None self w
     = get_monthly_expenses RG (Some (strftime_Ym (now w))) self w.
Proof.
  split.
  - intros month F. pose proof (month_form_length month F) as L.
    unfold get_monthly_expenses.
    destruct month as [|c m]; [discriminate|].
    apply filter_ext. intros e.
    now rewrite startswith_take, L.
  - unfold get_monthly_expenses.
    now destruct (strftime_Ym (now w)).
Qed.

Lemma C7_monthly_selection_by_prefix_witness :
  let self := {| expenses := [dated "2024-01-15"; dated "2024-02-01"];
                 report_generator := @None SnapshotReport |} in
  get_monthly_expenses SnapshotReport (Some "2024-01") self fresh_world
  = [dated "2024-01-15"].
Proof.
  intros self.
  rewrite (proj1 (C7_monthly_selection_by_prefix SnapshotReport self
                    fresh_world) "2024-01" eq_refl).
  reflexivity.
Defined.

(** ** Categories *)

Lemma of_string_raises (s : string) (e : exn) :
  PyFloat.of_string s = Raise e -> e = ValueError.
Proof.
  unfold PyFloat.of_string.
  destruct (PyFloat.drop_underscores _ _); [|congruence].
  destruct (PyFloat.parse_sign _) as [neg body].
  destruct (_ || _); [discriminate|].
  destruct (String.eqb _ _); [discriminate|].
  destruct (PyFloat.parse_number _ _); congruence.
Qed.

(** The amount of a stored cell is accepted or is a validation error. *)
Lemma validate_amount_cell (v : option string) :
  (exists x, _validate_amount (cell v) = Ok x)
  \/ _validate_amount (cell v) = Raise ValueError.
Proof.
  unfold _validate_amount. destruct v as [s|]; simpl; [|now right].
  destruct (PyFloat.of_string s) as [f|e] eqn:P; simpl.
  - destruct (PyFloat.leb f PyFloat.zero); simpl; eauto.
  - apply of_string_raises in P as ->. now right.
Qed.

(** Two categories that agree up to letter case are the same category. *)
Lemma categories_differ_beyond_case (c c' : string) :
  In c CATEGORIES -> In c' CATEGORIES -> lower c' = lower c -> c' = c.
Proof.
  unfold CATEGORIES. simpl.
  intros Hc Hc' L.
  repeat (destruct Hc as [<- | Hc]);
    try contradiction;
    repeat (destruct Hc' as [<- | Hc']);
    try contradiction; try reflexivity; discriminate L.
Qed.

Lemma miscased_not_category (s c : string) :
  In c CATEGORIES -> s <> c -> lower s = lower c ->
  _validate_category (VStr s) = Raise ValueError.
Proof.
  intros Hc N L. unfold _validate_category.
  destruct (existsb (String.eqb s) CATEGORIES) eqn:E; [|reflexivity].
  apply existsb_exists in E as (x & Hx & E).
  apply String.eqb_eq in E. subst x.
  contradiction N. now apply categories_differ_beyond_case.
Qed.

Lemma expense_of_row_row4 t d c a s :
  expense_of_row t (row4 d c a s)
  = Expense_init t (cell a) (cell c) (cell d) (cell s).
Proof.
  unfold expense_of_row, getitem, row4. now simplify_map_eq.
Qed.

(** C10: a category string that differs from a valid category in letter
    case only makes construction fail, whatever the other arguments are;
    and a stored row of a four-column file with such a category is
    skipped, the load going on with the rows after it. *)
Theorem C10_category_is_case_sensitive (s c : string) :
  In c CATEGORIES -> s <> c -> lower s = lower c ->
  (forall t a d descr, exists e,
      Expense_init t a (VStr s) d descr = Raise e)
  /\ (forall t a d descr rest acc,
        load_rows t (row4 d (Some s) a descr :: rest) acc
        = load_rows t rest acc).
Proof.
  intros Hc N L.
  pose proof (miscased_not_category s c Hc N L) as V.
  split.
  - intros t a d descr. unfold Expense_init.
    destruct (_validate_amount a) as [x|e]; cbn [bind]; [|eauto].
    rewrite V. cbn [bind]. eauto.
  - intros t a d descr rest acc. apply load_rows_skip.
    rewrite expense_of_row_row4. unfold Expense_init.
    destruct (validate_amount_cell a) as [[x ->] | ->]; cbn [bind];
      [|reflexivity].
    change (cell (Some s)) with (VStr s). now rewrite V.
Qed.

Lemma C10_category_is_case_sensitive_witness :
  Expense_init sample_clock (VStr "12.5") (VStr "food") (VStr "2024-03-01")
    (VStr "Lunch") = Raise ValueError
  /\ load_rows sample_clock
       [ row4 (Some "2024-03-01") (Some "food") (Some "12.5") (Some "Lunch");
         row4 (Some "2024-03-01") (Some "Food") (Some "12.5") (Some "Lunch") ]
       []
     = ([lunch], None).
Proof.
  assert (H : In "Food" CATEGORIES /\ "food" <> "Food"
              /\ lower "food" = lower "Food").
  { split; [now left|]. split; [discriminate|reflexivity]. }
  destruct H as (Hc & N & L).
  destruct (C10_category_is_case_sensitive "food" "Food" Hc N L) as [_ S].
  split; [reflexivity|].
  rewrite S. reflexivity.
Defined.

(** ** Minimum and maximum *)

Section MinMaxFacts.
Context {A : Type}.
Variable lt : A -> A -> bool.
Hypothesis lt_irrefl : forall x, lt x x = false.
Hypothesis lt_trans :
  forall x y z, lt x y = true -> lt y z = true -> lt x z = true.

Lemma min_from_spec (l : list A) (best : A) :
  In (min_from lt best l) (best :: l)
  /\ (forall y, lt y best = false -> lt y (min_from lt best l) = false)
  /\ (forall y, In y l -> lt y (min_from lt best l) = false).
Proof.
  revert best. induction l as [|x rest IH]; intros best; simpl.
  - split; [now left|]. split; [auto|contradiction].
  - destruct (IH (if lt x best then x else best)) as (I & M & R).
    split; [|split].
    + destruct I as [I | I]; [|now right; right].
      rewrite <- I. destruct (lt x best); [right; now left|now left].
    + intros y Hy. apply M.
      destruct (lt x best) eqn:X; [|exact Hy].
      destruct (lt y x) eqn:Y; [|reflexivity].
      rewrite (lt_trans _ _ _ Y X) in Hy. discriminate.
    + intros y [<- | Hy]; [|now apply R].
      apply M. destruct (lt x best) eqn:X; [apply lt_irrefl|exact X].
Qed.

(** [min] returns an element below which no element of the list lies. *)
Lemma py_min_spec (x : A) (rest : list A) :
  exists m, py_min lt (x :: rest) = Ok m
            /\ In m (x :: rest)
            /\ forall y, In y (x :: rest) -> lt y m = false.
Proof.
  destruct (min_from_spec rest x) as (I & M & R).
  exists (min_from lt x rest). split; [reflexivity|]. split; [exact I|].
  intros y [<- | Hy]; [|now apply R].
  apply M, lt_irrefl.
Qed.
End MinMaxFacts.

Lemma max_from_flip {A} (lt : A -> A -> bool) (l : list A) (best : A) :
  max_from lt best l = min_from (fun a b => lt b a) best l.
Proof.
  revert best. induction l as [|x rest IH]; intros best; simpl; auto.
Qed.

(** [max] returns an element above which no element of the list lies. *)
Lemma py_max_spec {A} (lt : A -> A -> bool)
    (lt_irrefl : forall x, lt x x = false)
    (lt_trans : forall x y z, lt x y = true -> lt y z = true -> lt x z = true)
    (x : A) (rest : list A) :
  exists m, py_max lt (x :: rest) = Ok m
            /\ In m (x :: rest)
            /\ forall y, In y (x :: rest) -> lt m y = false.
Proof.
  destruct (py_min_spec (fun a b => lt b a) lt_irrefl
              (fun a b c H1 H2 => lt_trans c b a H2 H1) x rest)
    as (m & P & I & B).
  exists m. split; [|split; assumption].
  simpl in *. now rewrite max_from_flip.
Qed.

(** *** The order on strings *)

Lemma str_ltb_irrefl (a : string) : str_ltb a a = false.
Proof.
  induction a as [|x a IH]; simpl; [reflexivity|].
  now rewrite Z.ltb_irrefl.
Qed.

Lemma str_ltb_trans (a b c : string) :
  str_ltb a b = true -> str_ltb b c = true -> str_ltb a c = true.
Proof.
  revert b c. induction a as [|x a IH]; intros [|y b] [|z c]; simpl;
    try discriminate; try reflexivity.
  destruct (Z.ltb_spec (code x) (code y)), (Z.ltb_spec (code y) (code x)),
    (Z.ltb_spec (code y) (code z)), (Z.ltb_spec (code z) (code y)),
    (Z.ltb_spec (code x) (code z)), (Z.ltb_spec (code z) (code x));
    try discriminate; try reflexivity; try lia.
  apply IH.
Qed.

(** *** The order on floats *)

Lemma float_ltb_irrefl (x : float) : PyFloat.ltb x x = false.
Proof.
  unfold PyFloat.ltb, SFltb.
  destruct x as [s|s| |s m e]; simpl; try reflexivity.
  - now destruct s.
  - rewrite Z.compare_refl.
    change (Pos.compare_cont Eq m m) with (Pos.compare m m).
    rewrite Pos.compare_refl. now destruct s.
Qed.

Lemma float_ltb_trans (x y z : float) :
  PyFloat.ltb x y = true -> PyFloat.ltb y z = true -> PyFloat.ltb x z = true.
Proof.
  unfold PyFloat.ltb, SFltb.
  destruct x as [sx|sx| |sx mx ex], y as [sy|sy| |sy my ey],
    z as [sz|sz| |sz mz ez]; simpl;
    try discriminate; try reflexivity;
    try (destruct sx; discriminate); try (destruct sy; discriminate);
    try (destruct sz; discriminate);
    try (destruct sx, sy; discriminate); try (destruct sy, sz; discriminate);
    try (destruct sx, sz; (discriminate || reflexivity));
    try (destruct sx, sy, sz; (discriminate || reflexivity)).
  change (Pos.compare_cont Eq mx my) with (Pos.compare mx my).
  change (Pos.compare_cont Eq my mz) with (Pos.compare my mz).
  change (Pos.compare_cont Eq mx mz) with (Pos.compare mx mz).
  destruct sx, sy, sz; try discriminate; try reflexivity;
    destruct (Z.compare_spec ex ey), (Z.compare_spec ey ez),
      (Z.compare_spec ex ez); try discriminate; try reflexivity; try lia;
    destruct (Pos.compare_spec mx my), (Pos.compare_spec my mz),
      (Pos.compare_spec mx mz); simpl;
    try discriminate; try reflexivity; lia.
Qed.

(** ** Converting a length to a float *)

Lemma digits2_pos_bounds (p : positive) :
  2 ^ (Zpos (digits2_pos p) - 1) <= Zpos p < 2 ^ Zpos (digits2_pos p).
Proof.
  induction p as [p IH|p IH|]; simpl digits2_pos.
  - rewrite Pos2Z.inj_succ.
    replace (Z.succ (Zpos (digits2_pos p)) - 1)
      with (Z.succ (Zpos (digits2_pos p) - 1)) by lia.
    rewrite !Z.pow_succ_r by lia. lia.
  - rewrite Pos2Z.inj_succ.
    replace (Z.succ (Zpos (digits2_pos p)) - 1)
      with (Z.succ (Zpos (digits2_pos p) - 1)) by lia.
    rewrite !Z.pow_succ_r by lia. lia.
  - simpl. lia.
Qed.

Lemma digits2_unique (m : positive) (k : Z) :
  2 ^ (k - 1) <= Zpos m < 2 ^ k -> Zpos (digits2_pos m) = k.
Proof.
  intros [L U]. pose proof (digits2_pos_bounds m) as [L' U'].
  assert (0 < k).
  { destruct (Z.ltb_spec 0 k); [assumption|].
    rewrite Z.pow_neg_r in L by lia.
    destruct (Z.eq_dec k 0) as [->|]; [simpl in U; lia|].
    rewrite Z.pow_neg_r in U by lia. lia. }
  destruct (Z.lt_trichotomy (Zpos (digits2_pos m)) k) as [C|[C|C]]; [|exact C|].
  - assert (2 ^ Zpos (digits2_pos m) <= 2 ^ (k - 1))
      by (apply Z.pow_le_mono_r; lia). lia.
  - assert (2 ^ k <= 2 ^ (Zpos (digits2_pos m) - 1))
      by (apply Z.pow_le_mono_r; lia). lia.
Qed.

Lemma iter_pos_iter {A} (f : A -> A) (p : positive) (x : A) :
  SpecFloat.iter_pos f p x = Pos.iter f x p.
Proof.
  revert x. induction p as [p IH|p IH|]; intros x; simpl.
  - rewrite !IH. now rewrite <- !Pos.iter_swap.
  - now rewrite !IH.
  - reflexivity.
Qed.

Lemma shr_1_m (r : shr_record) :
  0 <= shr_m r -> shr_m (shr_1 r) = shr_m r / 2.
Proof.
  destruct r as [m b s]. cbn [shr_m]. intros H.
  destruct m as [|[q|q|]|q]; cbn [shr_1 shr_m]; try lia;
    try reflexivity;
    (apply Z.div_unique with 1; lia) || (apply Z.div_unique with 0; lia).
Qed.

Lemma shr_iter_m (k : positive) (r : shr_record) :
  0 <= shr_m r ->
  shr_m (SpecFloat.iter_pos shr_1 k r) = shr_m r / 2 ^ Zpos k.
Proof.
  intros H. rewrite iter_pos_iter.
  induction k as [|k IH] using Pos.peano_ind.
  - simpl. now apply shr_1_m.
  - rewrite Pos.iter_succ, shr_1_m.
    + rewrite IH, Pos2Z.inj_succ, Z.pow_succ_r by lia.
      rewrite Z.div_div by lia. f_equal. lia.
    + rewrite IH. apply Z.div_pos; lia.
Qed.

Lemma digits2_shift (p k : positive) :
  digits2_pos (Pos.iter xO p k) = (digits2_pos p + k)%positive.
Proof.
  induction k as [|k IH] using Pos.peano_ind.
  - simpl. lia.
  - rewrite Pos.iter_succ. simpl. rewrite IH. lia.
Qed.

Lemma fexp_int (d e : Z) :
  -1074 <= d + e - 53 -> fexp 53 1024 (d + e) = d + e - 53.
Proof. unfold fexp, emin. lia. Qed.

Lemma round_aux_canonical (s : bool) (m : positive) (e : Z) :
  Zpos (digits2_pos m) = 53 -> -1074 <= e <= 971 ->
  binary_round_aux 53 1024 s (Zpos m) e loc_Exact = S754_finite s m e.
Proof.
  intros D E. unfold binary_round_aux, shr_fexp.
  cbn [Zdigits2 shr_record_of_loc]. rewrite D, fexp_int by lia.
  replace (53 + e - 53 - e) with 0 by lia.
  cbn [shr shr_m loc_of_shr_record round_nearest_even Zdigits2
       shr_record_of_loc].
  rewrite D, fexp_int by lia.
  replace (53 + e - 53 - e) with 0 by lia.
  cbn [shr shr_m].
  replace (e <=? 1024 - 53) with true; [reflexivity|].
  symmetry. apply Z.leb_le. lia.
Qed.

Lemma round_nearest_even_bounds (m : Z) (l : location) :
  m <= round_nearest_even m l <= m + 1.
Proof.
  destruct l as [|[]]; simpl; try lia. destruct (Z.even m); lia.
Qed.

Lemma round_aux_shifted (s : bool) (p k : positive) :
  Zpos (digits2_pos p) = 53 + Zpos k -> Zpos k <= 900 ->
  exists m e,
    binary_round_aux 53 1024 s (Zpos p) 0 loc_Exact = S754_finite s m e.
Proof.
  intros D K. pose proof (digits2_pos_bounds p) as [L U]. rewrite D in L, U.
  unfold binary_round_aux, shr_fexp at 1.
  cbn [Zdigits2 shr_record_of_loc]. rewrite D, fexp_int by lia.
  replace (53 + Zpos k + 0 - 53 - 0) with (Zpos k) by lia.
  cbn [shr].
  set (mrs := SpecFloat.iter_pos shr_1 k _).
  assert (M : shr_m mrs = Zpos p / 2 ^ Zpos k).
  { unfold mrs. now rewrite shr_iter_m. }
  assert (B : 2 ^ 52 <= shr_m mrs < 2 ^ 53).
  { rewrite M. replace (53 + Zpos k - 1) with (52 + Zpos k) in L by lia.
    rewrite Z.pow_add_r in L, U by lia. split.
    - apply Z.div_le_lower_bound; lia.
    - apply Z.div_lt_upper_bound; lia. }
  pose proof (round_nearest_even_bounds (shr_m mrs) (loc_of_shr_record mrs))
    as R.
  set (m2 := round_nearest_even _ _) in *.
  destruct m2 as [|q|q] eqn:Q; try lia.
  unfold shr_fexp. cbn [Zdigits2 shr_record_of_loc].
  destruct (Z.eq_dec (Zpos q) (2 ^ 53)) as [T|T].
  - rewrite (digits2_unique q 54) by (rewrite T; simpl; lia).
    rewrite fexp_int by lia.
    replace (54 + (0 + Zpos k) - 53 - (0 + Zpos k)) with 1 by lia.
    cbn [shr SpecFloat.iter_pos]. rewrite T. cbn [shr_1 shr_m Z.pow Z.pow_pos Pos.iter Z.mul Pos.mul].
    replace (0 + Zpos k + 1 <=? 1024 - 53) with true; [eauto|].
    symmetry. apply Z.leb_le. lia.
  - rewrite (digits2_unique q 53) by (simpl in *; lia).
    rewrite fexp_int by lia.
    replace (53 + (0 + Zpos k) - 53 - (0 + Zpos k)) with 0 by lia.
    cbn [shr shr_m].
    replace (0 + Zpos k <=? 1024 - 53) with true; [eauto|].
    symmetry. apply Z.leb_le. lia.
Qed.

(** Every length a list can have converts to a finite, non-zero float. *)
Lemma normalize_positive (p : positive) :
  Zpos p < 2 ^ 63 ->
  exists m e,
    binary_normalize 53 1024 (Zpos p) 0 false = S754_finite false m e.
Proof.
  intros B. pose proof (digits2_pos_bounds p) as [L U].
  assert (Hd : Zpos (digits2_pos p) <= 63).
  { destruct (Z.le_gt_cases (Zpos (digits2_pos p)) 63); [assumption|].
    assert (2 ^ 63 <= 2 ^ (Zpos (digits2_pos p) - 1))
      by (apply Z.pow_le_mono_r; lia). lia. }
  unfold binary_normalize, binary_round.
  rewrite fexp_int by lia. unfold shl_align.
  destruct (Zpos (digits2_pos p) + 0 - 53 - 0) as [|k|k] eqn:S.
  - rewrite round_aux_canonical by lia. eauto.
  - apply (round_aux_shifted false p k); lia.
  - rewrite round_aux_canonical.
    + eauto.
    + rewrite digits2_shift. lia.
    + lia.
Qed.

Lemma truediv_by_length (x : float) (n : Z) :
  1 <= n <= maxsize ->
  exists d, PyFloat.of_int n = Ok d
            /\ PyFloat.is_zero d = false
            /\ truediv x n = Ok (PyFloat.div x d).
Proof.
  intros [L U]. destruct n as [|p|p]; try lia.
  destruct (normalize_positive p) as (m & e & N).
  { unfold maxsize in U. lia. }
  unfold truediv, PyFloat.of_int, PyFloat.prec, PyFloat.emax.
  rewrite N. cbn [bind PyFloat.is_zero]. eauto.
Qed.

(** ** The breakdowns of [get_statistics] *)

Lemma count_month_lookup (m : gmap string month_stat) (e : Expense)
    (k : string) :
  count_month m e !! k
  = if String.eqb (take 7 (date e)) k then Some (bump (m !! k) e)
    else m !! k.
Proof.
  unfold count_month.
  destruct (String.eqb_spec (take 7 (date e)) k) as [<- | N].
  - rewrite lookup_alter_eq.
    destruct (m !! take 7 (date e)) as [st|] eqn:M.
    + now rewrite M.
    + now rewrite lookup_insert_eq.
  - rewrite lookup_alter_ne by exact N.
    destruct (m !! take 7 (date e)); [reflexivity|].
    now rewrite lookup_insert_ne.
Qed.

Lemma fold_count_month (es : list Expense) (m : gmap string month_stat)
    (k : string) :
  fold_left count_month es m !! k
  = fold_left (fun o e => Some (bump o e)) (in_month k es) (m !! k).
Proof.
  revert m. induction es as [|e es IH]; intros m; [reflexivity|].
  cbn [fold_left]. rewrite IH, count_month_lookup.
  unfold in_month. cbn [List.filter].
  now destruct (String.eqb _ _).
Qed.

Lemma fold_bump (l : list Expense) (st : month_stat) :
  fold_left (fun o e => Some (bump o e)) l (Some st)
  = Some {| total := fold_left PyFloat.add (map amount l) (total st);
            count := count st + Z.of_nat (length l) |}.
Proof.
  revert st. induction l as [|e l IH]; intros st.
  - cbn. destruct st as [t c]. cbn. do 2 f_equal. lia.
  - cbn [fold_left map length]. rewrite IH. cbn [bump total count].
    do 2 f_equal. lia.
Qed.

(** The monthly dictionary holds, for every month, the total and the
    count of the records of that month. *)
Lemma monthly_stats_spec (es : list Expense) (k : string) :
  fold_left count_month es ∅ !! k = month_breakdown es k.
Proof.
  rewrite fold_count_month, lookup_empty. unfold month_breakdown.
  destruct (in_month k es) as [|e l]; [reflexivity|].
  cbn [fold_left]. rewrite fold_bump. cbn [bump total count].
  unfold sum_left. cbn [map fold_left length]. do 2 f_equal. lia.
Qed.

Lemma count_category_lookup (m : gmap string float) (e : Expense)
    (c : string) :
  count_category m e !! c
  = if String.eqb (category e) c then Some (raise_total (m !! c) e)
    else m !! c.
Proof.
  unfold count_category.
  destruct (String.eqb_spec (category e) c) as [<- | N].
  - now rewrite lookup_insert_eq.
  - now rewrite lookup_insert_ne.
Qed.

Lemma fold_count_category (es : list Expense) (m : gmap string float)
    (c : string) :
  fold_left count_category es m !! c
  = fold_left (fun o e => Some (raise_total o e)) (in_category c es) (m !! c).
Proof.
  revert m. induction es as [|e es IH]; intros m; [reflexivity|].
  cbn [fold_left]. rewrite IH, count_category_lookup.
  unfold in_category. cbn [List.filter].
  now destruct (String.eqb _ _).
Qed.

Lemma fold_raise_total (l : list Expense) (v : float) :
  fold_left (fun o e => Some (raise_total o e)) l (Some v)
  = Some (fold_left PyFloat.add (map amount l) v).
Proof.
  revert v. induction l as [|e l IH]; intros v; [reflexivity|].
  cbn [fold_left map]. now rewrite IH.
Qed.

(** The category dictionary holds, for every category, the total of the
    records of that category. *)
Lemma category_totals_spec (es : list Expense) (c : string) :
  fold_left count_category es ∅ !! c = category_breakdown es c.
Proof.
  rewrite fold_count_category, lookup_empty. unfold category_breakdown.
  destruct (in_category c es) as [|e l]; [reflexivity|].
  cbn [fold_left]. now rewrite fold_raise_total.
Qed.

(** ** Statistics *)

(** C6: on an empty collection [get_statistics] returns the empty
    dictionary and raises nothing. On a non-empty collection it raises
    nothing either, the divisor of the average being the non-zero float of
    the count, and returns: the built-in sum of the amounts as total; the
    number of records as count; total divided by count as average; as
    minimum and maximum an amount of the collection that no amount lies
    below, respectively above; as start and end date a date of the
    collection that no date precedes, respectively follows, in the order
    of strings; for every month the total and count of its records; for
    every category the total of its records. *)
Theorem C6_statistics_of_collection
    (RG : Type) (builtin_sum : list float -> float)
    (self : ExpenseManager RG) :
  let es := expenses self in
  let amounts := map amount es in
  let dates := map date es in
  (es = [] -> get_statistics RG builtin_sum self = Ok EmptyDict)
  /\ (es <> [] -> Z.of_nat (length es) <= maxsize ->
      exists s n,
        get_statistics RG builtin_sum self = Ok (Stats s)
        /\ s_total s = builtin_sum amounts
        /\ s_count s = Z.of_nat (length es)
        /\ PyFloat.of_int (s_count s) = Ok n
        /\ PyFloat.is_zero n = false
        /\ s_average s = PyFloat.div (s_total s) n
        /\ In (s_min s) amounts
        /\ (forall a, In a amounts -> PyFloat.ltb a (s_min s) = false)
        /\ In (s_max s) amounts
        /\ (forall a, In a amounts -> PyFloat.ltb (s_max s) a = false)
        /\ In (s_start_date s) dates
        /\ (forall d, In d dates -> str_ltb d (s_start_date s) = false)
        /\ In (s_end_date s) dates
        /\ (forall d, In d dates -> str_ltb (s_end_date s) d = false)
        /\ (forall k, s_monthly_stats s !! k = month_breakdown es k)
        /\ (forall c, s_category_totals s !! c = category_breakdown es c)).
Proof.
  intros es amounts dates. split.
  - unfold get_statistics. fold es. now intros ->.
  - intros NE B. unfold get_statistics. fold es.
    destruct es as [|e rest] eqn:E; [contradiction|].
    subst amounts dates. cbn [map].
    replace (length (amount e :: map amount rest)) with (length (e :: rest))
      by (cbn [length]; now rewrite length_map).
    destruct (truediv_by_length (builtin_sum (amount e :: map amount rest))
                (Z.of_nat (length (e :: rest)))) as (n & N & NZ & D).
    { cbn [length] in *. lia. }
    destruct (py_min_spec PyFloat.ltb float_ltb_irrefl float_ltb_trans
                (amount e) (map amount rest)) as (lo & Plo & Ilo & Blo).
    destruct (py_max_spec PyFloat.ltb float_ltb_irrefl float_ltb_trans
                (amount e) (map amount rest)) as (hi & Phi & Ihi & Bhi).
    destruct (py_min_spec str_ltb str_ltb_irrefl str_ltb_trans
                (date e) (map date rest)) as (d0 & Pd0 & Id0 & Bd0).
    destruct (py_max_spec str_ltb str_ltb_irrefl str_ltb_trans
                (date e) (map date rest)) as (d1 & Pd1 & Id1 & Bd1).
    rewrite D, Plo, Phi, Pd0, Pd1. cbn [bind].
    eexists _, n. split; [reflexivity|].
    cbn [s_total s_count s_average s_min s_max s_start_date s_end_date
         s_monthly_stats s_category_totals].
    repeat split; try assumption.
    + apply monthly_stats_spec.
    + apply category_totals_spec.
Qed.

Lemma C6_statistics_of_collection_witness :
  let self := {| expenses := [tea; lunch];
                 report_generator := @None SnapshotReport |} in
  exists s n,
    get_statistics SnapshotReport sum_left self = Ok (Stats s)
    /\ s_total s = twelve_and_a_half
    /\ s_count s = 2
    /\ PyFloat.of_int 2 = Ok n
    /\ s_average s = PyFloat.div twelve_and_a_half n
    /\ s_min s = PyFloat.zero
    /\ s_max s = twelve_and_a_half
    /\ s_start_date s = "2024-01-01"
    /\ s_end_date s = "2024-03-01"
    /\ s_monthly_stats s !! "2024-03"
       = Some {| total := twelve_and_a_half; count := 1 |}
    /\ s_category_totals s !! "Food" = Some twelve_and_a_half.
Proof.
  intros self.
  destruct (proj2 (C6_statistics_of_collection SnapshotReport sum_left self))
    as (s & n & G & T & C & N & _ & A & _ & _ & _ & _ & _ & _ & _ & _ & M & K).
  { discriminate. }
  { vm_compute. discriminate. }
  exists s, n. split; [exact G|].
  rewrite C in N. rewrite T in A.
  pose proof (M "2024-03") as M3. pose proof (K "Food") as KF.
  vm_compute in G. injection G as <-.
  repeat split; try reflexivity; assumption.
Defined.

(** ** The reader on the writer's output *)

Module CsvFacts.
Import Csv CsvRun.

Lemma append_cons (c : ascii) (a b : string) :
  (String c a ++ b)%string = String c (a ++ b).
Proof. reflexivity. Qed.

Lemma feed_line_app (a b : string) (r : reader) :
  feed_line r (a ++ b) = bind (feed_chars r a) (fun r' => feed_line r' b).
Proof.
  revert r. induction a as [|c a IH]; intros r; [reflexivity|].
  rewrite append_cons. cbn [feed_line feed_chars].
  destruct (parse_process_char r (Some c)) as [r'|e]; cbn [bind];
    [apply IH | reflexivity].
Qed.

Lemma feed_chars_app (a b : string) (r : reader) :
  feed_chars r (a ++ b) = bind (feed_chars r a) (fun r' => feed_chars r' b).
Proof.
  revert r. induction a as [|c a IH]; intros r; [reflexivity|].
  rewrite append_cons. cbn [feed_chars].
  destruct (parse_process_char r (Some c)) as [r'|e]; cbn [bind];
    [apply IH | reflexivity].
Qed.

Lemma append_nil_r (s : string) : (s ++ "")%string = s.
Proof. induction s as [|c s IH]; [reflexivity|]. now rewrite append_cons, IH. Qed.

Lemma append_assoc (a b c : string) :
  ((a ++ b) ++ c)%string = (a ++ (b ++ c))%string.
Proof.
  induction a as [|x a IH]; [reflexivity|]. now rewrite !append_cons, IH.
Qed.

(** A line in progress that already fails makes the reading fail. *)
Lemma lines_from_head (cur text : string) :
  cur <> "" ->
  exists more rest, lines_from cur text = (cur ++ more)%string :: rest.
Proof.
  revert cur. induction text as [|c text IH]; intros cur N; cbn [lines_from].
  - destruct (String.eqb_spec cur ""); [contradiction|].
    exists "", []. now rewrite append_nil_r.
  - destruct (Ascii.eqb c LF).
    + eauto.
    + destruct (IH (cur ++ String c "")%string) as (more & rest & ->).
      { destruct cur; discriminate. }
      exists (String c more), rest. now rewrite append_assoc.
Qed.

Lemma eqb_empty_app (cur : string) (c : ascii) :
  String.eqb (cur ++ String c "") "" = false.
Proof. now destruct cur. Qed.

Lemma run_read_records (text cur : string) (r r1 : reader) :
  feed_chars r cur = Ok r1 ->
  read_records r (lines_from cur text) = run r1 (String.eqb cur "") text.
Proof.
  revert cur r r1. induction text as [|c text IH]; intros cur r r1 F.
  - cbn [lines_from run]. destruct (String.eqb_spec cur "") as [->|N].
    + cbn in F. now injection F as ->.
    + cbn [read_records].
      replace cur with (cur ++ "")%string at 1 by apply append_nil_r.
      rewrite feed_line_app, F. reflexivity.
  - cbn [lines_from run].
    destruct (Ascii.eqb c LF) eqn:C.
    + cbn [read_records]. rewrite feed_line_app, F. cbn [bind feed_line].
      destruct (parse_process_char r1 (Some c)) as [r2|e]; cbn [bind];
        [|reflexivity].
      destruct (parse_process_char r2 None) as [r3|e]; [|reflexivity].
      destruct (state_eqb (st r3) START_RECORD).
      * now rewrite (IH "" parse_reset parse_reset eq_refl).
      * now rewrite (IH "" r3 r3 eq_refl).
    + destruct (parse_process_char r1 (Some c)) as [r2|e] eqn:P.
      * rewrite (IH (cur ++ String c "")%string r r2).
        -- now rewrite eqb_empty_app.
        -- rewrite feed_chars_app, F. cbn [bind feed_chars]. now rewrite P.
      * destruct (lines_from_head (cur ++ String c "")%string text)
          as (more & rest & ->).
        { destruct cur; discriminate. }
        cbn [read_records].
        rewrite append_assoc, feed_line_app, F. rewrite append_cons.
        cbn [bind feed_line].
        now rewrite P.
Qed.

Lemma length_app (a b : string) :
  String.length (a ++ b) = (String.length a + String.length b)%nat.
Proof.
  induction a as [|c a IH]; [reflexivity|].
  rewrite append_cons. cbn [String.length]. now rewrite IH.
Qed.

Lemma add_char_ok (s s' : state) (fs : list string) (b : string) (c : ascii) :
  Z.of_nat (String.length b) < field_limit ->
  parse_add_char {| st := s; fields := fs; field := b |} c s'
  = Ok {| st := s'; fields := fs; field := (b ++ String c "")%string |}.
Proof.
  intros L. unfold parse_add_char. cbn [field fields].
  destruct (Z.leb_spec field_limit (Z.of_nat (String.length b)));
    [lia|reflexivity].
Qed.

Lemma special_split (c : ascii) :
  is_special c = false ->
  Ascii.eqb c DELIM = false /\ Ascii.eqb c QUOTE = false
  /\ Ascii.eqb c CR = false /\ Ascii.eqb c LF = false.
Proof.
  unfold is_special. intros H.
  repeat (apply orb_false_iff in H as [H ?]). auto.
Qed.

(** A character that is not special joins the field being collected. *)
Lemma plain_char_step (s : state) (fs : list string) (b : string) (c : ascii) :
  is_special c = false ->
  Z.of_nat (String.length b) < field_limit ->
  (s = START_RECORD \/ s = START_FIELD \/ s = IN_FIELD) ->
  parse_process_char {| st := s; fields := fs; field := b |} (Some c)
  = Ok {| st := IN_FIELD; fields := fs; field := (b ++ String c "")%string |}.
Proof.
  intros P L S. apply special_split in P as (D & Q & C & N).
  unfold parse_process_char, start_field, is_newline. cbn [st].
  destruct S as [-> | [-> | ->]]; rewrite ?N, ?C, ?Q, ?D; cbn [orb];
    now apply add_char_ok.
Qed.

Lemma run_plain (s b : string) (fs : list string) (x : state) (fresh : bool)
    (T : string) :
  needs_quotes s = false -> s <> "" ->
  Z.of_nat (String.length (b ++ s)) <= field_limit ->
  (x = START_RECORD \/ x = START_FIELD \/ x = IN_FIELD) ->
  run {| st := x; fields := fs; field := b |} fresh (s ++ T)
  = run {| st := IN_FIELD; fields := fs; field := (b ++ s)%string |} false T.
Proof.
  revert b x fresh. induction s as [|c s IH]; intros b x fresh P N L X;
    [contradiction|].
  cbn [needs_quotes] in P. apply orb_false_iff in P as [Pc Ps].
  rewrite length_app in L. cbn [String.length] in L.
  rewrite append_cons. cbn [run].
  rewrite (plain_char_step x fs b c Pc) by (lia || assumption).
  apply special_split in Pc as (_ & _ & _ & ->).
  destruct s as [|d s].
  - reflexivity.
  - rewrite (IH (b ++ String c "")%string IN_FIELD false Ps).
    + now rewrite append_assoc.
    + discriminate.
    + rewrite !length_app. cbn [String.length] in *. lia.
    + auto.
Qed.

Lemma run_quoted_body (s b : string) (fs : list string) (fresh : bool)
    (T : string) :
  Z.of_nat (String.length (b ++ s)) <= field_limit ->
  exists fresh',
    run {| st := IN_QUOTED_FIELD; fields := fs; field := b |} fresh
      (double_quotes s ++ T)
    = run {| st := IN_QUOTED_FIELD; fields := fs; field := (b ++ s)%string |}
        fresh' T.
Proof.
  revert b fresh. induction s as [|c s IH]; intros b fresh L.
  - exists fresh. now rewrite append_nil_r.
  - rewrite length_app in L. cbn [String.length] in L.
    assert (L' : Z.of_nat (String.length ((b ++ String c "") ++ s))
                 <= field_limit).
    { rewrite !length_app. cbn [String.length]. lia. }
    cbn [double_quotes]. destruct (Ascii.eqb c QUOTE) eqn:Q.
    + apply Ascii.eqb_eq in Q. subst c.
      rewrite !append_cons. cbn [run].
      unfold parse_process_char at 1. cbn [st].
      change (Ascii.eqb QUOTE QUOTE) with true. cbn iota.
      change (Ascii.eqb QUOTE LF) with false. cbn iota.
      unfold parse_process_char at 1, set_state. cbn [st fields field].
      change (Ascii.eqb QUOTE QUOTE) with true. cbn iota.
      rewrite add_char_ok by lia.
      destruct (IH (b ++ String QUOTE "")%string false L') as [f' ->].
      exists f'. now rewrite append_assoc.
    + rewrite append_cons. cbn [run].
      unfold parse_process_char at 1. cbn [st]. rewrite Q.
      rewrite add_char_ok by lia.
      destruct (Ascii.eqb c LF).
      * unfold parse_process_char at 1. cbn [st state_eqb].
        destruct (IH (b ++ String c "")%string true L') as [f' ->].
        exists f'. now rewrite append_assoc.
      * destruct (IH (b ++ String c "")%string false L') as [f' ->].
        exists f'. now rewrite append_assoc.
Qed.

(** A quoted field up to and including its closing quote. *)
Lemma run_quoted (f : string) (fs : list string) (x : state) (fresh : bool)
    (T : string) :
  at_start x -> fits f ->
  exists fresh',
    run {| st := x; fields := fs; field := "" |} fresh (quoted f ++ T)
    = run {| st := QUOTE_IN_QUOTED_FIELD; fields := fs; field := f |}
        fresh' T.
Proof.
  intros X L. unfold quoted. rewrite append_cons. cbn [run].
  assert (P : parse_process_char {| st := x; fields := fs; field := "" |}
                (Some QUOTE)
              = Ok {| st := IN_QUOTED_FIELD; fields := fs; field := "" |}).
  { destruct X as [-> | ->]; reflexivity. }
  rewrite P. change (Ascii.eqb QUOTE LF) with false. cbn iota.
  rewrite append_assoc.
  destruct (run_quoted_body f "" fs false (String QUOTE "" ++ T)) as [f' ->].
  { exact L. }
  rewrite append_cons. cbn [run].
  unfold parse_process_char at 1. cbn [st].
  change (Ascii.eqb QUOTE QUOTE) with true. cbn iota.
  change (Ascii.eqb QUOTE LF) with false. cbn iota.
  unfold set_state. cbn [fields field String.append]. eauto.
Qed.

Lemma needs_quotes_empty_text (f : string) :
  needs_quotes f = false -> write_field f = f.
Proof. unfold write_field. now intros ->. Qed.

(** A field and the delimiter after it: the field joins the record. *)
Lemma run_field_delim (f : string) (fs : list string) (x : state)
    (fresh : bool) (T : string) :
  at_start x -> fits f ->
  run {| st := x; fields := fs; field := "" |} fresh
    (write_field f ++ String DELIM T)
  = run {| st := START_FIELD; fields := (fs ++ [f])%list; field := "" |} false T.
Proof.
  intros X L. unfold write_field. destruct (needs_quotes f) eqn:N.
  - destruct (run_quoted f fs x fresh (String DELIM T) X L) as [f' ->].
    reflexivity.
  - destruct f as [|c f].
    + cbn [String.append run]. destruct X as [-> | ->]; reflexivity.
    + rewrite (run_plain (String c f) "" fs x fresh) by
        (try discriminate; try exact N; try exact L;
         destruct X; auto).
      reflexivity.
Qed.

(** A field and the end of the line after it: the record is complete. *)
Lemma run_field_eol (f : string) (fs : list string) (x : state)
    (fresh : bool) (T : string) :
  at_start x -> fits f ->
  x = START_FIELD \/ write_field f <> "" ->
  run {| st := x; fields := fs; field := "" |} fresh
    (write_field f ++ String LF T)
  = let '(rs, err) := run parse_reset true T in ((fs ++ [f])%list :: rs, err).
Proof.
  intros X L E. unfold write_field in *. destruct (needs_quotes f) eqn:N.
  - destruct (run_quoted f fs x fresh (String LF T) X L) as [f' ->].
    reflexivity.
  - destruct f as [|c f].
    + destruct E as [-> | E]; [reflexivity|contradiction].
    + rewrite (run_plain (String c f) "" fs x fresh) by
        (try discriminate; try exact N; try exact L;
         destruct X; auto).
      reflexivity.
Qed.

Lemma run_quoted_eol (f : string) (fs : list string) (x : state)
    (fresh : bool) (T : string) :
  at_start x -> fits f ->
  run {| st := x; fields := fs; field := "" |} fresh
    (quoted f ++ String LF T)
  = let '(rs, err) := run parse_reset true T in ((fs ++ [f])%list :: rs, err).
Proof.
  intros X L.
  destruct (run_quoted f fs x fresh (String LF T) X L) as [f' ->].
  reflexivity.
Qed.

Lemma join_fields_cons (f g : string) (rest : list string) :
  join_fields (f :: g :: rest)
  = (write_field f ++ String DELIM (join_fields (g :: rest)))%string.
Proof. reflexivity. Qed.

Lemma write_field_nonempty (f : string) : f <> "" -> write_field f <> "".
Proof.
  unfold write_field. destruct (needs_quotes f); [discriminate|auto].
Qed.

(** The fields of a row, joined, and the end of the line. *)
Lemma run_join_fields (row : list string) (fs : list string) (x : state)
    (fresh : bool) (T : string) :
  row <> [] -> Forall fits row -> at_start x ->
  x = START_FIELD \/ join_fields row <> "" ->
  run {| st := x; fields := fs; field := "" |} fresh
    (join_fields row ++ String LF T)
  = let '(rs, err) := run parse_reset true T in ((fs ++ row)%list :: rs, err).
Proof.
  revert fs x fresh. induction row as [|f row IH]; intros fs x fresh N F X E;
    [contradiction|].
  inversion F as [|? ? Ff Frow]; subst.
  destruct row as [|g row].
  - cbn [join_fields] in *. now apply run_field_eol.
  - rewrite join_fields_cons, append_assoc, append_cons.
    rewrite run_field_delim by assumption.
    rewrite IH; try assumption; try discriminate.
    + now rewrite <- app_assoc.
    + now right.
    + now left.
Qed.

Lemma map_field_text (row : list string) :
  map field_text (map VStr row) = row.
Proof. induction row as [|f row IH]; cbn; congruence. Qed.

Lemma writerow_text (row : list string) :
  writerow (map VStr row)
  = (record_text row ++ String CR (String LF ""))%string.
Proof.
  unfold writerow, record_text. rewrite map_field_text.
  destruct row; reflexivity.
Qed.

Lemma run_record (row : list string) (fresh : bool) (T : string) :
  Forall fits row ->
  run parse_reset fresh (record_text row ++ String LF T)
  = let '(rs, err) := run parse_reset true T in (row :: rs, err).
Proof.
  intros F. unfold record_text. destruct row as [|f row].
  - reflexivity.
  - destruct (join_fields (f :: row)) as [|c rec] eqn:J.
    + assert (f = "" /\ row = []) as [-> ->].
      { destruct row as [|g row].
        - cbn [join_fields] in J. split; [|reflexivity].
          destruct f as [|a f]; [reflexivity|].
          now apply write_field_nonempty in J.
        - rewrite join_fields_cons in J.
          destruct (write_field f); discriminate. }
      cbv zeta. apply (run_quoted_eol "" [] START_RECORD fresh T).
      * now left.
      * now inversion F.
    + cbv zeta. rewrite <- J.
      apply (run_join_fields (f :: row) [] START_RECORD fresh T);
        try assumption; try discriminate.
      * now left.
      * right. rewrite J. discriminate.
Qed.

Lemma has_cr_app (a b : string) :
  has_cr (a ++ b) = has_cr a || has_cr b.
Proof.
  induction a as [|c a IH]; [reflexivity|].
  rewrite append_cons. cbn [has_cr]. now rewrite IH, orb_assoc.
Qed.

Lemma has_cr_double_quotes (s : string) :
  has_cr (double_quotes s) = has_cr s.
Proof.
  induction s as [|c s IH]; [reflexivity|].
  cbn [double_quotes]. destruct (Ascii.eqb c QUOTE) eqn:Q.
  - apply Ascii.eqb_eq in Q. subst c. cbn [has_cr].
    change (Ascii.eqb QUOTE CR) with false. cbn [orb]. exact IH.
  - cbn [has_cr]. now rewrite IH.
Qed.

Lemma has_cr_write_field (f : string) : has_cr (write_field f) = has_cr f.
Proof.
  unfold write_field, quoted. destruct (needs_quotes f); [|reflexivity].
  cbn [has_cr]. change (Ascii.eqb QUOTE CR) with false. cbn [orb].
  rewrite has_cr_app, has_cr_double_quotes. cbn [has_cr].
  change (Ascii.eqb QUOTE CR) with false. cbn [orb]. apply orb_false_r.
Qed.

Lemma has_cr_join_fields (row : list string) :
  Forall (fun f => has_cr f = false) row -> has_cr (join_fields row) = false.
Proof.
  induction row as [|f row IH]; intros F; [reflexivity|].
  inversion F as [|? ? Hf Hrow]; subst.
  destruct row as [|g row].
  - cbn [join_fields]. now rewrite has_cr_write_field.
  - rewrite join_fields_cons, has_cr_app, has_cr_write_field, Hf.
    cbn [has_cr orb]. change (Ascii.eqb DELIM CR) with false.
    now apply IH.
Qed.

Lemma has_cr_record_text (row : list string) :
  Forall (fun f => has_cr f = false) row -> has_cr (record_text row) = false.
Proof.
  intros F. unfold record_text. destruct row as [|f row]; [reflexivity|].
  cbv zeta. destruct (join_fields (f :: row)) eqn:J; [reflexivity|].
  rewrite <- J. now apply has_cr_join_fields.
Qed.

(** Text without carriage return passes the newline translation as it
    is, and the terminator CR LF arrives as LF. *)
Lemma universal_newlines_line (s T : string) :
  has_cr s = false ->
  universal_newlines (s ++ String CR (String LF T))
  = (s ++ String LF (universal_newlines T))%string.
Proof.
  induction s as [|c s IH]; intros H.
  - reflexivity.
  - cbn [has_cr] in H. apply orb_false_iff in H as [Hc Hs].
    rewrite !append_cons. cbn [universal_newlines]. rewrite Hc.
    now rewrite IH.
Qed.

Lemma readable_row_split (row : list string) :
  readable_row row ->
  Forall fits row /\ Forall (fun f => has_cr f = false) row.
Proof.
  unfold readable_row. rewrite !Forall_forall. intros H.
  split; intros f I; now apply H.
Qed.

(** What the writer writes for readable rows, the reader reads back. *)
Lemma csv_round_trip (rows : list (list string)) :
  Forall readable_row rows ->
  read_records parse_reset (readlines (writerows (map (map VStr) rows)))
  = (rows, None).
Proof.
  intros F. unfold readlines.
  rewrite (run_read_records _ "" parse_reset parse_reset eq_refl).
  change (String.eqb "" "") with true.
  induction rows as [|row rows IH]; [reflexivity|].
  inversion F as [|? ? Hrow Hrows]; subst.
  apply readable_row_split in Hrow as [Hf Hc].
  cbn [map writerows]. rewrite writerow_text, append_assoc.
  rewrite append_cons, append_cons. cbn [String.append].
  rewrite universal_newlines_line by now apply has_cr_record_text.
  rewrite run_record by assumption.
  change ("" ++ writerows (map (map VStr) rows))%string
    with (writerows (map (map VStr) rows)).
  now rewrite IH.
Qed.

End CsvFacts.

(** ** Saving and loading storable records *)

Lemma dict_to_list_row_of (e : Expense) :
  _dict_to_list (row_of e)
  = [VStr (date e); VStr (category e); VFloat (amount e);
     VStr (description e)].
Proof.
  unfold _dict_to_list, row_of, fieldnames, to_dict. cbn [map].
  cbn [d_date d_category d_amount d_description].
  now simplify_map_eq.
Qed.

Lemma file_text_rows (es : list Expense) :
  file_text es
  = Csv.writerows (map (map VStr) (fieldnames :: map cells es)).
Proof.
  unfold file_text, writeheader. cbn [map Csv.writerows]. f_equal.
  induction es as [|e es IH]; [reflexivity|].
  cbn [map Csv.writerows]. rewrite IH, dict_to_list_row_of. reflexivity.
Qed.

Lemma readable_fieldnames : CsvRun.readable_row fieldnames.
Proof.
  unfold CsvRun.readable_row, fieldnames, CsvRun.fits.
  repeat constructor; vm_compute; congruence.
Qed.

Lemma dict_rows_cells (es : list Expense) :
  Csv.dict_rows (fieldnames :: map cells es)
  = map (fun e => row4 (Some (date e)) (Some (category e))
                    (Some (PyFloat.repr (amount e))) (Some (description e)))
      es.
Proof.
  unfold Csv.dict_rows.
  replace (filter (fun c => negb (Csv.is_blank c)) (map cells es))
    with (map cells es).
  - rewrite map_map. reflexivity.
  - induction es as [|e es IH]; [reflexivity|].
    cbn [map]. rewrite filter_cons_True by exact I. now rewrite <- IH.
Qed.

Lemma load_rows_reloading (t : datetime) (es acc : list Expense) :
  Forall (reloads t) es ->
  load_rows t
    (map (fun e => row4 (Some (date e)) (Some (category e))
                     (Some (PyFloat.repr (amount e))) (Some (description e)))
       es) acc
  = ((acc ++ map (restamp t) es)%list, None).
Proof.
  revert acc. induction es as [|e es IH]; intros acc F.
  - cbn. now rewrite app_nil_r.
  - inversion F as [|? ? He Hes]; subst.
    cbn [map load_rows]. rewrite expense_of_row_row4.
    unfold reloads in He. cbn [cell]. rewrite He.
    rewrite IH by assumption. now rewrite <- app_assoc.
Qed.

Lemma load_text_storable (t : datetime) (es : list Expense) :
  Forall (storable t) es ->
  load_text t (file_text es) = (map (restamp t) es, None).
Proof.
  intros F. unfold load_text. rewrite file_text_rows, CsvFacts.csv_round_trip.
  - rewrite dict_rows_cells, load_rows_reloading; [reflexivity|].
    eapply Forall_impl; [exact F|]. now intros e [_ R].
  - constructor; [exact readable_fieldnames|].
    apply Forall_map. eapply Forall_impl; [exact F|]. now intros e [R _].
Qed.

(** X1: when the file can be written and read, saving a collection of
    storable records succeeds and loading afterwards gives the same records
    in the same order, each with the time of loading as its creation
    time. *)
Theorem X1_save_then_load_storable (es : list Expense) (w : world) :
  can_write w = true -> can_read w = true ->
  Forall (storable (now w)) es ->
  exists w',
    save_expenses es w = (w', Ok true)
    /\ load_expenses w' = (w', Ok (map (restamp (now w)) es)).
Proof.
  intros W R F. destruct (save_then_load es w W R) as (w' & S & L).
  exists w'. split; [exact S|].
  now rewrite L, load_text_storable.
Qed.

Ltac storable_by_computation :=
  repeat (apply List.Forall_cons;
          [split;
           [repeat (apply List.Forall_cons;
                    [split; [vm_compute; congruence|vm_compute; reflexivity]|]);
            apply List.Forall_nil
           |vm_compute; reflexivity]|]);
  apply List.Forall_nil.

Lemma X1_save_then_load_storable_witness :
  exists w',
    save_expenses [lunch; note two_lines_lf] fresh_world = (w', Ok true)
    /\ load_expenses w' = (w', Ok [lunch; note two_lines_lf]).
Proof.
  apply (X1_save_then_load_storable [lunch; note two_lines_lf] fresh_world);
    try reflexivity.
  storable_by_computation.
Defined.

Module StrptimeFacts.
Import Strptime.

Lemma reads_one (lo hi : Z) :
  48 <= lo -> hi <= 57 -> reads (one lo hi) 1 (lo - 48) (hi - 48).
Proof.
  intros L H s v r. unfold one. destruct s as [|c s]; [discriminate|].
  destruct (in_range lo hi c) eqn:I; [|discriminate].
  intros [= <- <-]. exists (String c ""). unfold in_range in I.
  apply andb_true_iff in I as [I1 I2].
  apply Z.leb_le in I1, I2.
  repeat split; cbn [String.length date_chars]; try lia.
  - unfold date_char, is_digit.
    replace (48 <=? code c) with true by (symmetry; apply Z.leb_le; lia).
    replace (code c <=? 57) with true by (symmetry; apply Z.leb_le; lia).
    reflexivity.
  - unfold digit_val. lia.
  - unfold digit_val. lia.
Qed.

Lemma reads_lit (ch : ascii) (v : Z) :
  date_char ch = true -> reads (lit ch v) 1 v v.
Proof.
  intros D s v' r. unfold lit. destruct s as [|c s]; [discriminate|].
  destruct (Ascii.eqb c ch) eqn:E; [|discriminate].
  apply Ascii.eqb_eq in E. subst c. intros [= <- <-].
  exists (String ch ""). cbn [String.length date_chars]. rewrite D.
  repeat split; lia.
Qed.

Lemma date_chars_app (a b : string) :
  date_chars (a ++ b) = date_chars a && date_chars b.
Proof.
  induction a as [|c a IH]; [reflexivity|].
  rewrite CsvFacts.append_cons. cbn [date_chars]. now rewrite IH, andb_assoc.
Qed.

Lemma reads_two (a b : piece) (n m : nat) (la ha lb hb : Z) :
  reads a n la ha -> reads b m lb hb ->
  reads (two a b) (n + m) (10 * la + lb) (10 * ha + hb).
Proof.
  intros A B s v r. unfold two.
  destruct (a s) as [[x r1]|] eqn:Ea; [|discriminate].
  destruct (b r1) as [[y r2]|] eqn:Eb; [|discriminate].
  intros [= <- <-].
  destruct (A _ _ _ Ea) as (p & -> & Lp & Cp & Vp).
  destruct (B _ _ _ Eb) as (q & -> & Lq & Cq & Vq).
  exists (p ++ q)%string.
  rewrite CsvFacts.append_assoc, CsvFacts.length_app, date_chars_app, Cp, Cq.
  repeat split; lia.
Qed.

Lemma reads_weaken (a : piece) (n n' : nat) (lo hi lo' hi' : Z) :
  reads a n lo hi -> (n <= n')%nat -> lo' <= lo -> hi <= hi' ->
  reads a n' lo' hi'.
Proof.
  intros A N L H s v r E. destruct (A _ _ _ E) as (p & -> & Lp & Cp & Vp).
  exists p. repeat split; try assumption; lia.
Qed.

Lemma reads_year : reads year4 4 0 9999.
Proof.
  unfold year4, digit.
  pose proof (reads_one 48 57 ltac:(lia) ltac:(lia)) as D.
  apply (reads_weaken _ _ _ _ _ _ _
           (reads_two _ _ _ _ _ _ _ _
              (reads_two _ _ _ _ _ _ _ _ (reads_two _ _ _ _ _ _ _ _ D D) D)
              D)); lia.
Qed.

Lemma reads_month (a : piece) : In a month_alts -> reads a 2 1 12.
Proof.
  unfold month_alts. intros [<- | [<- | [<- | []]]].
  - eapply reads_weaken;
      [apply reads_two; [apply (reads_lit "1" 1); reflexivity
                        |apply (reads_one 48 50); lia]|..]; lia.
  - eapply reads_weaken;
      [apply reads_two; [apply (reads_lit "0" 0); reflexivity
                        |apply (reads_one 49 57); lia]|..]; lia.
  - eapply reads_weaken; [apply (reads_one 49 57); lia|..]; lia.
Qed.

Lemma reads_day (a : piece) : In a day_alts -> reads a 2 1 31.
Proof.
  unfold day_alts. intros [<- | [<- | [<- | [<- | [<- | []]]]]].
  - eapply reads_weaken;
      [apply reads_two; [apply (reads_lit "3" 3); reflexivity
                        |apply (reads_one 48 49); lia]|..]; lia.
  - eapply reads_weaken;
      [apply reads_two; [apply (reads_one 49 50); lia
                        |apply (reads_one 48 57); lia]|..]; lia.
  - eapply reads_weaken;
      [apply reads_two; [apply (reads_lit "0" 0); reflexivity
                        |apply (reads_one 49 57); lia]|..]; lia.
  - eapply reads_weaken; [apply (reads_one 49 57); lia|..]; lia.
  - eapply reads_weaken;
      [apply reads_two; [apply (reads_lit " " 0); reflexivity
                        |apply (reads_one 49 57); lia]|..]; lia.
Qed.

Lemma alt_some {A} (alts : list piece) (k : Z -> string -> option A)
    (s : string) (x : A) :
  alt alts k s = Some x ->
  exists a v r, In a alts /\ a s = Some (v, r) /\ k v r = Some x.
Proof.
  induction alts as [|a alts IH]; [discriminate|]. cbn [alt].
  destruct (a s) as [[v r]|] eqn:E.
  - destruct (k v r) as [y|] eqn:K.
    + intros [= <-]. exists a, v, r. repeat split; auto. now left.
    + intros H. destruct (IH H) as (a' & v' & r' & I & E' & K').
      exists a', v', r'. repeat split; auto. now right.
  - intros H. destruct (IH H) as (a' & v' & r' & I & E' & K').
    exists a', v', r'. repeat split; auto. now right.
Qed.

Lemma dash_some {A} (k : string -> option A) (s : string) (x : A) :
  dash k s = Some x -> exists r, s = String "-" r /\ k r = Some x.
Proof.
  unfold dash. destruct s as [|c s]; [discriminate|].
  destruct c as [[] [] [] [] [] [] [] []]; try discriminate. eauto.
Qed.

(** What the pattern matched: at most ten date characters, read as a year
    up to 9999, a month from 1 to 12 and a day from 1 to 31. *)
Lemma regex_match_some (s tl : string) (y m d : Z) :
  regex_match s = Some (y, m, d, tl) ->
  exists p, s = (p ++ tl)%string /\ (String.length p <= 10)%nat
            /\ date_chars p = true
            /\ 0 <= y <= 9999 /\ 1 <= m <= 12 /\ 1 <= d <= 31.
Proof.
  unfold regex_match. destruct (year4 s) as [[y0 r0]|] eqn:Y; [|discriminate].
  intros H.
  apply dash_some in H as (r1 & -> & H).
  apply alt_some in H as (am & vm & r2 & Im & Em & H).
  apply dash_some in H as (r3 & -> & H).
  apply alt_some in H as (ad & vd & r4 & Id & Ed & H).
  injection H as <- <- <- <-.
  destruct (reads_year _ _ _ Y) as (py & -> & Ly & Cy & Vy).
  destruct (reads_month am Im _ _ _ Em) as (pm & -> & Lm & Cm & Vm).
  destruct (reads_day ad Id _ _ _ Ed) as (pd & -> & Ld & Cd & Vd).
  exists (py ++ String "-" (pm ++ String "-" pd))%string.
  split.
  { rewrite !CsvFacts.append_assoc, CsvFacts.append_cons.
    now rewrite !CsvFacts.append_assoc, CsvFacts.append_cons. }
  rewrite !CsvFacts.length_app, !date_chars_app. cbn [String.length date_chars].
  rewrite !CsvFacts.length_app, !date_chars_app. cbn [String.length date_chars].
  rewrite Cy, Cm, Cd.
  repeat split; try lia; reflexivity.
Qed.

Lemma strptime_ok (s : string) (t : datetime) :
  strptime s = Ok t ->
  calendar_date t /\ (String.length s <= 10)%nat /\ date_chars s = true.
Proof.
  unfold strptime.
  destruct (regex_match s) as [[[[y m] d] tl]|] eqn:R; [|discriminate].
  destruct (String.eqb_spec tl ""); cbn [negb]; [subst tl|discriminate].
  destruct ((y <? 1) || (days_in_month y m <? d)) eqn:B; [discriminate|].
  intros [= <-]. apply orb_false_iff in B as [B1 B2].
  apply Z.ltb_ge in B1, B2.
  apply regex_match_some in R as (p & -> & L & C & Vy & Vm & Vd).
  rewrite CsvFacts.append_nil_r.
  unfold calendar_date. cbn. repeat split; try lia; assumption.
Qed.

End StrptimeFacts.

Lemma round_aux_not_negative (mz ez : Z) (lz : location) :
  PyFloat.ltb (binary_round_aux 53 1024 false mz ez lz) PyFloat.zero = false.
Proof.
  unfold binary_round_aux.
  destruct (shr_fexp 53 1024 mz ez lz) as [mrs e'].
  destruct (shr_fexp 53 1024 _ e' loc_Exact) as [mrs' e''].
  destruct (shr_m mrs') as [|m|m]; try reflexivity.
  now destruct (e'' <=? 1024 - 53).
Qed.

Lemma of_Q_not_negative (q : Q) :
  PyFloat.ltb (PyFloat.of_Q false q) PyFloat.zero = false.
Proof.
  unfold PyFloat.of_Q, PyFloat.of_ratio.
  destruct (Qnum q) as [|n|n]; try reflexivity.
  destruct (SFdiv_core_binary _ _ _ _ _ _) as [[mz ez] lz].
  apply round_aux_not_negative.
Qed.

(** Rounding a float that does not compare at or below zero never gives a
    negative amount. *)
Lemma round2_not_negative (f : float) :
  PyFloat.leb f PyFloat.zero = false ->
  PyFloat.ltb (PyFloat.round2 f) PyFloat.zero = false.
Proof.
  destruct f as [s|s| |s m e]; try discriminate; try reflexivity.
  - destruct s; [discriminate|reflexivity].
  - destruct s; [discriminate|]. intros _. apply of_Q_not_negative.
Qed.

Lemma validate_category_in c x :
  _validate_category c = Ok x -> In x CATEGORIES.
Proof.
  destruct c as [|s| | |]; simpl; try discriminate.
  destruct (_ || _) eqn:E; [|discriminate]. intros [= <-].
  change (existsb (String.eqb s) CATEGORIES = true) in E.
  apply existsb_exists in E as (y & I & E).
  apply String.eqb_eq in E. now subst.
Qed.

Lemma validate_date_strptime d x :
  _validate_date d = Ok x -> exists t, Strptime.strptime x = Ok t.
Proof.
  intros H. pose proof (validate_date_ok _ _ H) as ->.
  unfold _validate_date in H. cbn [py_strptime] in H.
  destruct (Strptime.strptime x) as [t|e]; [eauto|].
  cbn in H. now destruct (exn_eqb e ValueError || false).
Qed.

Lemma Expense_init_record t a c d s e :
  Expense_init t a c d s = Ok e -> valid_record e.
Proof.
  intros E. apply Expense_init_ok in E as (Ha & Hc & Hd & Hs & Ht).
  repeat split.
  - apply validate_amount_ok in Ha as (f & _ & P & ->).
    now apply round2_not_negative.
  - eapply validate_category_in, Hc.
  - destruct (validate_date_strptime _ _ Hd) as [dt D].
    exists dt. split; [exact D|].
    now apply StrptimeFacts.strptime_ok in D.
  - destruct s as [|s0| | |]; try discriminate Hs.
    cbn [py_strip] in Hs. injection Hs as <-. apply strip_idem.
Qed.

(** X2: a record that construction returns has an amount that is not
    negative, a category of the list, a date that parses to a real calendar
    date and a description without white space at either end; its creation
    time is the clock reading, and its category and date are the very
    strings that were passed. *)
Theorem X2_Expense_init_valid t a c d s e :
  Expense_init t a c d s = Ok e ->
  valid_record e /\ created_at e = t
  /\ c = VStr (category e) /\ d = VStr (date e).
Proof.
  intros E. split; [now apply Expense_init_record in E|].
  apply Expense_init_ok in E as (Ha & Hc & Hd & Hs & Ht).
  repeat split.
  - exact Ht.
  - eapply validate_category_ok, Hc.
  - eapply validate_date_ok, Hd.
Qed.

Lemma X2_Expense_init_valid_witness :
  valid_record lunch /\ created_at lunch = sample_clock
  /\ VStr "Food" = VStr (category lunch)
  /\ VStr "2024-03-01" = VStr (date lunch).
Proof.
  apply (X2_Expense_init_valid sample_clock (VFloat twelve_and_a_half)
           (VStr "Food") (VStr "2024-03-01") (VStr "Lunch") lunch).
  vm_compute. reflexivity.
Defined.

Lemma load_rows_valid (t : datetime) (rows : list Csv.row)
    (acc : list Expense) :
  Forall valid_record acc ->
  Forall valid_record (fst (load_rows t rows acc)).
Proof.
  revert acc. induction rows as [|r rows IH]; intros acc F; [exact F|].
  cbn [load_rows]. destruct (expense_of_row t r) as [e|x] eqn:E.
  - apply IH. apply Forall_app. split; [exact F|].
    constructor; [|constructor].
    unfold expense_of_row in E.
    repeat match type of E with
           | bind ?m _ = _ => destruct m; cbn [bind] in E; [|discriminate]
           end.
    now apply Expense_init_record in E.
  - destruct x; try exact F. now apply IH.
Qed.

(** X3: every record [load_expenses] returns is a valid record, whatever
    the file holds: its amount is not negative, its category is of the
    list, its date is a real calendar date, its description is stripped. *)
Theorem X3_load_expenses_valid (w : world) (l : list Expense) :
  snd (load_expenses w) = Ok l -> Forall valid_record l.
Proof.
  unfold load_expenses, read_live.
  destruct (live w) as [text|]; [|intros [= <-]; constructor].
  destruct (can_read w); cbn [snd]; [|intros [= <-]; constructor].
  intros [= <-]. unfold load_text.
  destruct (Csv.read_records _ _) as [records err].
  pose proof (load_rows_valid (now w) (Csv.dict_rows records) []
                (List.Forall_nil _)) as V.
  destruct (load_rows _ _ _) as [l [x|]]; exact V.
Qed.

Lemma X3_load_expenses_valid_witness :
  Forall valid_record [ok_row sample_clock].
Proof.
  apply (X3_load_expenses_valid
           {| now := sample_clock; live := Some bad_amount_file;
              backups := ∅; can_read := true; can_write := true;
              can_copy := true |}).
  vm_compute. reflexivity.
Defined.

Lemma date_chars_no_cr (s : string) :
  date_chars s = true -> CsvRun.has_cr s = false.
Proof.
  induction s as [|c s IH]; [reflexivity|].
  cbn [date_chars CsvRun.has_cr]. intros H.
  apply andb_true_iff in H as [Hc Hs]. rewrite (IH Hs), orb_false_r.
  destruct (Ascii.eqb_spec c Csv.CR) as [->|]; [discriminate|reflexivity].
Qed.

Lemma category_readable (c : string) :
  In c CATEGORIES -> CsvRun.fits c /\ CsvRun.has_cr c = false.
Proof.
  unfold CATEGORIES, CsvRun.fits. cbn [In]. intros H.
  repeat (destruct H as [<- | H]; [split; vm_compute; congruence|]).
  contradiction.
Qed.

(** A constructed record is storable as soon as its amount and its
    description survive the file. *)
Lemma valid_record_storable (t : datetime) (e : Expense) :
  valid_record e -> amount_survives e -> description_survives e ->
  storable t e.
Proof.
  intros (_ & Hc & (dt & Hd & _) & Hs) (Fa & Ca & Ra) (Fd & Cd).
  pose proof (StrptimeFacts.strptime_ok _ _ Hd) as (_ & Ld & Dd).
  destruct (category_readable _ Hc) as [Fc Cc].
  split.
  - unfold CsvRun.readable_row, cells. repeat constructor; try assumption.
    + unfold CsvRun.fits, Csv.field_limit. lia.
    + now apply date_chars_no_cr.
  - unfold reloads, Expense_init. rewrite Ra. cbn [bind].
    unfold _validate_category.
    replace (existsb (String.eqb (category e)) CATEGORIES) with true.
    2:{ symmetry. apply existsb_exists. exists (category e).
        split; [exact Hc|apply String.eqb_refl]. }
    cbn [bind]. unfold _validate_date. cbn [py_strptime]. rewrite Hd.
    cbn [bind try_except py_strip]. now rewrite Hs.
Qed.



Lemma strptime_raises (s : string) (e : exn) :
  Strptime.strptime s = Raise e -> e = ValueError.
Proof.
  unfold Strptime.strptime.
  destruct (Strptime.regex_match s) as [[[[y m] d] tl]|]; [|congruence].
  destruct (negb _); [congruence|].
  destruct (_ || _); congruence.
Qed.

(** X5: whatever text [utils.validate_date] is given, it returns, raises
    nothing and leaves the world alone; a date it accepts is a real
    calendar date not after the day the clock shows, and [Expense] accepts
    it unchanged. *)
Theorem X5_validate_date_agrees (s : string) (w : world) :
  (exists r, validate_date s w = (w, Ok r))
  /\ (forall w' msg, validate_date s w = (w', Ok (true, msg)) ->
      exists t, Strptime.strptime s = Ok t
                /\ calendar_date t
                /\ date_gt t (now w) = false
                /\ _validate_date (VStr s) = Ok s).
Proof.
  unfold validate_date.
  destruct (String.eqb s ""); [split; [eauto|discriminate]|].
  destruct (Strptime.strptime s) as [t|e] eqn:P; cbn [bind try_except].
  - destruct (date_gt t (now w)) eqn:G; [split; [eauto|discriminate]|].
    split; [eauto|]. intros w' msg _. exists t.
    split; [reflexivity|]. split; [|split; [exact G|]].
    + now destruct (StrptimeFacts.strptime_ok _ _ P).
    + unfold _validate_date. cbn [py_strptime]. now rewrite P.
  - apply strptime_raises in P as ->. cbn. split; [eauto|discriminate].
Qed.

Lemma X5_validate_date_agrees_witness :
  exists t, Strptime.strptime "2024-03-01" = Ok t
            /\ calendar_date t
            /\ date_gt t (now fresh_world) = false
            /\ _validate_date (VStr "2024-03-01") = Ok "2024-03-01".
Proof.
  apply (proj2 (X5_validate_date_agrees "2024-03-01" fresh_world)
           fresh_world "").
  vm_compute. reflexivity.
Defined.

(** [restore_backup] never raises. It answers [True] exactly when it has
    put the text of the named file into the live file, the backups being
    as before; when it answers [False] the world is as before. *)
Theorem restore_backup_spec (path : string) (w : world) :
  exists w' b,
    restore_backup path w = (w', Ok b)
    /\ (if b then
          exists text, file_at w path = Some text
                       /\ path <> expenses_file
                       /\ w' = set_live w text
        else w' = w).
Proof.
  unfold restore_backup, io_bind, try_io, path_exists, copy2_to_live, ret.
  destruct (file_at w path) as [text|] eqn:F.
  - destruct (String.eqb_spec path expenses_file) as [E|E].
    + exists w; exists false. rewrite ?F. auto.
    + destruct (can_copy w && can_write w).
      * exists (set_live w text); exists true. rewrite ?F.
        split; [reflexivity|]. eauto.
      * exists w; exists false. rewrite ?F. auto.
  - exists w; exists false. rewrite ?F. auto.
Qed.

Lemma file_at_backup_path (w : world) (t : datetime) :
  file_at w (backup_path t) = backups w !! backup_name t.
Proof. reflexivity. Qed.

Lemma file_at_set_live (w : world) (text : string) (t : datetime) :
  file_at (set_live w text) (backup_path t) = file_at w (backup_path t).
Proof. reflexivity. Qed.

(** With a live file and a copy that goes through, [create_backup] puts
    the live text under the backup name of the moment, answers its path
    and changes nothing else. *)
Lemma create_backup_copies (w : world) (old : string) :
  live w = Some old -> can_copy w = true ->
  create_backup w
  = (set_backup w (backup_name (now w)) old, Ok (Some (backup_path (now w)))).
Proof.
  intros L C.
  cbv [create_backup try_io io_bind exists_live clock copy2_live ret].
  repeat (first [rewrite L | rewrite C]; cbv beta iota).
  reflexivity.
Qed.

Lemma save_expenses_with_backup (es : list Expense) (w : world)
    (old : string) :
  live w = Some old -> can_copy w = true -> can_write w = true ->
  save_expenses es w
  = (set_live (set_backup w (backup_name (now w)) old) (file_text es),
     Ok true).
Proof.
  intros L C W. unfold save_expenses, try_io, io_bind.
  rewrite (create_backup_copies w old L C).
  cbv [write_live ret].
  replace (can_write (set_backup w (backup_name (now w)) old)) with true
    by (symmetry; exact W).
  reflexivity.
Qed.

(** X7: the safety net of [save_expenses]: when the live file exists and
    the copy and the write go through, the save has left the previous text
    under the backup path of the moment, and restoring that path puts the
    previous text back into the live file. *)
Theorem X7_save_then_restore (es : list Expense) (w : world) (old : string) :
  live w = Some old -> can_copy w = true -> can_write w = true ->
  exists w1 w2,
    save_expenses es w = (w1, Ok true)
    /\ live w1 = Some (file_text es)
    /\ file_at w1 (backup_path (now w)) = Some old
    /\ restore_backup (backup_path (now w)) w1 = (w2, Ok true)
    /\ live w2 = Some old.
Proof.
  intros L C W. rewrite (save_expenses_with_backup es w old L C W).
  set (w1 := set_live _ _).
  assert (F : file_at w1 (backup_path (now w)) = Some old).
  { unfold w1. rewrite file_at_set_live, file_at_backup_path.
    cbn [backups set_backup]. apply lookup_insert_eq. }
  exists w1, (set_live w1 old).
  split; [reflexivity|]. split; [reflexivity|]. split; [exact F|].
  split; [|reflexivity].
  cbv [restore_backup io_bind try_io path_exists copy2_to_live ret].
  rewrite F.
  change (String.eqb (backup_path (now w)) expenses_file) with false.
  replace (can_copy w1) with true by (symmetry; exact C).
  replace (can_write w1) with true by (symmetry; exact W).
  cbv beta iota. rewrite F. reflexivity.
Qed.

Lemma X7_save_then_restore_witness :
  let w := {| now := sample_clock; live := Some (file_text [tea]);
              backups := ∅; can_read := true; can_write := true;
              can_copy := true |} in
  exists w1 w2,
    save_expenses [lunch] w = (w1, Ok true)
    /\ live w1 = Some (file_text [lunch])
    /\ file_at w1 (backup_path sample_clock) = Some (file_text [tea])
    /\ restore_backup (backup_path sample_clock) w1 = (w2, Ok true)
    /\ live w2 = Some (file_text [tea]).
Proof.
  intros w.
  apply (X7_save_then_restore [lunch] w (file_text [tea])); reflexivity.
Defined.

Lemma str_ltb_cotrans (a b c : string) :
  str_ltb a c = true -> str_ltb a b = true \/ str_ltb b c = true.
Proof.
  revert b c. induction a as [|x a IH]; intros [|y b] [|z c]; cbn;
    try discriminate; auto.
  destruct (Z.ltb_spec (code x) (code y)), (Z.ltb_spec (code y) (code x)),
    (Z.ltb_spec (code y) (code z)), (Z.ltb_spec (code z) (code y)),
    (Z.ltb_spec (code x) (code z)), (Z.ltb_spec (code z) (code x));
    try discriminate; auto; try lia.
Qed.

Lemma insert_desc_perm (x : backup_entry) (l : list backup_entry) :
  Permutation (insert_desc x l) (x :: l).
Proof.
  induction l as [|y l IH]; cbn; [reflexivity|].
  destruct (str_ltb (filename x) (filename y)); [|reflexivity].
  rewrite IH. apply perm_swap.
Qed.

Lemma sort_desc_perm (l : list backup_entry) : Permutation (sort_desc l) l.
Proof.
  induction l as [|x l IH]; cbn; [reflexivity|].
  now rewrite insert_desc_perm, IH.
Qed.

Lemma insert_desc_sorted (x : backup_entry) (l : list backup_entry) :
  newest_first l -> newest_first (insert_desc x l).
Proof.
  unfold newest_first. induction l as [|y l IH]; intros S; cbn.
  - constructor; constructor.
  - inversion S as [|? ? S' F]; subst.
    destruct (str_ltb (filename x) (filename y)) eqn:L.
    + constructor; [now apply IH|].
      rewrite List.Forall_forall in *. intros z Hz.
      apply (Permutation_in _ (insert_desc_perm x l)) in Hz.
      destruct Hz as [<- | Hz]; [|now apply F].
      destruct (str_ltb (filename y) (filename x)) eqn:R; [|reflexivity].
      pose proof (str_ltb_trans _ _ _ R L) as T.
      now rewrite str_ltb_irrefl in T.
    + constructor; [exact S|]. constructor; [exact L|].
      rewrite List.Forall_forall in *. intros z Hz.
      destruct (str_ltb (filename x) (filename z)) eqn:R; [|reflexivity].
      destruct (str_ltb_cotrans _ (filename y) _ R) as [C | C];
        [congruence|]. now rewrite (F z Hz) in C.
Qed.

Lemma sort_desc_sorted (l : list backup_entry) : newest_first (sort_desc l).
Proof.
  induction l as [|x l IH]; cbn; [constructor|].
  now apply insert_desc_sorted.
Qed.

Lemma collect_backups_names getsize (names : list string)
    (acc l : list backup_entry) :
  collect_backups getsize names acc = Ok l ->
  map filename l = (map filename acc ++ csv_names names)%list
  /\ (Forall (fun b => filepath b = path_join backup_folder (filename b)
                       /\ getsize (filepath b) = Ok (filesize b)) acc ->
      Forall (fun b => filepath b = path_join backup_folder (filename b)
                       /\ getsize (filepath b) = Ok (filesize b)) l).
Proof.
  revert acc. induction names as [|file names IH]; intros acc; cbn.
  - intros [= <-]. now rewrite app_nil_r.
  - destruct (endswith file ".csv"); [|apply IH].
    destruct (getsize (path_join backup_folder file)) as [n|e] eqn:G;
      cbn [bind]; [|discriminate].
    intros H. apply IH in H as [N F]. split.
    + rewrite N, map_app. cbn. now rewrite <- app_assoc.
    + intros A. apply F. apply Forall_app. split; [exact A|].
      constructor; [|constructor]. cbn. auto.
Qed.

(** A size that cannot be read makes the loop fail. *)
Lemma collect_backups_raises getsize (names : list string)
    (acc : list backup_entry) (file : string) (e : exn) :
  In file (csv_names names) ->
  getsize (path_join backup_folder file) = Raise e ->
  exists e', collect_backups getsize names acc = Raise e'.
Proof.
  revert acc. induction names as [|f names IH]; intros acc; cbn;
    [contradiction|].
  destruct (endswith f ".csv") eqn:E; [|apply IH].
  intros [<- | I] G.
  - rewrite G. cbn. eauto.
  - destruct (getsize (path_join backup_folder f)); cbn; eauto.
Qed.

(** X8: [list_backups] raises nothing. Its entries come with the greatest
    file name first; each has as path the backup folder joined with its
    name and as size what the system gives for that path. When the folder
    can be listed and every size read, the names are exactly the listed
    names ending in [.csv]; when the folder cannot be listed, or a single
    size cannot be read, the answer is the empty list. *)
Theorem X8_list_backups_spec (listdir : res (list string))
    (getsize : string -> res Z) :
  let l := list_backups listdir getsize in
  newest_first l
  /\ Forall (fun b => filepath b = path_join backup_folder (filename b)
                      /\ getsize (filepath b) = Ok (filesize b)) l
  /\ (forall names, listdir = Ok names ->
        (forall file, In file (csv_names names) ->
           exists n, getsize (path_join backup_folder file) = Ok n) ->
        Permutation (map filename l) (csv_names names))
  /\ (forall e, listdir = Raise e -> l = [])
  /\ (forall names file e, listdir = Ok names ->
        In file (csv_names names) ->
        getsize (path_join backup_folder file) = Raise e -> l = []).
Proof.
  unfold list_backups. destruct listdir as [names|e0]; cbn [bind].
  - destruct (collect_backups getsize names []) as [bs|e1] eqn:C; cbn [bind].
    + pose proof (collect_backups_names _ _ _ _ C) as [N F].
      repeat split.
      * apply sort_desc_sorted.
      * specialize (F (List.Forall_nil _)).
        rewrite List.Forall_forall in *. intros b Hb. apply F.
        now apply (Permutation_in _ (sort_desc_perm bs)).
      * intros ? [= <-] _.
        rewrite (Permutation_map filename (sort_desc_perm bs)), N.
        reflexivity.
      * discriminate.
      * intros ? file e [= <-] I G.
        destruct (collect_backups_raises getsize names [] file e I G)
          as [e' R].
        congruence.
    + repeat split; try constructor; try discriminate.
      intros ? [= <-] A. exfalso.
      assert (H : forall acc, exists l,
                    collect_backups getsize names acc = Ok l).
      { clear C. induction names as [|f names IH]; intros acc; cbn;
          [eauto|].
        destruct (endswith f ".csv") eqn:E.
        - destruct (A f) as [n ->]; [cbn; rewrite E; now left|].
          cbn. apply IH. intros file I. apply A. cbn. rewrite E. now right.
        - apply IH. intros file I. apply A. cbn. now rewrite E. }
      destruct (H []) as [l' H']. congruence.
  - repeat split; try constructor; discriminate.
Qed.

Lemma X8_list_backups_spec_witness :
  let names := ["expenses_backup_20240101_000000.csv"; "notes.txt";
                "expenses_backup_20240309_070501.csv"] in
  let getsize := fun _ : string => Ok 10 in
  Permutation (map filename (list_backups (Ok names) getsize))
    (csv_names names).
Proof.
  intros names getsize.
  destruct (X8_list_backups_spec (Ok names) getsize) as (_ & _ & P & _).
  apply (P names eq_refl). intros file _. exists 10. reflexivity.
Defined.

Lemma sum_counts_insert (m : gmap string month_stat) (k : string)
    (st : month_stat) :
  m !! k = None -> sum_counts (<[k := st]> m) = count st + sum_counts m.
Proof.
  intros N. unfold sum_counts.
  apply (map_fold_insert_L (fun _ st acc => count st + acc)); [|exact N].
  intros. lia.
Qed.

Lemma sum_counts_lookup (m : gmap string month_stat) (k : string)
    (st : month_stat) :
  m !! k = Some st -> sum_counts m = count st + sum_counts (delete k m).
Proof.
  intros S. rewrite <- (insert_delete_id m k st S) at 1.
  apply sum_counts_insert, lookup_delete_eq.
Qed.

(** One more record makes the counts add up to one more. *)
Lemma sum_counts_count_month (m : gmap string month_stat) (e : Expense) :
  sum_counts (count_month m e) = sum_counts m + 1.
Proof.
  unfold count_month. set (k := take 7 (date e)).
  destruct (m !! k) as [st|] eqn:M.
  - rewrite (sum_counts_lookup m k st M).
    rewrite (sum_counts_lookup (alter _ k m) k
               {| total := PyFloat.add (total st) (amount e);
                  count := count st + 1 |}).
    + rewrite delete_alter_eq. cbn [count]. lia.
    + now rewrite lookup_alter_eq, M.
  - rewrite alter_insert_eq, sum_counts_insert by exact M. cbn [count]. lia.
Qed.

Lemma sum_counts_fold (es : list Expense) (m : gmap string month_stat) :
  sum_counts (fold_left count_month es m)
  = sum_counts m + Z.of_nat (length es).
Proof.
  revert m. induction es as [|e es IH]; intros m; cbn [fold_left length].
  - lia.
  - rewrite IH, sum_counts_count_month. lia.
Qed.

(** X9: the statistics agree with one another and with the other queries:
    the monthly counts add up to the count; the maximum is not below the
    minimum and the end date not before the start date; the total is what
    [get_total_expenses] gives; and the entry of a month of the form
    YYYY-MM counts the records [get_monthly_expenses] selects for it. *)
Theorem X9_statistics_consistent
    (RG : Type) (builtin_sum : list float -> float)
    (self : ExpenseManager RG) (s : statistics) :
  get_statistics RG builtin_sum self = Ok (Stats s) ->
  sum_counts (s_monthly_stats s) = s_count s
  /\ PyFloat.ltb (s_max s) (s_min s) = false
  /\ str_ltb (s_end_date s) (s_start_date s) = false
  /\ s_total s = get_total_expenses RG builtin_sum self
  /\ (forall month w, is_month_form month = true ->
        match s_monthly_stats s !! month with
        | Some st =>
            count st
            = Z.of_nat (length (get_monthly_expenses RG (Some month) self w))
        | None => get_monthly_expenses RG (Some month) self w = []
        end).
Proof.
  unfold get_statistics, get_total_expenses.
  destruct (expenses self) as [|e rest] eqn:E; [discriminate|].
  cbn [map].
  destruct (truediv _ _) as [avg|x]; cbn [bind]; [|discriminate].
  destruct (py_min_spec PyFloat.ltb float_ltb_irrefl float_ltb_trans
              (amount e) (map amount rest)) as (lo & -> & Ilo & Blo).
  destruct (py_max_spec PyFloat.ltb float_ltb_irrefl float_ltb_trans
              (amount e) (map amount rest)) as (hi & -> & Ihi & Bhi).
  destruct (py_min_spec str_ltb str_ltb_irrefl str_ltb_trans
              (date e) (map date rest)) as (d0 & -> & Id0 & Bd0).
  destruct (py_max_spec str_ltb str_ltb_irrefl str_ltb_trans
              (date e) (map date rest)) as (d1 & -> & Id1 & Bd1).
  cbn [bind]. intros [= <-].
  cbn [s_monthly_stats s_count s_max s_min s_end_date s_start_date s_total].
  split; [|split; [|split; [|split]]].
  - rewrite sum_counts_fold, sum_counts_count_month.
    replace (sum_counts ∅) with 0 by (symmetry; apply map_fold_empty).
    cbn [length]. rewrite length_map. lia.
  - now apply Bhi.
  - now apply Bd1.
  - reflexivity.
  - intros month w F.
    change (fold_left count_month rest (count_month ∅ e))
      with (fold_left count_month (e :: rest) ∅).
    rewrite monthly_stats_spec.
    unfold month_breakdown, get_monthly_expenses.
    pose proof (month_form_length month F) as L.
    destruct month as [|c m]; [discriminate|].
    rewrite E.
    replace (List.filter (fun exp => startswith (date exp) (String c m))
               (e :: rest))
      with (in_month (String c m) (e :: rest)).
    + destruct (in_month (String c m) (e :: rest)); [reflexivity|].
      reflexivity.
    + unfold in_month. apply filter_ext. intros x.
      now rewrite startswith_take, L.
Qed.

Lemma X9_statistics_consistent_witness :
  let self := {| expenses := [tea; lunch];
                 report_generator := @None SnapshotReport |} in
  exists s,
    get_statistics SnapshotReport sum_left self = Ok (Stats s)
    /\ sum_counts (s_monthly_stats s) = s_count s
    /\ PyFloat.ltb (s_max s) (s_min s) = false
    /\ str_ltb (s_end_date s) (s_start_date s) = false
    /\ s_total s = get_total_expenses SnapshotReport sum_left self.
Proof.
  intros self.
  assert (G : exists s,
             get_statistics SnapshotReport sum_left self = Ok (Stats s))
    by (vm_compute; eexists; reflexivity).
  destruct G as [s G]. exists s. split; [exact G|].
  destruct (X9_statistics_consistent SnapshotReport sum_left self s G)
    as (A & B & C & D & _).
  auto.
Defined.

(** X10: a row on which construction raises [ValueError] is skipped
    wherever it stands: the rows before and after it load as if it were
    not there. *)
Theorem X10_load_rows_skips_anywhere (t : datetime) (pre post : list Csv.row)
    (r : Csv.row) (acc : list Expense) :
  expense_of_row t r = Raise ValueError ->
  load_rows t (pre ++ r :: post) acc = load_rows t (pre ++ post) acc.
Proof.
  intros V. revert acc. induction pre as [|p pre IH]; intros acc.
  - now apply load_rows_skip.
  - cbn [app load_rows].
    destruct (expense_of_row t p) as [e|[]]; auto.
Qed.

Lemma X10_load_rows_skips_anywhere_witness :
  let good := row4 (Some "2024-01-02") (Some "Food") (Some "20") (Some "ok") in
  let bad := row4 (Some "2024-01-01") (Some "Food") (Some "ten") (Some "x") in
  load_rows sample_clock ([good] ++ bad :: [good]) []
  = load_rows sample_clock ([good] ++ [good]) [].
Proof.
  intros good bad.
  apply (X10_load_rows_skips_anywhere sample_clock [good] [good] bad []).
  unfold bad. rewrite expense_of_row_row4. vm_compute. reflexivity.
Defined.

(** X11: a row on which construction raises anything but [ValueError]
    ends the loop: the records of the rows before it are kept and no row
    after it is read. *)
Theorem X11_load_rows_stops (t : datetime) (pre post : list Csv.row)
    (r : Csv.row) (acc l : list Expense) (e : exn) :
  expense_of_row t r = Raise e -> e <> ValueError ->
  load_rows t pre acc = (l, None) ->
  load_rows t (pre ++ r :: post) acc = (l, Some e).
Proof.
  intros R N. revert acc. induction pre as [|p pre IH]; intros acc.
  - cbn [app load_rows]. intros [= <-]. rewrite R.
    destruct e; try reflexivity. contradiction.
  - cbn [app load_rows].
    destruct (expense_of_row t p) as [x|[]]; auto; discriminate.
Qed.

Lemma X11_load_rows_stops_witness :
  let good := row4 (Some "2024-01-02") (Some "Food") (Some "20") (Some "ok") in
  let short := row4 (Some "2024-01-01") (Some "Food") (Some "10") None in
  load_rows sample_clock ([good] ++ short :: [good]) []
  = ([ok_row sample_clock], Some AttributeError).
Proof.
  intros good short.
  apply (X11_load_rows_stops sample_clock [good] [good] short []
           [ok_row sample_clock] AttributeError).
  - unfold short. rewrite expense_of_row_row4. vm_compute. reflexivity.
  - discriminate.
  - unfold good. cbn [load_rows]. rewrite expense_of_row_row4.
    vm_compute. reflexivity.
Defined.

Section Restart.
Variable RG : Type.
Variable new_RG : list Expense -> res RG.

(** X12: what is added is there after a restart: when the file can be written
    and read and every record of the enlarged collection is storable,
    [add_expense] answers [True] and a manager that loads afterwards holds
    the enlarged collection, each record stamped with the time of
    loading. *)
Theorem X12_add_then_restart (expense : Expense) (self self0 : ExpenseManager RG)
    (w : world) (g g0 : RG) :
  let l := (expenses self ++ [expense])%list in
  can_write w = true -> can_read w = true ->
  Forall (storable (now w)) l ->
  new_RG l = Ok g ->
  new_RG (map (restamp (now w)) l) = Ok g0 ->
  exists self' w',
    add_expense RG new_RG expense self w = (self', w', Ok (VBool true))
    /\ mgr_load_expenses RG new_RG self0 w'
       = ({| expenses := map (restamp (now w)) l;
             report_generator := Some g0 |}, w', Ok tt).
Proof.
  intros l W R F G G0.
  destruct (save_then_load l w W R) as (w' & S & L).
  rewrite (load_text_storable _ _ F) in L. cbn [fst] in L.
  exists (set_report_generator RG (set_expenses RG self l) g), w'.
  split.
  - unfold add_expense. cbn [expenses set_expenses]. fold l. rewrite G.
    rewrite mgr_save_expenses_spec. cbn [expenses set_report_generator
      set_expenses]. fold l. now rewrite S.
  - unfold mgr_load_expenses. rewrite L, G0. reflexivity.
Qed.

(** X13: after [clear_all_expenses] with a file that can be written and
    read, loading gives the empty collection. *)
Theorem X13_clear_then_load (self : ExpenseManager RG) (w : world) (g : RG) :
  can_write w = true -> can_read w = true ->
  new_RG [] = Ok g ->
  exists self' w',
    clear_all_expenses RG new_RG self w = (self', w', Ok VNone)
    /\ expenses self' = []
    /\ load_expenses w' = (w', Ok []).
Proof.
  intros W R G.
  destruct (save_then_load [] w W R) as (w' & S & L).
  rewrite (load_text_storable _ _ (List.Forall_nil _)) in L. cbn [fst] in L.
  exists (set_report_generator RG (set_expenses RG self []) g), w'.
  split; [|split; [reflexivity|exact L]].
  unfold clear_all_expenses. cbn [expenses set_expenses]. rewrite G.
  rewrite mgr_save_expenses_spec.
  cbn [expenses set_report_generator set_expenses]. now rewrite S.
Qed.

End Restart.

Lemma X12_add_then_restart_witness :
  let self := {| expenses := [lunch];
                 report_generator := @None SnapshotReport |} in
  let l := [lunch; note two_lines_lf] in
  exists self' w',
    add_expense SnapshotReport new_SnapshotReport (note two_lines_lf) self
      fresh_world = (self', w', Ok (VBool true))
    /\ mgr_load_expenses SnapshotReport new_SnapshotReport self w'
       = ({| expenses := l; report_generator := Some {| snapshot := l |} |},
          w', Ok tt).
Proof.
  intros self l.
  apply (X12_add_then_restart SnapshotReport new_SnapshotReport
           (note two_lines_lf) self self fresh_world
           {| snapshot := l |} {| snapshot := l |}); try reflexivity.
  storable_by_computation.
Defined.

Lemma X13_clear_then_load_witness :
  let self := {| expenses := [tea; lunch];
                 report_generator := @None SnapshotReport |} in
  exists self' w',
    clear_all_expenses SnapshotReport new_SnapshotReport self fresh_world
    = (self', w', Ok VNone)
    /\ expenses self' = []
    /\ load_expenses w' = (w', Ok []).
Proof.
  intros self.
  apply (X13_clear_then_load SnapshotReport new_SnapshotReport self
           fresh_world {| snapshot := [] |}); reflexivity.
Defined.




(** X14: [load_expenses] raises nothing and leaves the world as it was;
    without a live file, or with one that cannot be opened, it gives the
    empty list. *)
Theorem X14_load_expenses_quiet (w : world) :
  exists l, load_expenses w = (w, Ok l)
            /\ (live w = None \/ can_read w = false -> l = []).
Proof.
  unfold load_expenses, read_live.
  destruct (live w) as [text|]; [|eauto].
  destruct (can_read w).
  - eexists. split; [reflexivity|]. now intros [?|?].
  - eauto.
Qed.



(** X16: backup names tell seconds apart, not saves. When a second save
    runs while the clock still gives the same backup name, the backup the
    first save made is overwritten: under that name the folder now holds
    what the first save wrote, and the text from before the first save is
    in no backup the two saves made. *)
Theorem X16_second_save_same_second (es1 es2 : list Expense) (w : world)
    (old : string) (t : datetime) :
  live w = Some old -> can_copy w = true -> can_write w = true ->
  backup_name t = backup_name (now w) ->
  exists w1 w2,
    save_expenses es1 w = (w1, Ok true)
    /\ backups w1 = <[backup_name (now w) := old]> (backups w)
    /\ save_expenses es2 (set_now w1 t) = (w2, Ok true)
    /\ backups w2 = <[backup_name (now w) := file_text es1]> (backups w).
Proof.
  intros L C W N.
  rewrite (save_expenses_with_backup es1 w old L C W).
  set (w1 := set_live _ _).
  exists w1. eexists. split; [reflexivity|]. split; [reflexivity|].
  rewrite (save_expenses_with_backup es2 (set_now w1 t) (file_text es1)
             eq_refl C W).
  split; [reflexivity|].
  cbn [backups set_live set_backup set_now now w1]. rewrite N.
  apply insert_insert_eq.
Qed.

Lemma X16_second_save_same_second_witness :
  let w := {| now := sample_clock; live := Some (file_text [tea]);
              backups := ∅; can_read := true; can_write := true;
              can_copy := true |} in
  exists w1 w2,
    save_expenses [lunch] w = (w1, Ok true)
    /\ backups w1 = {[ backup_name sample_clock := file_text [tea] ]}
    /\ save_expenses [] (set_now w1 sample_clock) = (w2, Ok true)
    /\ backups w2 = {[ backup_name sample_clock := file_text [lunch] ]}.
Proof.
  intros w.
  apply (X16_second_save_same_second [lunch] [] w (file_text [tea])
           sample_clock); reflexivity.
Defined.

(** Construction from four strings raises nothing but [ValueError]. *)
Lemma Expense_init_strings (t : datetime) (a c d s : string) (e : exn) :
  Expense_init t (VStr a) (VStr c) (VStr d) (VStr s) = Raise e ->
  e = ValueError.
Proof.
  unfold Expense_init.
  destruct (_validate_amount (VStr a)) as [a'|x] eqn:A; cbn [bind].
  - destruct (_validate_category (VStr c)) as [c'|y] eqn:C; cbn [bind].
    + destruct (_validate_date (VStr d)) as [d'|z] eqn:D; cbn [bind].
      * discriminate.
      * intros [= <-]. unfold _validate_date in D. cbn [py_strptime] in D.
        destruct (Strptime.strptime d) as [dt|x] eqn:P; [discriminate|].
        apply strptime_raises in P as ->. cbn in D. congruence.
    + intros [= <-]. cbn in C.
      destruct (_ || _) in C; congruence.
  - intros [= <-]. unfold _validate_amount in A. cbn [py_float] in A.
    destruct (PyFloat.of_string a) as [f|y] eqn:P; cbn [bind] in A.
    + destruct (PyFloat.leb f PyFloat.zero); cbn in A; congruence.
    + apply of_string_raises in P as ->. cbn in A. congruence.
Qed.

(** X17: rows in which the four columns all have a cell never end the
    load early: each of them gives a record or is skipped, and the loop
    runs to the last row. *)
Theorem X17_full_rows_load_to_end (t : datetime) (rows : list Csv.row)
    (acc : list Expense) :
  Forall full_row rows -> snd (load_rows t rows acc) = None.
Proof.
  intros F. revert acc. induction F as [|r rows Hr F IH]; intros acc.
  - reflexivity.
  - cbn [load_rows].
    destruct (expense_of_row t r) as [x|e] eqn:E; [apply IH|].
    assert (e = ValueError) as ->; [|apply IH].
    unfold expense_of_row, getitem in E.
    destruct (Hr "Amount") as [a Ha]; [cbn; auto|].
    destruct (Hr "Category") as [c Hc]; [cbn; auto|].
    destruct (Hr "Date") as [d Hd]; [cbn; auto|].
    destruct (Hr "Description") as [s Hs]; [cbn; auto|].
    rewrite Ha, Hc, Hd, Hs in E. cbn [bind cell] in E.
    now apply Expense_init_strings in E.
Qed.

Lemma X17_full_rows_load_to_end_witness :
  snd (load_rows sample_clock
         [row4 (Some "2024-01-01") (Some "Food") (Some "ten") (Some "x");
          row4 (Some "2024-01-02") (Some "Food") (Some "20") (Some "ok")] [])
  = None.
Proof.
  apply X17_full_rows_load_to_end.
  repeat (apply List.Forall_cons;
          [intros key [<-|[<-|[<-|[<-|[]]]]]; eexists; reflexivity|]).
  apply List.Forall_nil.
Defined.

Lemma zip_row_other (names cells : list string) (d : Csv.row) (key : string) :
  ~ In key names -> Csv.zip_row names cells d !! key = d !! key.
Proof.
  revert cells d. induction names as [|n names IH]; intros cells d N.
  - now destruct cells.
  - assert (n <> key) by (intros ->; apply N; now left).
    assert (~ In key names) by (intros I; apply N; now right).
    destruct cells as [|c cells]; cbn [Csv.zip_row]; rewrite IH by assumption;
      now apply lookup_insert_ne.
Qed.

Lemma expense_of_row_missing (t : datetime) (r : Csv.row) (key : string) :
  In key fieldnames -> r !! key = None ->
  expense_of_row t r = Raise KeyError.
Proof.
  intros I N. unfold expense_of_row, getitem.
  destruct I as [<-|[<-|[<-|[<-|[]]]]]; rewrite ?N; cbn [bind];
    repeat match goal with
           | |- context [?r !! ?k] => destruct (r !! k); cbn [bind]
           end; reflexivity.
Qed.

Lemma load_rows_missing (t : datetime) (rows : list Csv.row) (key : string) :
  In key fieldnames -> Forall (fun r => r !! key = None) rows ->
  fst (load_rows t rows []) = [].
Proof.
  intros I F. destruct F as [|r rows N _]; [reflexivity|].
  cbn [load_rows]. now rewrite (expense_of_row_missing t r key I N).
Qed.

(** X18: a file whose first line lacks one of the four column names gives
    no record at all, whatever its rows hold: the first row raises
    [KeyError], which ends the load. *)
Theorem X18_header_without_column (w : world) (text key : string) :
  live w = Some text ->
  In key fieldnames -> ~ In key (header text) ->
  load_expenses w = (w, Ok []).
Proof.
  intros L I N. destruct (can_read w) eqn:R;
    [|now apply load_expenses_unreadable].
  rewrite (load_expenses_text w text R L). do 2 f_equal.
  unfold load_text, header in *.
  destruct (Csv.read_records _ _) as [records err]. cbn [fst] in N.
  assert (E : fst (load_rows (now w) (Csv.dict_rows records) []) = []).
  { apply (load_rows_missing _ _ key I).
    destruct records as [|names rest]; [constructor|].
    cbn [hd] in N. unfold Csv.dict_rows.
    apply Forall_map. apply Forall_forall. intros cells _.
    cbn. now rewrite zip_row_other. }
  destruct (load_rows _ _ _) as [l [e|]]; exact E.
Qed.

Lemma X18_header_without_column_witness :
  let text := ("date,category,amount,description" ++ String Csv.LF
               ("2024-01-02,Food,20,ok" ++ String Csv.LF ""))%string in
  let w := {| now := sample_clock; live := Some text; backups := ∅;
              can_read := true; can_write := true; can_copy := true |} in
  load_expenses w = (w, Ok []).
Proof.
  intros text w.
  apply (X18_header_without_column w text "Amount").
  - reflexivity.
  - cbn. auto.
  - vm_compute. intros [H|[H|[H|[H|[]]]]]; discriminate H.
Defined.

Lemma forallb_below (f : Z -> bool) (n : Z) :
  forallb (fun k => f (Z.of_nat k)) (seq 0 (Z.to_nat n)) = true ->
  forall z, 0 <= z < n -> f z = true.
Proof.
  intros H z B. rewrite forallb_forall in H.
  rewrite <- (Z2Nat.id z) by lia. apply H. apply in_seq. lia.
Qed.

Lemma pad2_digits (n : Z) : 0 <= n <= 99 -> pad 2 n = two_digits n.
Proof.
  intros B. apply String.eqb_eq.
  apply (forallb_below (fun n => String.eqb (pad 2 n) (two_digits n)) 100);
    [vm_compute; reflexivity|lia].
Qed.

Lemma pad4_digits (n : Z) : 0 <= n <= 9999 -> pad 4 n = four_digits n.
Proof.
  intros B. apply String.eqb_eq.
  apply (forallb_below (fun n => String.eqb (pad 4 n) (four_digits n)) 10000);
    [vm_compute; reflexivity|lia].
Qed.

Lemma code_digit_char (v : Z) : 0 <= v <= 9 -> code (digit_char v) = 48 + v.
Proof.
  intros B. apply Z.eqb_eq.
  apply (forallb_below (fun v => code (digit_char v) =? 48 + v) 10);
    [vm_compute; reflexivity|lia].
Qed.

Lemma str_ltb_cons (x y : ascii) (a b : string) :
  str_ltb (String x a) (String y b)
  = (code x <? code y) || ((code x =? code y) && str_ltb a b).
Proof.
  cbn [str_ltb].
  destruct (Z.ltb_spec (code x) (code y)), (Z.ltb_spec (code y) (code x)),
    (Z.eqb_spec (code x) (code y)); try reflexivity; lia.
Qed.

Lemma two_digits_app (n : Z) (r : string) :
  (two_digits n ++ r)%string
  = String (digit_char (n / 10)) (String (digit_char (n mod 10)) r).
Proof. reflexivity. Qed.

Lemma four_digits_app (n : Z) (r : string) :
  (four_digits n ++ r)%string
  = String (digit_char (n / 1000))
      (String (digit_char (n / 100 mod 10)) (two_digits (n mod 100) ++ r)).
Proof. reflexivity. Qed.

(** Two digits compare as the number they write. *)
Lemma str_ltb_two_digits (a b : Z) (r1 r2 : string) :
  0 <= a <= 99 -> 0 <= b <= 99 ->
  str_ltb (two_digits a ++ r1) (two_digits b ++ r2)
  = (a <? b) || ((a =? b) && str_ltb r1 r2).
Proof.
  intros A B. rewrite !two_digits_app, !str_ltb_cons.
  pose proof (Z.div_mod a 10 ltac:(lia)) as Da.
  pose proof (Z.div_mod b 10 ltac:(lia)) as Db.
  pose proof (Z.mod_pos_bound a 10 ltac:(lia)) as Ma.
  pose proof (Z.mod_pos_bound b 10 ltac:(lia)) as Mb.
  assert (Qa : 0 <= a / 10 <= 9)
    by (split; [apply Z.div_pos; lia
               |apply Z.lt_succ_r, Z.div_lt_upper_bound; lia]).
  assert (Qb : 0 <= b / 10 <= 9)
    by (split; [apply Z.div_pos; lia
               |apply Z.lt_succ_r, Z.div_lt_upper_bound; lia]).
  rewrite !code_digit_char by lia.
  generalize dependent (a / 10). generalize dependent (b / 10).
  generalize dependent (a mod 10). generalize dependent (b mod 10).
  intros.
  destruct (str_ltb r1 r2);
    repeat match goal with
           | |- context [?x <? ?y] => destruct (Z.ltb_spec x y)
           | |- context [?x =? ?y] => destruct (Z.eqb_spec x y)
           end; cbn; try reflexivity; lia.
Qed.

Lemma str_ltb_four_digits (a b : Z) (r1 r2 : string) :
  0 <= a <= 9999 -> 0 <= b <= 9999 ->
  str_ltb (four_digits a ++ r1) (four_digits b ++ r2)
  = (a <? b) || ((a =? b) && str_ltb r1 r2).
Proof.
  intros A B. rewrite !four_digits_app, !str_ltb_cons.
  rewrite (str_ltb_two_digits (a mod 100) (b mod 100))
    by (pose proof (Z.mod_pos_bound a 100 ltac:(lia));
        pose proof (Z.mod_pos_bound b 100 ltac:(lia)); lia).
  assert (Qa : 0 <= a / 1000 <= 9)
    by (split; [apply Z.div_pos; lia
               |apply Z.lt_succ_r, Z.div_lt_upper_bound; lia]).
  assert (Qb : 0 <= b / 1000 <= 9)
    by (split; [apply Z.div_pos; lia
               |apply Z.lt_succ_r, Z.div_lt_upper_bound; lia]).
  assert (Ea : a = 1000 * (a / 1000) + 100 * (a / 100 mod 10) + a mod 100).
  { rewrite (Z.div_mod a 100 ltac:(lia)) at 1.
    rewrite (Z.div_mod (a / 100) 10 ltac:(lia)) at 1.
    rewrite Z.div_div by lia. change (100 * 10) with 1000. lia. }
  assert (Eb : b = 1000 * (b / 1000) + 100 * (b / 100 mod 10) + b mod 100).
  { rewrite (Z.div_mod b 100 ltac:(lia)) at 1.
    rewrite (Z.div_mod (b / 100) 10 ltac:(lia)) at 1.
    rewrite Z.div_div by lia. change (100 * 10) with 1000. lia. }
  pose proof (Z.mod_pos_bound (a / 100) 10 ltac:(lia)) as Ha.
  pose proof (Z.mod_pos_bound (b / 100) 10 ltac:(lia)) as Hb.
  pose proof (Z.mod_pos_bound a 100 ltac:(lia)) as Ma.
  pose proof (Z.mod_pos_bound b 100 ltac:(lia)) as Mb.
  rewrite !code_digit_char by lia.
  generalize dependent (a / 1000). generalize dependent (b / 1000).
  generalize dependent (a / 100 mod 10). generalize dependent (b / 100 mod 10).
  generalize dependent (a mod 100). generalize dependent (b mod 100).
  intros. 
  destruct (str_ltb r1 r2);
    repeat match goal with
           | |- context [?x <? ?y] => destruct (Z.ltb_spec x y)
           | |- context [?x =? ?y] => destruct (Z.eqb_spec x y)
           end; cbn; try reflexivity; lia.
Qed.

Lemma str_ltb_prefix (p a b : string) :
  str_ltb (p ++ a) (p ++ b) = str_ltb a b.
Proof.
  induction p as [|c p IH]; [reflexivity|].
  rewrite !CsvFacts.append_cons, str_ltb_cons, IH.
  now rewrite Z.ltb_irrefl, Z.eqb_refl.
Qed.

Lemma lex_step (x y : Z) (p q : bool) :
  (x <? y) || ((x =? y) && p) = false ->
  (y <? x) || ((y =? x) && q) = false ->
  x = y /\ p = false /\ q = false.
Proof.
  destruct (Z.ltb_spec x y), (Z.ltb_spec y x), (Z.eqb_spec x y),
    (Z.eqb_spec y x); cbn; try discriminate; try lia; auto.
Qed.

Lemma backup_name_digits (t : datetime) :
  clock_reading t ->
  backup_name t
  = ("expenses_backup_"
     ++ four_digits (year t) ++ two_digits (month t) ++ two_digits (day t)
     ++ "_" ++ two_digits (hour t) ++ two_digits (minute t)
     ++ two_digits (second t) ++ ".csv")%string.
Proof.
  intros (Y & M & D & Hh & Mi & S).
  assert (day t <= 31).
  { unfold days_in_month in D.
    destruct (month t =? 2); [destruct (is_leap (year t)); lia|].
    destruct (_ || _); lia. }
  unfold backup_name, strftime_backup.
  rewrite pad4_digits, !pad2_digits by lia.
  now rewrite !CsvFacts.append_assoc.
Qed.

(** X19: backup names sort like the clock. For two clock readings with
    four-digit years, the name [create_backup] makes at the first is below
    the name it makes at the second, in the order [list_backups] sorts by,
    exactly when the first reading is the earlier one, to the second; and
    the two names are the same exactly when neither reading is earlier. *)
Theorem X19_backup_names_follow_clock (a b : datetime) :
  clock_reading a -> clock_reading b ->
  str_ltb (backup_name a) (backup_name b) = earlier a b
  /\ (backup_name a = backup_name b
      <-> earlier a b = false /\ earlier b a = false).
Proof.
  intros A B.
  assert (O : forall a b, clock_reading a -> clock_reading b ->
                str_ltb (backup_name a) (backup_name b) = earlier a b).
  { clear. intros a b A B.
    rewrite (backup_name_digits a A), (backup_name_digits b B).
    destruct A as (Ya & Ma & Da & Ha & Mia & Sa).
    destruct B as (Yb & Mb & Db & Hb & Mib & Sb).
    assert (day a <= 31).
    { unfold days_in_month in Da.
      destruct (month a =? 2); [destruct (is_leap (year a)); lia|].
      destruct (_ || _); lia. }
    assert (day b <= 31).
    { unfold days_in_month in Db.
      destruct (month b =? 2); [destruct (is_leap (year b)); lia|].
      destruct (_ || _); lia. }
    rewrite str_ltb_prefix, str_ltb_four_digits by lia.
    rewrite !str_ltb_two_digits by lia.
    rewrite str_ltb_prefix. rewrite !str_ltb_two_digits by lia.
    rewrite str_ltb_irrefl, andb_false_r, orb_false_r. reflexivity. }
  split; [now apply O|]. split.
  - intros E. split.
    + rewrite <- O, E by assumption. apply str_ltb_irrefl.
    + rewrite <- O, E by assumption. apply str_ltb_irrefl.
  - intros [E1 E2]. rewrite (backup_name_digits a A), (backup_name_digits b B).
    unfold earlier in E1, E2.
    assert (year a = year b /\ month a = month b /\ day a = day b
            /\ hour a = hour b /\ minute a = minute b
            /\ second a = second b) as (-> & -> & -> & -> & -> & ->);
      [|reflexivity].
    apply (lex_step _ _ _ _ E1) in E2 as (? & F1 & F2).
    apply (lex_step _ _ _ _ F1) in F2 as (? & G1 & G2).
    apply (lex_step _ _ _ _ G1) in G2 as (? & H1 & H2).
    apply (lex_step _ _ _ _ H1) in H2 as (? & I1 & I2).
    apply (lex_step _ _ _ _ I1) in I2 as (? & J1 & J2).
    apply Z.ltb_ge in J1, J2. repeat split; lia.
Qed.

Lemma X19_backup_names_follow_clock_witness :
  let later := {| year := 2024; month := 3; day := 9;
                  hour := 7; minute := 5; second := 2; microsecond := 0 |} in
  str_ltb (backup_name sample_clock) (backup_name later) = true.
Proof.
  intros later.
  rewrite (proj1 (X19_backup_names_follow_clock sample_clock later
                    ltac:(vm_compute; repeat split; discriminate)
                    ltac:(vm_compute; repeat split; discriminate))).
  reflexivity.
Defined.

Lemma digit_val_digit_char (v : Z) :
  0 <= v <= 9 -> digit_val (digit_char v) = v.
Proof. intros B. unfold digit_val. rewrite code_digit_char by exact B. lia. Qed.

Lemma is_digit_digit_char (v : Z) :
  0 <= v <= 9 -> is_digit (digit_char v) = true.
Proof.
  intros B. unfold is_digit. rewrite code_digit_char by exact B.
  apply andb_true_iff. split; apply Z.leb_le; lia.
Qed.

Lemma digit_digit_char (v : Z) (r : string) :
  0 <= v <= 9 -> Strptime.digit (String (digit_char v) r) = Some (v, r).
Proof.
  intros B. unfold Strptime.digit, Strptime.one, Strptime.in_range.
  rewrite digit_val_digit_char, code_digit_char by exact B.
  replace ((48 <=? 48 + v) && (48 + v <=? 57)) with true; [reflexivity|].
  symmetry. apply andb_true_iff. split; apply Z.leb_le; lia.
Qed.

Lemma year4_four_digits (y : Z) (r : string) :
  0 <= y <= 9999 -> Strptime.year4 (four_digits y ++ r) = Some (y, r).
Proof.
  intros B. rewrite four_digits_app, two_digits_app.
  assert (Q3 : 0 <= y / 1000 <= 9)
    by (split; [apply Z.div_pos; lia
               |apply Z.lt_succ_r, Z.div_lt_upper_bound; lia]).
  pose proof (Z.mod_pos_bound (y / 100) 10 ltac:(lia)) as Q2.
  pose proof (Z.mod_pos_bound y 100 ltac:(lia)) as M.
  assert (Q1 : 0 <= y mod 100 / 10 <= 9)
    by (split; [apply Z.div_pos; lia
               |apply Z.lt_succ_r, Z.div_lt_upper_bound; lia]).
  pose proof (Z.mod_pos_bound (y mod 100) 10 ltac:(lia)) as Q0.
  unfold Strptime.year4, Strptime.two.
  rewrite !digit_digit_char by lia.
  do 2 f_equal.
  rewrite (Z.div_mod y 100 ltac:(lia)) at 5.
  rewrite (Z.div_mod (y / 100) 10 ltac:(lia)) at 2.
  rewrite (Z.div_mod (y mod 100) 10 ltac:(lia)) at 3.
  rewrite Z.div_div by lia. change (100 * 10) with 1000. lia.
Qed.

Lemma month_alts_two_digits {A} (m : Z) (k : Z -> string -> option A)
    (r : string) (x : A) :
  1 <= m <= 12 -> k m r = Some x ->
  Strptime.alt Strptime.month_alts k (two_digits m ++ r) = Some x.
Proof.
  intros B K.
  assert (C : m = 1 \/ m = 2 \/ m = 3 \/ m = 4 \/ m = 5 \/ m = 6 \/ m = 7
              \/ m = 8 \/ m = 9 \/ m = 10 \/ m = 11 \/ m = 12) by lia.
  rewrite two_digits_app.
  repeat destruct C as [-> | C]; try subst m; cbv; now rewrite K.
Qed.

Lemma day_alts_two_digits {A} (d : Z) (k : Z -> string -> option A)
    (r : string) (x : A) :
  1 <= d <= 31 -> k d r = Some x ->
  Strptime.alt Strptime.day_alts k (two_digits d ++ r) = Some x.
Proof.
  intros B K.
  assert (C : d = 1 \/ d = 2 \/ d = 3 \/ d = 4 \/ d = 5 \/ d = 6 \/ d = 7
              \/ d = 8 \/ d = 9 \/ d = 10 \/ d = 11 \/ d = 12 \/ d = 13
              \/ d = 14 \/ d = 15 \/ d = 16 \/ d = 17 \/ d = 18 \/ d = 19
              \/ d = 20 \/ d = 21 \/ d = 22 \/ d = 23 \/ d = 24 \/ d = 25
              \/ d = 26 \/ d = 27 \/ d = 28 \/ d = 29 \/ d = 30 \/ d = 31)
    by lia.
  rewrite two_digits_app.
  repeat destruct C as [-> | C]; try subst d; cbv; now rewrite K.
Qed.

Lemma days_in_month_le (y m : Z) : days_in_month y m <= 31.
Proof.
  unfold days_in_month.
  destruct (m =? 2); [destruct (is_leap y); lia|].
  destruct (_ || _); lia.
Qed.

Lemma strptime_strftime (t : datetime) :
  clock_reading t ->
  Strptime.strptime (strftime_Ymd t) = Ok (midnight t).
Proof.
  intros (Y & M & D & _).
  pose proof (days_in_month_le (year t) (month t)) as L.
  unfold strftime_Ymd. rewrite pad4_digits, !pad2_digits by lia.
  unfold Strptime.strptime, Strptime.regex_match.
  rewrite year4_four_digits by lia.
  rewrite CsvFacts.append_cons. cbn [Strptime.dash].
  change ("" ++ ?x)%string with x.
  rewrite (month_alts_two_digits (month t) _ _
             (year t, month t, day t, "")) by
    (try lia; rewrite CsvFacts.append_cons; cbn [Strptime.dash];
     change ("" ++ two_digits (day t))%string
       with (two_digits (day t) ++ "")%string;
     now apply day_alts_two_digits; [lia|]).
  cbn [String.eqb negb].
  replace ((year t <? 1) || (days_in_month (year t) (month t) <? day t))
    with false; [reflexivity|].
  symmetry. apply orb_false_iff. split; apply Z.ltb_ge; lia.
Qed.

(** X20: a date written as [strftime("%Y-%m-%d")] writes it is a date the
    program takes. For every clock reading with a four-digit year, the
    text parses to that date at midnight, [Expense] accepts it unchanged,
    and [utils.validate_date] accepts it when it is not after the day the
    clock shows and rejects it as lying in the future otherwise. *)
Theorem X20_written_date_is_accepted (t : datetime) (w : world) :
  clock_reading t ->
  Strptime.strptime (strftime_Ymd t) = Ok (midnight t)
  /\ _validate_date (VStr (strftime_Ymd t)) = Ok (strftime_Ymd t)
  /\ validate_date (strftime_Ymd t) w
     = (w, Ok (if date_gt t (now w)
               then (false, "Date cannot be in the future")
               else (true, ""))).
Proof.
  intros C. pose proof (strptime_strftime t C) as P.
  split; [exact P|]. split.
  - unfold _validate_date. cbn [py_strptime]. now rewrite P.
  - unfold validate_date. rewrite P.
    replace (String.eqb (strftime_Ymd t) "") with false.
    + cbn [bind try_except].
      change (date_gt (midnight t) (now w)) with (date_gt t (now w)).
      now destruct (date_gt t (now w)).
    + destruct C as (Y & _). unfold strftime_Ymd.
      rewrite pad4_digits by lia. reflexivity.
Qed.

Lemma X20_written_date_is_accepted_witness :
  Strptime.strptime (strftime_Ymd sample_clock) = Ok (midnight sample_clock)
  /\ _validate_date (VStr (strftime_Ymd sample_clock))
     = Ok (strftime_Ymd sample_clock)
  /\ validate_date (strftime_Ymd sample_clock) fresh_world
     = (fresh_world, Ok (true, "")).
Proof.
  apply (X20_written_date_is_accepted sample_clock fresh_world).
  vm_compute. repeat split; discriminate.
Defined.

Lemma month_form_strftime (t : datetime) :
  clock_reading t -> is_month_form (strftime_Ym t) = true.
Proof.
  intros (Y & M & _). unfold strftime_Ym.
  rewrite pad4_digits, pad2_digits by lia.
  assert (Q3 : 0 <= year t / 1000 <= 9)
    by (split; [apply Z.div_pos; lia
               |apply Z.lt_succ_r, Z.div_lt_upper_bound; lia]).
  pose proof (Z.mod_pos_bound (year t / 100) 10 ltac:(lia)) as Q2.
  pose proof (Z.mod_pos_bound (year t) 100 ltac:(lia)) as M100.
  assert (Q1 : 0 <= year t mod 100 / 10 <= 9)
    by (split; [apply Z.div_pos; lia
               |apply Z.lt_succ_r, Z.div_lt_upper_bound; lia]).
  pose proof (Z.mod_pos_bound (year t mod 100) 10 ltac:(lia)) as Q0.
  assert (P1 : 0 <= month t / 10 <= 9)
    by (split; [apply Z.div_pos; lia
               |apply Z.lt_succ_r, Z.div_lt_upper_bound; lia]).
  pose proof (Z.mod_pos_bound (month t) 10 ltac:(lia)) as P0.
  change (is_digit (digit_char (year t / 1000))
          && is_digit (digit_char (year t / 100 mod 10))
          && is_digit (digit_char (year t mod 100 / 10))
          && is_digit (digit_char ((year t mod 100) mod 10))
          && Ascii.eqb "-" "-"
          && is_digit (digit_char (month t / 10))
          && is_digit (digit_char (month t mod 10)) = true).
  now rewrite !is_digit_digit_char by lia.
Qed.

(** X21: with the month left out, [get_monthly_expenses] gives, in
    collection order, exactly the records whose date has the year and
    month of the clock as its first seven characters. *)
Theorem X21_default_month_selection
    (RG : Type) (self : ExpenseManager RG) (w : world) :
  clock_reading (now w) ->
  get_monthly_expenses RG None self w
  = List.filter (fun e => String.eqb (take 7 (date e)) (strftime_Ym (now w)))
      (expenses self).
Proof.
  intros C. pose proof (month_form_strftime _ C) as F.
  pose proof (month_form_length _ F) as L.
  unfold get_monthly_expenses.
  apply filter_ext. intros e. now rewrite startswith_take, L.
Qed.

Lemma X21_default_month_selection_witness :
  let self := {| expenses := [dated "2024-03-15"; dated "2024-02-01"];
                 report_generator := @None SnapshotReport |} in
  get_monthly_expenses SnapshotReport None self fresh_world
  = [dated "2024-03-15"].
Proof.
  intros self.
  rewrite (X21_default_month_selection SnapshotReport self fresh_world
             ltac:(vm_compute; repeat split; discriminate)).
  reflexivity.
Defined.

Lemma rename_file (src dst text : string) (s : filesystem) :
  tree s !! src = Some (File text) ->
  writable s = true -> parent_is_dir dst s = true ->
  os_rename src dst s
  = if gives_way dst s
    then (set_tree s (<[dst := File text]> (delete src (tree s))), Ok tt)
    else (s, Raise OSError).
Proof.
  intros S W P. unfold os_rename, gives_way. rewrite S, W, P. cbn [negb orb].
  now destruct (tree s !! dst) as [[t|]|].
Qed.

Lemma rename_refused (src dst : string) (s : filesystem) :
  writable s = false -> os_rename src dst s = (s, Raise OSError).
Proof.
  intros W. unfold os_rename. rewrite W.
  now destruct (tree s !! src).
Qed.

Lemma makedirs_from_here (n : nat) (name : string) (s : filesystem) :
  String.eqb (dirname name) "" || os_path_exists (dirname name) s = true ->
  makedirs_from (S n) name s
  = match os_mkdir name s with
    | (s2, Ok _) => (s2, Ok tt)
    | (s2, Raise e) =>
        if os_path_isdir name s2 then (s2, Ok tt) else (s2, Raise e)
    end.
Proof.
  intros H.
  change (makedirs_from (S n) name s)
    with (match (if negb (String.eqb (dirname name) "")
                    && negb (os_path_exists (dirname name) s)
                 then makedirs_from n (dirname name) s
                 else (s, Ok tt)) with
          | (s1, Raise e) => (s1, Raise e)
          | (s1, Ok _) =>
              match os_mkdir name s1 with
              | (s2, Ok _) => (s2, Ok tt)
              | (s2, Raise e) =>
                  if os_path_isdir name s2 then (s2, Ok tt)
                  else (s2, Raise e)
              end
          end).
  replace (negb (String.eqb (dirname name) "")
           && negb (os_path_exists (dirname name) s)) with false;
    [reflexivity|].
  symmetry. rewrite <- negb_orb. now rewrite H.
Qed.

Lemma makedirs_data (s : filesystem) :
  os_makedirs data_folder s
  = match tree s !! data_folder with
    | Some Dir => (s, Ok tt)
    | Some (File _) => (s, Raise OSError)
    | None =>
        if writable s then (set_tree s (<[data_folder := Dir]> (tree s)), Ok tt)
        else (s, Raise OSError)
    end.
Proof.
  unfold os_makedirs, data_folder.
  change (String.length "data") with 4%nat.
  rewrite makedirs_from_here by reflexivity.
  unfold os_mkdir, parent_is_dir, os_path_isdir.
  change (dirname "data") with "". cbn [String.eqb orb andb].
  destruct (tree s !! "data") as [[t|]|] eqn:D; rewrite ?D; try reflexivity.
  destruct (writable s); cbn; rewrite ?D; reflexivity.
Qed.

Lemma makedirs_backups (s : filesystem) :
  tree s !! data_folder = Some Dir ->
  os_makedirs backup_folder s
  = match tree s !! backup_folder with
    | Some Dir => (s, Ok tt)
    | Some (File _) => (s, Raise OSError)
    | None =>
        if writable s
        then (set_tree s (<[backup_folder := Dir]> (tree s)), Ok tt)
        else (s, Raise OSError)
    end.
Proof.
  unfold os_makedirs, backup_folder, data_folder. intros D.
  change (String.length "data/backups") with 12%nat.
  rewrite makedirs_from_here
    by (change (dirname "data/backups") with "data";
        unfold os_path_exists; now rewrite D).
  unfold os_mkdir, parent_is_dir, os_path_isdir.
  change (dirname "data/backups") with "data". rewrite D.
  cbn [String.eqb Ascii.eqb orb andb].
  destruct (tree s !! "data/backups") as [[t|]|] eqn:B; rewrite ?B;
    try reflexivity.
  destruct (writable s); cbn; rewrite ?B; reflexivity.
Qed.

Lemma sane_backups (s : filesystem) (n : node) :
  sane s -> tree s !! backup_folder = Some n ->
  tree s !! data_folder = Some Dir.
Proof.
  intros S B. apply S in B. unfold parent_is_dir, os_path_isdir in B.
  change (dirname backup_folder) with data_folder in B.
  cbn [String.eqb data_folder Ascii.eqb orb] in B.
  now destruct (tree s !! data_folder) as [[t|]|].
Qed.

Lemma sane_old_backups (s : filesystem) (n : node) :
  sane s -> tree s !! old_name backup_folder = Some n ->
  tree s !! data_folder = Some Dir.
Proof.
  intros S B. apply S in B. unfold parent_is_dir, os_path_isdir in B.
  change (dirname (old_name backup_folder)) with data_folder in B.
  cbn [String.eqb data_folder Ascii.eqb orb] in B.
  now destruct (tree s !! data_folder) as [[t|]|].
Qed.

Ltac fs_names :=
  change (old_name data_folder) with "data_old.txt" in *;
  change (old_name backup_folder) with "data/backups_old.txt" in *;
  change data_folder with "data" in *;
  change backup_folder with "data/backups" in *.

Ltac fs_look :=
  cbn [tree set_tree writable replaces andb negb orb];
  repeat first
    [ rewrite lookup_insert_eq
    | rewrite lookup_delete_eq
    | rewrite lookup_insert_ne by discriminate
    | rewrite lookup_delete_ne by discriminate ].

(** X22: on a system that lets entries be made and renamed, with the two
    [_old.txt] names free to take a file, [_ensure_folders_exist] returns
    normally and leaves [data] and [data/backups] as directories. A
    regular file that stood at either name is then found under that name
    followed by [_old.txt], in place of whatever file stood there, and no
    other entry is touched. *)
Theorem X22_folders_made (s : filesystem) :
  sane s -> writable s = true ->
  gives_way (old_name data_folder) s = true ->
  gives_way (old_name backup_folder) s = true ->
  exists s',
    _ensure_folders_exist s = (s', Ok tt)
    /\ os_path_isdir data_folder s' = true
    /\ os_path_isdir backup_folder s' = true
    /\ (forall text, tree s !! data_folder = Some (File text) ->
          tree s' !! old_name data_folder = Some (File text))
    /\ (forall text, tree s !! backup_folder = Some (File text) ->
          tree s' !! old_name backup_folder = Some (File text))
    /\ (forall p, p <> data_folder -> p <> backup_folder ->
          p <> old_name data_folder -> p <> old_name backup_folder ->
          tree s' !! p = tree s !! p).
Proof.
  intros S W G1 G2.
  unfold _ensure_folders_exist, ftry, fbind, fwhen.
  unfold os_path_exists at 1, os_path_isdir at 1.
  destruct (tree s !! data_folder) as [[text|]|] eqn:D.
  - assert (B : tree s !! backup_folder = None).
    { destruct (tree s !! backup_folder) eqn:B; [|reflexivity].
      apply (sane_backups s _ S) in B. congruence. }
    cbn [andb negb].
    rewrite (rename_file _ _ text) by (assumption || reflexivity).
    rewrite G1, makedirs_data. fs_names. fs_look. rewrite W.
    unfold os_path_exists at 1, os_path_isdir at 1. fs_look. rewrite B.
    fs_look. rewrite makedirs_backups by (fs_names; now fs_look).
    fs_names. fs_look. rewrite B, W.
    eexists. split; [reflexivity|]. unfold os_path_isdir. fs_look.
    repeat split; try reflexivity.
    + now intros ? [= <-].
    + discriminate.
    + intros p P1 P2 P3 P4. now rewrite !lookup_insert_ne, lookup_delete_ne.
  - cbn [andb negb]. rewrite makedirs_data, D.
    unfold os_path_exists at 1, os_path_isdir at 1.
    destruct (tree s !! backup_folder) as [[text|]|] eqn:B.
    + cbn [andb negb].
      rewrite (rename_file _ _ text)
        by (try assumption; unfold parent_is_dir, os_path_isdir;
            change (dirname (old_name backup_folder)) with data_folder;
            now rewrite D).
      rewrite G2. rewrite makedirs_backups by (fs_names; now fs_look).
      fs_names. fs_look. rewrite W.
      eexists. split; [reflexivity|]. unfold os_path_isdir. fs_look.
      rewrite D. repeat split; try reflexivity.
      * discriminate.
      * now intros ? [= <-].
      * intros p P1 P2 P3 P4.
        now rewrite !lookup_insert_ne, lookup_delete_ne.
    + cbn [andb negb]. rewrite makedirs_backups, B by exact D.
      exists s. unfold os_path_isdir. rewrite D, B.
      repeat split; try reflexivity; discriminate.
    + cbn [andb negb]. rewrite makedirs_backups, B, W by exact D.
      eexists. split; [reflexivity|]. unfold os_path_isdir.
      fs_names. fs_look. rewrite D.
      repeat split; try reflexivity; try discriminate.
      intros p P1 P2 P3 P4. now rewrite lookup_insert_ne.
  - assert (B : tree s !! backup_folder = None).
    { destruct (tree s !! backup_folder) eqn:B; [|reflexivity].
      apply (sane_backups s _ S) in B. congruence. }
    cbn [andb negb]. rewrite makedirs_data, D, W.
    unfold os_path_exists at 1, os_path_isdir at 1.
    fs_names. fs_look. rewrite B. fs_look.
    rewrite makedirs_backups by (fs_names; now fs_look).
    fs_names. fs_look. rewrite B, W.
    eexists. split; [reflexivity|]. unfold os_path_isdir. fs_look.
    repeat split; try reflexivity; try discriminate.
    intros p P1 P2 P3 P4. now rewrite !lookup_insert_ne.
Qed.

Lemma X22_folders_made_witness :
  let s := {| tree := {[ "data" := File "notes" ]};
              writable := true; replaces := false |} in
  exists s',
    _ensure_folders_exist s = (s', Ok tt)
    /\ os_path_isdir data_folder s' = true
    /\ os_path_isdir backup_folder s' = true
    /\ tree s' !! old_name data_folder = Some (File "notes").
Proof.
  intros s.
  destruct (X22_folders_made s) as (s' & E & D & B & O & _); try reflexivity.
  - intros p n H. unfold s in H. cbn [tree] in H.
    apply lookup_singleton_Some in H as [<- _]. reflexivity.
  - exists s'. repeat split; try assumption. now apply O.
Defined.

(** X23: when [data] and [data/backups] are directories already,
    [_ensure_folders_exist] returns normally and touches nothing, also on
    a system that lets nothing be made or renamed. *)
Theorem X23_folders_in_place (s : filesystem) :
  os_path_isdir data_folder s = true ->
  os_path_isdir backup_folder s = true ->
  _ensure_folders_exist s = (s, Ok tt).
Proof.
  unfold os_path_isdir. intros D B.
  destruct (tree s !! data_folder) as [[?|]|] eqn:D'; try discriminate.
  destruct (tree s !! backup_folder) as [[?|]|] eqn:B'; try discriminate.
  unfold _ensure_folders_exist, ftry, fbind, fwhen, os_path_exists,
    os_path_isdir.
  rewrite D'. cbn [andb negb]. rewrite makedirs_data, D', B'.
  cbn [andb negb]. now rewrite makedirs_backups, B' by exact D'.
Qed.

Lemma X23_folders_in_place_witness :
  let s := {| tree := {[ "data" := Dir; "data/backups" := Dir ]};
              writable := false; replaces := false |} in
  _ensure_folders_exist s = (s, Ok tt).
Proof.
  intros s. apply (X23_folders_in_place s); reflexivity.
Defined.

(** X24: when [data] is a regular file that cannot be renamed, because
    the system refuses or because [data_old.txt] does not give way, and
    when [data] is missing on a system that lets nothing be made,
    [_ensure_folders_exist] raises and leaves everything as it was: the
    second attempt in the handler cannot make the folders either. *)
Theorem X24_data_folder_blocked (s : filesystem) :
  sane s ->
  (exists text, tree s !! data_folder = Some (File text)
                /\ (writable s = false
                    \/ gives_way (old_name data_folder) s = false))
  \/ (tree s !! data_folder = None /\ writable s = false) ->
  _ensure_folders_exist s = (s, Raise OSError).
Proof.
  intros S H.
  assert (B : tree s !! backup_folder = None).
  { destruct (tree s !! backup_folder) eqn:B; [|reflexivity].
    apply (sane_backups s _ S) in B.
    destruct H as [(text & D & _) | [D _]]; congruence. }
  assert (M : os_mkdir backup_folder s = (s, Raise OSError)).
  { unfold os_mkdir, parent_is_dir, os_path_isdir. rewrite B.
    change (dirname backup_folder) with data_folder.
    destruct H as [(text & -> & _) | [-> _]]; reflexivity. }
  unfold _ensure_folders_exist, ftry, fbind, fwhen, os_path_exists,
    os_path_isdir.
  destruct H as [(text & D & [W | G]) | [D W]]; rewrite D; cbn [andb negb].
  - rewrite rename_refused by exact W. rewrite D. cbn [negb].
      rewrite B. exact M.
  - destruct (writable s) eqn:W.
    + rewrite (rename_file _ _ text) by (assumption || reflexivity).
      rewrite G, D. cbn [negb]. rewrite B. exact M.
    + rewrite rename_refused by exact W. rewrite D. cbn [negb].
      rewrite B. exact M.
  - rewrite makedirs_data, D, W, D. cbn [negb].
    unfold os_mkdir at 1. now rewrite D, W, andb_false_r.
Qed.

Lemma X24_data_folder_blocked_witness :
  let s := {| tree := {[ "data" := File "notes"; "data_old.txt" := Dir ]};
              writable := true; replaces := true |} in
  _ensure_folders_exist s = (s, Raise OSError).
Proof.
  intros s. apply (X24_data_folder_blocked s).
  - intros p n H. unfold s in H. cbn [tree] in H.
    apply lookup_insert_Some in H as [[<- _]|[_ H]];
      [reflexivity|].
    apply lookup_singleton_Some in H as [<- _]. reflexivity.
  - left. exists "notes". split; [reflexivity|]. right. reflexivity.
Defined.

(** X25: when [data] is a directory and [data/backups] a regular file
    that cannot be renamed, [_ensure_folders_exist] returns normally all
    the same and leaves everything as it was: the handler finds both
    names taken and makes nothing, so the backup folder is still a
    file. *)
Theorem X25_backup_folder_blocked (s : filesystem) (text : string) :
  tree s !! data_folder = Some Dir ->
  tree s !! backup_folder = Some (File text) ->
  writable s = false \/ gives_way (old_name backup_folder) s = false ->
  _ensure_folders_exist s = (s, Ok tt)
  /\ os_path_isdir backup_folder s = false.
Proof.
  intros D B H. split; [|unfold os_path_isdir; now rewrite B].
  unfold _ensure_folders_exist, ftry, fbind, fwhen, os_path_exists,
    os_path_isdir.
  rewrite D. cbn [andb negb]. rewrite makedirs_data, D, B. cbn [andb negb].
  assert (R : os_rename backup_folder (old_name backup_folder) s
              = (s, Raise OSError)).
  { destruct (writable s) eqn:W; [|now apply rename_refused].
    destruct H as [H|H]; [discriminate|].
    rewrite (rename_file _ _ text), H; try assumption; try reflexivity.
    unfold parent_is_dir, os_path_isdir.
    change (dirname (old_name backup_folder)) with data_folder.
    now rewrite D. }
  rewrite R, D. cbn [negb]. now rewrite B.
Qed.

Lemma X25_backup_folder_blocked_witness :
  let s := {| tree := {[ "data" := Dir; "data/backups" := File "x" ]};
              writable := false; replaces := true |} in
  _ensure_folders_exist s = (s, Ok tt)
  /\ os_path_isdir backup_folder s = false.
Proof.
  intros s. apply (X25_backup_folder_blocked s "x"); try reflexivity.
  now left.
Defined.
